(** * A shallow embedding of the video editor's store, trim handlers,
      preview player and export pipeline.

    Source files embedded here:
    - the type declarations ([TimelineBlock], [VideoClip], [PlaybackState], ...)
    - src/store/videoStore.ts                                  (module [Store])
    - TimelineBlock.tsx, the trim-handle drag                  (module [Trim])
    - App.tsx, [handleKeyPress] for KeyI and KeyO              (module [Keys])
    - VideoPlayer.tsx, [handleTimeUpdate]                      (module [Player])
    - utils/ffmpegHelper.ts, the progress listener of
      [transcodeVideo]                                         (module [FFmpeg])
    - ExportPanel.tsx: [processAndMergeSegments] with
      [processNextBlock] and [captureLoop]                     (module [Run]),
      [handleExport] and [handleCancel]                        (module [Panel])

    Numbers.  A JavaScript [number] that holds a time, a duration or an
    order is modelled as an exact rational ([Q]): rounding of binary
    floating point is abstracted away.  Where the source divides, or reads a
    value handed over by a foreign library, the special values matter and the
    result lives in [num], which adds [+Infinity], [-Infinity] and [NaN] to
    the rationals.

    Asynchronous code.  An [await] or an installed callback is a point at
    which the browser may deliver an event; the handlers are functions from
    state and event to state, and a run is a list of events. *)

From Stdlib Require Import QArith Qminmax Qround Lqa Lia ZArith List String Bool.
From Stdlib Require Import Sorted Permutation DecimalString.
Import ListNotations.
Open Scope Q_scope.

(** ** JavaScript numbers with their special values *)

Inductive num : Type :=
| Fin (q : Q)
| PInf
| NInf
| NaN.

Module JS.

(** [a / b] on finite operands: [x/0] is an infinity of the sign of [x],
    [0/0] is [NaN]. *)
Definition div (a b : Q) : num :=
  if Qeq_bool b 0 then
    (if Qeq_bool a 0 then NaN
     else if Qle_bool 0 a then PInf else NInf)
  else Fin (a / b).

(** [x * k] for a finite, strictly positive constant [k]. *)
Definition scale (x : num) (k : Q) : num :=
  match x with
  | Fin q => Fin (q * k)
  | other => other
  end.

(** [k + x] for a finite constant [k]. *)
Definition shift (k : Q) (x : num) : num :=
  match x with
  | Fin q => Fin (k + q)
  | other => other
  end.

(** [Math.min(k, x)] for a finite constant [k]. *)
Definition min (k : Q) (x : num) : num :=
  match x with
  | Fin q => Fin (Qmin k q)
  | PInf => Fin k
  | NInf => NInf
  | NaN => NaN
  end.

(** [Math.max(k, x)] for a finite constant [k]. *)
Definition max (k : Q) (x : num) : num :=
  match x with
  | Fin q => Fin (Qmax k q)
  | PInf => PInf
  | NInf => Fin k
  | NaN => NaN
  end.

(** [Math.floor] and [Math.round] (round half up) on rationals. *)
Definition floorQ (q : Q) : Q := inject_Z (Qfloor q).
Definition roundQ (q : Q) : Q := inject_Z (Qfloor (q + (1 # 2))).

Definition floor (x : num) : num :=
  match x with Fin q => Fin (floorQ q) | other => other end.
Definition round (x : num) : num :=
  match x with Fin q => Fin (roundQ q) | other => other end.

(** Comparisons; every comparison with [NaN] is false. *)
Definition leb (x y : num) : bool :=
  match x, y with
  | NaN, _ | _, NaN => false
  | NInf, _ => true
  | _, PInf => true
  | Fin a, Fin b => Qle_bool a b
  | _, _ => false
  end.
Definition geb (x y : num) : bool := leb y x.
Definition ltb (x y : num) : bool :=
  match x, y with
  | NaN, _ | _, NaN => false
  | Fin a, Fin b => negb (Qle_bool b a)
  | PInf, _ => false
  | _, NInf => false
  | _, _ => true
  end.
Definition gtb (x y : num) : bool := ltb y x.

(** [a >= b] and [a > b] on rationals. *)
Definition Qgeb (a b : Q) : bool := Qle_bool b a.
Definition Qgtb (a b : Q) : bool := negb (Qle_bool a b).
Definition Qltb (a b : Q) : bool := negb (Qle_bool b a).

End JS.

(** ** Data model (the repository's type declarations) *)

Record VideoMetadata : Type := mkMetadata {
  md_duration : Q;
  md_width : Q;
  md_height : Q;
  md_codec : string;
  md_frameRate : Q;
  md_bitrate : option Q
}.

Record AudioSettings : Type := mkAudio {
  volume : Q;       (* 0-100 *)
  muted : bool
}.

(** [file] is an opaque browser [File]; only its name is kept. *)
Record VideoClip : Type := mkClip {
  clip_id : string;
  file : string;
  metadata : VideoMetadata;
  clip_startTime : Q;
  clip_endTime : Q;
  audioSettings : AudioSettings;
  thumbnailUrl : option string
}.

Record TimelineBlock : Type := mkBlock {
  id : string;
  clipId : string;
  order : Q;
  startTime : Q;
  endTime : Q;
  duration : Q
}.

(** [Partial<TimelineBlock>]: every field may be absent. *)
Record BlockUpdates : Type := mkUpdates {
  u_id : option string;
  u_clipId : option string;
  u_order : option Q;
  u_startTime : option Q;
  u_endTime : option Q;
  u_duration : option Q
}.

Definition no_updates : BlockUpdates :=
  mkUpdates None None None None None None.

Record PlaybackState : Type := mkPlayback {
  isPlaying : bool;
  currentTime : Q;
  totalDuration : Q;
  activeBlockId : option string
}.

Record ProcessingProgress : Type := mkTask {
  taskId : string;
  task_progress : Q;
  completed : bool
}.

(** ** The store: [src/store/videoStore.ts] *)

Module Store.

Record t : Type := mk {
  clips : list VideoClip;
  timelineBlocks : list TimelineBlock;
  playback : PlaybackState;
  processingQueue : list ProcessingProgress
}.

Definition initial : t :=
  mk [] [] (mkPlayback false 0 0 None) [].

(** [blocks.reduce((sum, b) => sum + b.duration, 0)] *)
Definition reduce_duration (blocks : list TimelineBlock) : Q :=
  fold_left (fun sum b => sum + duration b) blocks 0.

(** [{ ...state.playback, totalDuration }] *)
Definition with_totalDuration (p : PlaybackState) (total : Q) : PlaybackState :=
  mkPlayback (isPlaying p) (currentTime p) total (activeBlockId p).

(** [{ ...b, ...updates }] *)
Definition spread (b : TimelineBlock) (u : BlockUpdates) : TimelineBlock :=
  mkBlock
    (match u_id u with Some v => v | None => id b end)
    (match u_clipId u with Some v => v | None => clipId b end)
    (match u_order u with Some v => v | None => order b end)
    (match u_startTime u with Some v => v | None => startTime b end)
    (match u_endTime u with Some v => v | None => endTime b end)
    (match u_duration u with Some v => v | None => duration b end).

Definition addClip (clip : VideoClip) (s : t) : t :=
  mk (clips s ++ [clip]) (timelineBlocks s) (playback s) (processingQueue s).

Definition removeClip (cid : string) (s : t) : t :=
  mk (filter (fun c => negb (String.eqb (clip_id c) cid)) (clips s))
     (filter (fun b => negb (String.eqb (clipId b) cid)) (timelineBlocks s))
     (playback s)
     (processingQueue s).

Definition addBlockToTimeline (block : TimelineBlock) (s : t) : t :=
  let newBlocks := timelineBlocks s ++ [block] in
  let total := reduce_duration newBlocks in
  mk (clips s) newBlocks (with_totalDuration (playback s) total)
     (processingQueue s).

Definition removeBlockFromTimeline (blockId : string) (s : t) : t :=
  let newBlocks :=
    filter (fun b => negb (String.eqb (id b) blockId)) (timelineBlocks s) in
  let total := reduce_duration newBlocks in
  mk (clips s) newBlocks (with_totalDuration (playback s) total)
     (processingQueue s).

Definition updateBlockOrder (blocks : list TimelineBlock) (s : t) : t :=
  let total := reduce_duration blocks in
  mk (clips s) blocks (with_totalDuration (playback s) total)
     (processingQueue s).

Definition updateBlock (blockId : string) (updates : BlockUpdates) (s : t) : t :=
  let newBlocks :=
    map (fun b => if String.eqb (id b) blockId then spread b updates else b)
        (timelineBlocks s) in
  let total := reduce_duration newBlocks in
  mk (clips s) newBlocks (with_totalDuration (playback s) total)
     (processingQueue s).

Definition setPlaying (flag : bool) (s : t) : t :=
  mk (clips s) (timelineBlocks s)
     (mkPlayback flag (currentTime (playback s)) (totalDuration (playback s))
                 (activeBlockId (playback s)))
     (processingQueue s).

Definition setCurrentTime (time : Q) (s : t) : t :=
  mk (clips s) (timelineBlocks s)
     (mkPlayback (isPlaying (playback s)) time (totalDuration (playback s))
                 (activeBlockId (playback s)))
     (processingQueue s).

Definition setActiveBlock (blockId : option string) (s : t) : t :=
  mk (clips s) (timelineBlocks s)
     (mkPlayback (isPlaying (playback s)) (currentTime (playback s))
                 (totalDuration (playback s)) blockId)
     (processingQueue s).

Definition getTotalDuration (s : t) : Q := reduce_duration (timelineBlocks s).

(** [clips.find(c => c.id === clipId)] *)
Definition find_clip (cid : string) (cs : list VideoClip) : option VideoClip :=
  find (fun c => String.eqb (clip_id c) cid) cs.

Definition getClipById (cid : string) (s : t) : option VideoClip :=
  find_clip cid (clips s).

(** [blocks.find(b => b.id === blockId)] *)
Definition find_block (bid : string) (bs : list TimelineBlock)
  : option TimelineBlock :=
  find (fun b => String.eqb (id b) bid) bs.

(** The four timeline-block actions, as data. *)
Inductive block_action : Type :=
| AddBlock (block : TimelineBlock)
| RemoveBlock (blockId : string)
| ReorderBlocks (blocks : list TimelineBlock)
| UpdateBlock (blockId : string) (updates : BlockUpdates).

Definition apply_block_action (a : block_action) (s : t) : t :=
  match a with
  | AddBlock b => addBlockToTimeline b s
  | RemoveBlock i => removeBlockFromTimeline i s
  | ReorderBlocks bs => updateBlockOrder bs s
  | UpdateBlock i u => updateBlock i u s
  end.

(** The sum of the [duration] fields, written by recursion on the list
    (the reading of "sum over all blocks" that does not mention the fold). *)
Fixpoint sum_durations (blocks : list TimelineBlock) : Q :=
  match blocks with
  | [] => 0
  | b :: rest => duration b + sum_durations rest
  end.

End Store.

(** ** Sorting by [order]: [[...blocks].sort((a, b) => a.order - b.order)]
    (the sort of an array is stable). *)

Fixpoint insert_by_order (b : TimelineBlock) (sorted : list TimelineBlock)
  : list TimelineBlock :=
  match sorted with
  | [] => [b]
  | y :: rest =>
      if Qle_bool (order b) (order y) then b :: y :: rest
      else y :: insert_by_order b rest
  end.

Definition sort_by_order (blocks : list TimelineBlock) : list TimelineBlock :=
  fold_right insert_by_order [] blocks.

(** ** Trim handles: TimelineBlock.tsx *)

Module Trim.

Inductive TrimHandle : Type := HStart | HEnd.

(** Component state: [trimming] and [tempTrimTime]. *)
Record state : Type := mk {
  trimming : option TrimHandle;
  temp_start : Q;
  temp_end : Q
}.

(** Initial component state for the rendered [block]. *)
Definition init (block : TimelineBlock) : state :=
  mk None (startTime block) (endTime block).

Definition handleTrimStart (block : TimelineBlock) (handle : TrimHandle)
  : state :=
  mk (Some handle) (startTime block) (endTime block).

(** [handleMouseMove]; [ratio] is [mouseX / blockWidth] for the rendered
    block (it may be negative or above 1). *)
Definition handleMouseMove (block : TimelineBlock) (clip : VideoClip)
    (ratio : Q) (st : state) : state :=
  let clipDuration := md_duration (metadata clip) in
  let currentDuration := endTime block - startTime block in
  match trimming st with
  | Some HStart =>
      let offset := ratio * currentDuration in
      let newStartTime := startTime block + offset in
      let maxStart := temp_end st - 0.1 in
      mk (trimming st) (Qmax 0 (Qmin newStartTime maxStart)) (temp_end st)
  | Some HEnd =>
      let offset := ratio * currentDuration in
      let newEndTime := startTime block + offset in
      let minEnd := temp_start st + 0.1 in
      mk (trimming st) (temp_start st) (Qmax minEnd (Qmin newEndTime clipDuration))
  | None => st
  end.

(** [handleMouseUp]: commits the temporary trim to the store. *)
Definition handleMouseUp (block : TimelineBlock) (st : state) (s : Store.t)
  : state * Store.t :=
  match trimming st with
  | Some _ =>
      let newDuration := temp_end st - temp_start st in
      (mk None (temp_start st) (temp_end st),
       Store.updateBlock (id block)
         (mkUpdates None None None
            (Some (temp_start st)) (Some (temp_end st)) (Some newDuration)) s)
  | None => (st, s)
  end.

(** A whole drag: mouse down on a handle, mouse moves, release. *)
Definition drag (block : TimelineBlock) (clip : VideoClip)
    (handle : TrimHandle) (ratios : list Q) (s : Store.t) : state * Store.t :=
  let st := fold_left (fun st r => handleMouseMove block clip r st) ratios
                      (handleTrimStart block handle) in
  handleMouseUp block st s.

(** The segment invariant of the data model, for a block of a clip whose
    source lasts [sourceDuration]. *)
Definition trim_invariant (b : TimelineBlock) (sourceDuration : Q) : Prop :=
  0 <= startTime b /\ startTime b < endTime b /\ endTime b <= sourceDuration.

End Trim.

(** ** Keyboard shortcuts: App.tsx, [handleKeyPress] *)

Module Keys.

(** A string used as a condition is true unless it is absent or empty. *)
Definition truthy (o : option string) : bool :=
  match o with
  | Some i => negb (String.eqb i EmptyString)
  | None => false
  end.

Definition hasClips (s : Store.t) : bool :=
  negb (Nat.eqb (List.length (Store.clips s)) 0).

Definition active_block (s : Store.t) : option TimelineBlock :=
  match activeBlockId (Store.playback s) with
  | Some i => Store.find_block i (Store.timelineBlocks s)
  | None => None
  end.

(** [case 'KeyI'] *)
Definition keyI (s : Store.t) : Store.t :=
  if truthy (activeBlockId (Store.playback s)) && hasClips s then
    match active_block s with
    | Some block =>
        let newStartTime := currentTime (Store.playback s) in
        let newDuration := endTime block - newStartTime in
        if JS.Qgtb newDuration 0.1 then
          Store.updateBlock (id block)
            (mkUpdates None None None (Some newStartTime) None (Some newDuration)) s
        else s
    | None => s
    end
  else s.

(** [case 'KeyO'] *)
Definition keyO (s : Store.t) : Store.t :=
  if truthy (activeBlockId (Store.playback s)) && hasClips s then
    match active_block s with
    | Some block =>
        let newEndTime := currentTime (Store.playback s) in
        let newDuration := newEndTime - startTime block in
        if JS.Qgtb newDuration 0.1 then
          Store.updateBlock (id block)
            (mkUpdates None None None None (Some newEndTime) (Some newDuration)) s
        else s
    | None => s
    end
  else s.

End Keys.

(** ** Preview player: VideoPlayer.tsx, [handleTimeUpdate] *)

Module Player.

(** The part of the [<video>] element the handler touches. *)
Record video : Type := mkVideo {
  v_currentTime : Q;
  v_paused : bool
}.

(** Component state ([videoRef], [currentBlockIndex], [isTransitioning],
    [shouldAutoPlayRef]) together with the store it writes to. *)
Record state : Type := mk {
  videoRef : option video;
  currentBlockIndex : nat;
  isTransitioning : bool;
  shouldAutoPlay : bool;
  store : Store.t
}.

Definition sortedBlocks (st : state) : list TimelineBlock :=
  sort_by_order (Store.timelineBlocks (store st)).

(** The tolerance written in [handleTimeUpdate]. *)
Definition tolerance : Q := 0.05.

Definition handleTimeUpdate (st : state) : state :=
  match videoRef st with
  | None => st
  | Some v =>
      if Nat.eqb (List.length (sortedBlocks st)) 0 || isTransitioning st then st
      else
        match nth_error (sortedBlocks st) (currentBlockIndex st) with
        | None => st
        | Some currentBlock =>
            let videoTime := v_currentTime v in
            if JS.Qgeb videoTime (endTime currentBlock - tolerance) then
              (* pause, then move to the next block or loop back *)
              let v' := mkVideo (v_currentTime v) true in
              let s1 := Store.setPlaying false (store st) in
              if Nat.ltb (currentBlockIndex st)
                         (List.length (sortedBlocks st) - 1) then
                mk (Some v') (S (currentBlockIndex st)) true true s1
              else
                mk (Some v') 0%nat true true (Store.setCurrentTime 0 s1)
            else if JS.Qltb videoTime (startTime currentBlock) then
              mk (Some (mkVideo (startTime currentBlock) (v_paused v)))
                 (currentBlockIndex st) (isTransitioning st) (shouldAutoPlay st)
                 (store st)
            else
              let timeBeforeCurrentBlock :=
                Store.reduce_duration
                  (firstn (currentBlockIndex st) (sortedBlocks st)) in
              let timeInCurrentBlock := videoTime - startTime currentBlock in
              let cumulativeTime := timeBeforeCurrentBlock + timeInCurrentBlock in
              mk (videoRef st) (currentBlockIndex st) (isTransitioning st)
                 (shouldAutoPlay st) (Store.setCurrentTime cumulativeTime (store st))
        end
  end.

End Player.

(** ** Transcoding progress: utils/ffmpegHelper.ts *)

Module FFmpeg.

(** The payload of FFmpeg's ['progress'] event; a field that is not a
    number is [None]. *)
Record sample : Type := mkSample {
  progress : option num;
  time : option num
}.

(** The fallback branch: [time] is a number above 0, and the estimate is
    [Math.min(99, Math.floor(time / 100000))]; otherwise [progressPercent]
    keeps its initial 0. *)
Definition estimate_from_time (t : option num) : num :=
  match t with
  | Some v =>
      if JS.gtb v (Fin 0)
      then JS.min 99 (JS.floor (JS.scale v (1 # 100000)))
      else Fin 0
  | None => Fin 0
  end.

(** The value the listener installed by [transcodeVideo] computes in
    [progressPercent]. *)
Definition progressPercent (s : sample) : num :=
  match progress s with
  | Some p =>
      if JS.geb p (Fin 0) && JS.leb p (Fin 1) then JS.round (JS.scale p 100)
      else estimate_from_time (time s)
  | None => estimate_from_time (time s)
  end.

(** The argument of [onProgress]:
    [Math.max(0, Math.min(100, progressPercent))]. *)
Definition forwarded (s : sample) : num :=
  JS.max 0 (JS.min 100 (progressPercent s)).

End FFmpeg.

(** ** Export: ExportPanel.tsx *)

Inductive Format : Type := webm | mp4 | mov.
Inductive Quality : Type := low | medium | high.

Record ExportSettings : Type := mkSettings {
  format : Format;
  quality : Quality
}.

Definition Format_eqb (a b : Format) : bool :=
  match a, b with
  | webm, webm | mp4, mp4 | mov, mov => true
  | _, _ => false
  end.

(** *** [processAndMergeSegments]

    The promise executor and the callbacks it installs form an event-driven
    machine.  The browser delivers the events ([loadedmetadata], [seeked],
    the resolution of [video.play()], animation frames with the element's
    [currentTime] and [ended] as read by [captureLoop], the recorder's
    [dataavailable], [stop] and [error]); an event for which no listener is
    installed leaves the state as it is.  The 2D context of the off-screen
    canvas is taken to be available. *)

Module Run.

Inductive phase : Type :=
| AwaitFirstMetadata   (* first [loadedmetadata], before the recorder exists *)
| AwaitMetadata        (* [processNextBlock]: [loadedmetadata] of the block's clip *)
| AwaitSeeked          (* [processNextBlock]: [seeked] *)
| AwaitPlay            (* [video.play()] pending *)
| Capturing            (* [requestAnimationFrame(captureLoop)] pending *)
| Returned.            (* nothing scheduled any more *)

Inductive recorder : Type :=
| RecAbsent            (* not constructed yet *)
| RecRecording         (* after [recorder.start(100)] *)
| RecStopRequested     (* after [recorder.stop()], before [onstop] *)
| RecStopped           (* [onstop] has run *)
| RecFailed.           (* [onerror] has run *)

Inductive outcome : Type :=
| Pending
| Resolved (blob : list nat)      (* the chunks, in arrival order *)
| Rejected (message : string).

Inductive event : Type :=
| LoadedMetadata
| Seeked
| PlayStarted
| AnimationFrame (videoTime : Q) (ended : bool)
| DataAvailable (size : nat)
| RecorderStopped
| RecorderError.

Record video : Type := mkVideo {
  src : option string;
  v_volume : Q;
  v_muted : bool;
  v_currentTime : Q;
  v_paused : bool
}.

Record state : Type := mk {
  ph : phase;
  vid : video;
  audioSource : bool;               (* [audioSource !== null] *)
  audioSourceCreations : nat;       (* calls of [createMediaElementSource] *)
  rec : recorder;
  videoBitsPerSecond : Q;
  chunks : list nat;
  processedDuration : Q;
  totalDuration : Q;
  currentBlockIndex : nat;
  frames : list (nat * Q);          (* [drawImage] calls: block index, video time *)
  warnings : list string;           (* [console.warn]: clip ids not found *)
  result : outcome
}.

Definition bitrates (q : Quality) : Q :=
  match q with
  | low => 2500000
  | medium => 5000000
  | high => 10000000
  end.

Definition fresh_video : video := mkVideo None 1 false 0 true.

Definition set_ph (p : phase) (s : state) : state :=
  mk p (vid s) (audioSource s) (audioSourceCreations s) (rec s)
     (videoBitsPerSecond s) (chunks s) (processedDuration s) (totalDuration s)
     (currentBlockIndex s) (frames s) (warnings s) (result s).

Definition set_vid (v : video) (s : state) : state :=
  mk (ph s) v (audioSource s) (audioSourceCreations s) (rec s)
     (videoBitsPerSecond s) (chunks s) (processedDuration s) (totalDuration s)
     (currentBlockIndex s) (frames s) (warnings s) (result s).

Definition set_rec (r : recorder) (s : state) : state :=
  mk (ph s) (vid s) (audioSource s) (audioSourceCreations s) r
     (videoBitsPerSecond s) (chunks s) (processedDuration s) (totalDuration s)
     (currentBlockIndex s) (frames s) (warnings s) (result s).

Definition set_index (i : nat) (s : state) : state :=
  mk (ph s) (vid s) (audioSource s) (audioSourceCreations s) (rec s)
     (videoBitsPerSecond s) (chunks s) (processedDuration s) (totalDuration s)
     i (frames s) (warnings s) (result s).

Definition set_result (o : outcome) (s : state) : state :=
  mk (ph s) (vid s) (audioSource s) (audioSourceCreations s) (rec s)
     (videoBitsPerSecond s) (chunks s) (processedDuration s) (totalDuration s)
     (currentBlockIndex s) (frames s) (warnings s) o.

(** [resolve] and [reject] settle the promise once; later calls do nothing. *)
Definition resolve (blob : list nat) (s : state) : state :=
  match result s with
  | Pending => set_result (Resolved blob) s
  | _ => s
  end.

Definition reject (message : string) (s : state) : state :=
  match result s with
  | Pending => set_result (Rejected message) s
  | _ => s
  end.

(** [recorder.stop()]; on a recorder that is not recording the call throws
    inside the async [processNextBlock] and nothing else happens. *)
Definition recorder_stop (s : state) : state :=
  match rec s with
  | RecRecording => set_rec RecStopRequested s
  | _ => s
  end.

Section WithInputs.

Variable blocks : list TimelineBlock.
Variable allClips : list VideoClip.
Variable exportSettings : ExportSettings.

(** The synchronous part of [processNextBlock], started at index [idx] with
    [rest] the blocks from that index on: blocks without a clip are skipped
    with a warning, the first block with a clip is loaded, and at the end of
    the list the recorder is stopped. *)
Fixpoint processNextBlock_from (rest : list TimelineBlock) (idx : nat)
    (s : state) : state :=
  match rest with
  | [] => set_ph Returned (recorder_stop (set_index idx s))
  | block :: rest' =>
      match Store.find_clip (clipId block) allClips with
      | None =>
          processNextBlock_from rest' (S idx)
            (mk (ph s) (vid s) (audioSource s) (audioSourceCreations s) (rec s)
                (videoBitsPerSecond s) (chunks s) (processedDuration s)
                (totalDuration s) (currentBlockIndex s) (frames s)
                (warnings s ++ [clipId block]) (result s))
      | Some clip =>
          set_ph AwaitMetadata
            (set_vid (mkVideo (Some (file clip)) (v_volume (vid s))
                              (v_muted (vid s)) (v_currentTime (vid s))
                              (v_paused (vid s)))
               (set_index idx s))
      end
  end.

Definition processNextBlock (s : state) : state :=
  processNextBlock_from (skipn (currentBlockIndex s) blocks)
                        (currentBlockIndex s) s.

(** The executor up to its first [await]. *)
Definition processAndMergeSegments : state :=
  let s0 := mk Returned fresh_video false 0%nat RecAbsent 0 [] 0 0 0%nat [] []
               Pending in
  match blocks with
  | [] => reject "Cannot read properties of undefined" s0
  | firstBlock :: _ =>
      match Store.find_clip (clipId firstBlock) allClips with
      | None => reject "First clip not found" s0
      | Some firstClip =>
          set_ph AwaitFirstMetadata
            (set_vid (mkVideo (Some (file firstClip)) 1 false 0 true) s0)
      end
  end.

(** After the first [loadedmetadata]: the recorder is created and started,
    [onProgress(5)] is called and the first block is processed. *)
Definition start_recording (s : state) : state * list num :=
  let s1 :=
    mk (ph s) (vid s) (audioSource s) (audioSourceCreations s) RecRecording
       (bitrates (quality exportSettings)) (chunks s)
       0 (Store.reduce_duration blocks) 0%nat (frames s) (warnings s)
       (result s) in
  (processNextBlock s1, [Fin 5]).

(** [processNextBlock] between [loadedmetadata] and the seek. *)
Definition apply_block (s : state) : state :=
  match nth_error blocks (currentBlockIndex s) with
  | None => s
  | Some block =>
      match Store.find_clip (clipId block) allClips with
      | None => s
      | Some clip =>
          let creates := negb (audioSource s) in
          mk AwaitSeeked
             (mkVideo (src (vid s))
                      (volume (audioSettings clip) / 100)
                      (muted (audioSettings clip))
                      (startTime block)
                      (v_paused (vid s)))
             true
             (if creates then S (audioSourceCreations s)
              else audioSourceCreations s)
             (rec s) (videoBitsPerSecond s) (chunks s) (processedDuration s)
             (totalDuration s) (currentBlockIndex s) (frames s) (warnings s)
             (result s)
      end
  end.

(** The progress value computed at a block's end. *)
Definition capture_progress (processed total : Q) : num :=
  JS.min 95 (JS.scale (JS.div processed total) 95).

(** One call of [captureLoop] for the block at [currentBlockIndex]. *)
Definition captureLoop (videoTime : Q) (ended : bool) (s : state)
  : state * list num :=
  match nth_error blocks (currentBlockIndex s) with
  | None => (s, [])
  | Some block =>
      let segmentDuration := endTime block - startTime block in
      if JS.Qgeb videoTime (endTime block) || ended then
        let processed := processedDuration s + segmentDuration in
        let progress := capture_progress processed (totalDuration s) in
        let s1 :=
          mk (ph s)
             (mkVideo (src (vid s)) (v_volume (vid s)) (v_muted (vid s))
                      videoTime true)
             (audioSource s) (audioSourceCreations s) (rec s)
             (videoBitsPerSecond s) (chunks s) processed (totalDuration s)
             (S (currentBlockIndex s)) (frames s) (warnings s) (result s) in
        (processNextBlock s1, [progress])
      else
        (mk Capturing
            (mkVideo (src (vid s)) (v_volume (vid s)) (v_muted (vid s))
                     videoTime (v_paused (vid s)))
            (audioSource s) (audioSourceCreations s) (rec s)
            (videoBitsPerSecond s) (chunks s) (processedDuration s)
            (totalDuration s) (currentBlockIndex s)
            (frames s ++ [(currentBlockIndex s, videoTime)])
            (warnings s) (result s),
         [])
  end.

(** One event; the second component lists the arguments of the
    [onProgress] calls made while handling it. *)
Definition step (s : state) (e : event) : state * list num :=
  match e, ph s with
  | LoadedMetadata, AwaitFirstMetadata => start_recording s
  | LoadedMetadata, AwaitMetadata => (apply_block s, [])
  | Seeked, AwaitSeeked =>
      (set_ph AwaitPlay
         (set_vid (mkVideo (src (vid s)) (v_volume (vid s)) (v_muted (vid s))
                           (v_currentTime (vid s)) false) s), [])
  | PlayStarted, AwaitPlay => (set_ph Capturing s, [])
  | AnimationFrame t ended, Capturing => captureLoop t ended s
  | DataAvailable size, _ =>
      match rec s with
      | RecRecording | RecStopRequested =>
          if Nat.ltb 0 size then
            (mk (ph s) (vid s) (audioSource s) (audioSourceCreations s) (rec s)
                (videoBitsPerSecond s) (chunks s ++ [size]) (processedDuration s)
                (totalDuration s) (currentBlockIndex s) (frames s) (warnings s)
                (result s), [])
          else (s, [])
      | _ => (s, [])
      end
  | RecorderStopped, _ =>
      match rec s with
      | RecStopRequested => (resolve (chunks s) (set_rec RecStopped s), [])
      | _ => (s, [])
      end
  | RecorderError, _ =>
      match rec s with
      | RecRecording => (reject "MediaRecorder error" (set_rec RecFailed s), [])
      | _ => (s, [])
      end
  | _, _ => (s, [])
  end.

(** A sequence of events, with every [onProgress] argument in order. *)
Fixpoint exec (s : state) (events : list event) : state * list num :=
  match events with
  | [] => (s, [])
  | e :: rest =>
      let (s1, out1) := step s e in
      let (s2, out2) := exec s1 rest in
      (s2, out1 ++ out2)
  end.

(** A run from its start. *)
Definition run (events : list event) : state * list num :=
  exec processAndMergeSegments events.

(** The events of a block that plays through: the clip loads, the seek
    completes, playback starts, animation frames arrive before the end
    ([early], each with [ended = false]) and then one at or past the end. *)
Definition play_block (early : list Q) (final : Q) : list event :=
  [LoadedMetadata; Seeked; PlayStarted]
  ++ map (fun t => AnimationFrame t false) early
  ++ [AnimationFrame final false].

(** *** Vocabulary for the statements about a run *)

(** The block's clip is in the clips list. *)
Definition has_clip (b : TimelineBlock) : bool :=
  match Store.find_clip (clipId b) allClips with
  | Some _ => true
  | None => false
  end.

(** [block.endTime - block.startTime], the [segmentDuration] of the block. *)
Definition segmentDuration (b : TimelineBlock) : Q := endTime b - startTime b.

(** The blocks whose end the run has reached: those before the current
    index that have a clip. *)
Definition completed_blocks (s : state) : list TimelineBlock :=
  filter has_clip (firstn (currentBlockIndex s) blocks).

(** Running totals of a list, from [acc]. *)
Fixpoint running_totals (acc : Q) (xs : list Q) : list Q :=
  match xs with
  | [] => []
  | x :: rest => (acc + x) :: running_totals (acc + x) rest
  end.

(** The progress values due once the ends of [done] have been reached:
    the initial 5, then one value per block from the duration processed so
    far. *)
Definition progress_after (done : list TimelineBlock) : list num :=
  Fin 5
  :: map (fun processed => capture_progress processed (Store.reduce_duration blocks))
         (running_totals 0 (map segmentDuration done)).

(** The events of a run in which every block that has a clip plays
    through, with the frames [early b] drawn before the end of [b]. *)
Definition play_all (early : TimelineBlock -> list Q)
    (bs : list TimelineBlock) : list event :=
  List.concat (map (fun b => play_block (early b) (endTime b)) (filter has_clip bs)).

(** What holds of a run's state [s] and of the progress values [out]
    reported so far, whatever events have arrived. *)
Definition coherent (s : state) (out : list num) : Prop :=
  (rec s = RecAbsent -> out = [])
  /\ (rec s <> RecAbsent ->
      out = progress_after (completed_blocks s)
      /\ processedDuration s
         = fold_left Qplus (map segmentDuration (completed_blocks s)) 0
      /\ totalDuration s = Store.reduce_duration blocks)
  /\ (ph s = AwaitMetadata \/ ph s = AwaitSeeked \/ ph s = AwaitPlay
      \/ ph s = Capturing ->
      rec s <> RecAbsent
      /\ exists b, nth_error blocks (currentBlockIndex s) = Some b
                   /\ has_clip b = true)
  /\ (forall i t, In (i, t) (frames s) ->
      exists b, nth_error blocks i = Some b /\ has_clip b = true)
  /\ audioSourceCreations s = (if audioSource s then 1 else 0)%nat
  /\ (ph s = AwaitSeeked \/ ph s = AwaitPlay \/ ph s = Capturing ->
      audioSource s = true)
  /\ (ph s = AwaitFirstMetadata -> rec s = RecAbsent).

End WithInputs.

(** What the events of the capture stage leave alone. *)
Definition same_outside (s s' : state) : Prop :=
  rec s' = rec s
  /\ result s' = result s
  /\ chunks s' = chunks s
  /\ warnings s' = warnings s.

End Run.

(** *** The panel: [handleExport] and [handleCancel] *)

Module Panel.

Inductive toast : Type :=
| ToastError (message : string)
| ToastSuccess (message : string)
| ToastPlain (message : string).

(** Component state, with the history of [setExportProgress] arguments. *)
Record ui : Type := mkUi {
  isExporting : bool;
  exportProgress : num;
  progress_calls : list num;
  toasts : list toast
}.

Definition initial_ui : ui := mkUi false (Fin 0) [] [].

Definition setIsExporting (b : bool) (u : ui) : ui :=
  mkUi b (exportProgress u) (progress_calls u) (toasts u).

Definition setExportProgress (p : num) (u : ui) : ui :=
  mkUi (isExporting u) p (progress_calls u ++ [p]) (toasts u).

Definition add_toast (t : toast) (u : ui) : ui :=
  mkUi (isExporting u) (exportProgress u) (progress_calls u) (toasts u ++ [t]).

(** Where one call of [handleExport] is suspended. *)
Inductive phase : Type :=
| AwaitFileHandle      (* [getSaveFileHandle] *)
| Recording            (* [processAndMergeSegments] *)
| Transcoding          (* [transcodeVideo] *)
| Downloading          (* [downloadBlob] *)
| AwaitReset           (* the one-second timer after success *)
| Finished.            (* the call has returned *)

Inductive event : Type :=
| FileHandleGranted
| FileHandleCancelled
| FileHandleFailed
| RunEvent (e : Run.event)
| TranscodeProgress (s : FFmpeg.sample)
| TranscodeDone
| TranscodeFailed (message : string)
| DownloadDone
| DownloadFailed (message : string)
| ResetTimer
| CancelClicked.

Record state : Type := mk {
  u : ui;
  ph : phase;
  run : option Run.state
}.

(** The environment of a call. *)
Record env : Type := mkEnv {
  fileSystemAccessSupported : bool;
  ffmpegLoaded : bool;
  filename : string
}.

Section WithInputs.

Variable store : Store.t.
Variable settings : ExportSettings.
Variable environment : env.

Definition hasClips : bool :=
  Nat.ltb 0 (List.length (Store.timelineBlocks store)).

Definition sortedBlocks : list TimelineBlock :=
  sort_by_order (Store.timelineBlocks store).

(** The settings handed to [processAndMergeSegments]: the capture stage
    always records WebM. *)
Definition capture_settings : ExportSettings :=
  match format settings with
  | webm => settings
  | _ => mkSettings webm (quality settings)
  end.

(** The callback handed to [processAndMergeSegments]. *)
Definition onCaptureProgress (p : num) (x : ui) : ui :=
  match format settings with
  | webm => setExportProgress p x
  | _ => setExportProgress (JS.round (JS.scale p 0.6)) x
  end.

(** The callback handed to [transcodeVideo]. *)
Definition onTranscodeProgress (p : num) (x : ui) : ui :=
  setExportProgress (JS.shift 65 (JS.round (JS.scale p 0.35))) x.

(** The [catch] block of [handleExport]. *)
Definition export_failed (message : string) (x : ui) : ui :=
  setExportProgress (Fin 0) (setIsExporting false (add_toast (ToastError message) x)).

(** Continuation of [handleExport] once the capture promise is settled. *)
Definition after_capture (st : state) : state :=
  match ph st, run st with
  | Recording, Some r =>
      match Run.result r with
      | Run.Pending => st
      | Run.Resolved _ =>
          match format settings with
          | webm => mk (u st) Downloading (run st)
          | _ => mk (setExportProgress (Fin 65) (u st)) Transcoding (run st)
          end
      | Run.Rejected message =>
          mk (export_failed message (u st)) Finished (run st)
      end
  | _, _ => st
  end.

(** [handleExport] from [setIsExporting(true)] to the first suspension. *)
Definition begin_export (x : ui) : state :=
  let x1 := setExportProgress (Fin 0) (setIsExporting true x) in
  let x2 :=
    if negb (Format_eqb (format settings) webm)
       && negb (ffmpegLoaded environment)
    then add_toast
           (ToastPlain "First-time setup: ~5-10 seconds (downloads ~25MB)") x1
    else x1 in
  let r :=
    Run.processAndMergeSegments sortedBlocks (Store.clips store) in
  after_capture (mk x2 Recording (Some r)).

(** [handleExport], up to its first suspension. *)
Definition handleExport (x : ui) : state :=
  if negb hasClips then
    mk (add_toast (ToastError "No clips to export") x) Finished None
  else if fileSystemAccessSupported environment then
    mk x AwaitFileHandle None
  else begin_export x.

Definition handleCancel (x : ui) : ui :=
  add_toast (ToastPlain "Export cancelled")
    (setExportProgress (Fin 0) (setIsExporting false x)).

Definition step (st : state) (e : event) : state :=
  match e with
  | CancelClicked =>
      (* the Cancel button is rendered only while [isExporting] *)
      if isExporting (u st) then mk (handleCancel (u st)) (ph st) (run st)
      else st
  | RunEvent re =>
      match run st with
      | Some r =>
          let (r', emitted) :=
            Run.step sortedBlocks (Store.clips store) capture_settings r re in
          let x := fold_left (fun x p => onCaptureProgress p x) emitted (u st) in
          after_capture (mk x (ph st) (Some r'))
      | None => st
      end
  | FileHandleGranted =>
      match ph st with
      | AwaitFileHandle => begin_export (u st)
      | _ => st
      end
  | FileHandleCancelled =>
      match ph st with
      | AwaitFileHandle =>
          mk (add_toast (ToastPlain "Export cancelled") (u st)) Finished (run st)
      | _ => st
      end
  | FileHandleFailed =>
      match ph st with
      | AwaitFileHandle =>
          mk (add_toast (ToastError "Failed to select save location") (u st))
             Finished (run st)
      | _ => st
      end
  | TranscodeProgress smp =>
      match ph st with
      | Transcoding =>
          mk (onTranscodeProgress (FFmpeg.forwarded smp) (u st)) (ph st) (run st)
      | _ => st
      end
  | TranscodeDone =>
      match ph st with
      | Transcoding => mk (u st) Downloading (run st)
      | _ => st
      end
  | TranscodeFailed message =>
      match ph st with
      | Transcoding => mk (export_failed message (u st)) Finished (run st)
      | _ => st
      end
  | DownloadDone =>
      match ph st with
      | Downloading =>
          mk (add_toast (ToastSuccess ("Video exported: " ++ filename environment))
                (setExportProgress (Fin 100) (u st)))
             AwaitReset (run st)
      | _ => st
      end
  | DownloadFailed message =>
      match ph st with
      | Downloading => mk (export_failed message (u st)) Finished (run st)
      | _ => st
      end
  | ResetTimer =>
      match ph st with
      | AwaitReset =>
          mk (setExportProgress (Fin 0) (setIsExporting false (u st)))
             Finished (run st)
      | _ => st
      end
  end.

Definition exec (st : state) (events : list event) : state :=
  fold_left step events st.

End WithInputs.

End Panel.

(** A sequence of reported progress values never goes down. *)
Fixpoint nondecreasing (values : list num) : bool :=
  match values with
  | x :: rest =>
      match rest with
      | y :: _ => JS.leb x y && nondecreasing rest
      | [] => true
      end
  | [] => true
  end.

(** ** More vocabulary for runs of [processAndMergeSegments] *)

Module Orderly.

Section WithInputs.

Variable blocks : list TimelineBlock.
Variable allClips : list VideoClip.

(** The element is set up for the block at the current index: its source
    is the block's clip and its volume and mute flag are the clip's. *)
Definition tuned (s : Run.state) : Prop :=
  exists b clip,
    nth_error blocks (Run.currentBlockIndex s) = Some b
    /\ Store.find_clip (clipId b) allClips = Some clip
    /\ Run.src (Run.vid s) = Some (file clip)
    /\ Run.v_volume (Run.vid s) = volume (audioSettings clip) / 100
    /\ Run.v_muted (Run.vid s) = muted (audioSettings clip).

(** The element has been given the source of the block at the current
    index. *)
Definition loading (s : Run.state) : Prop :=
  exists b clip,
    nth_error blocks (Run.currentBlockIndex s) = Some b
    /\ Store.find_clip (clipId b) allClips = Some clip
    /\ Run.src (Run.vid s) = Some (file clip).

(** How recorder, promise, frames and element hang together in a run. *)
Definition orderly (s : Run.state) : Prop :=
  (Run.currentBlockIndex s <= List.length blocks)%nat
  /\ (Run.rec s = Run.RecAbsent ->
      Run.frames s = [] /\ Run.chunks s = []
      /\ (Run.ph s = Run.Returned \/ Run.ph s = Run.AwaitFirstMetadata))
  /\ (Run.rec s = Run.RecStopRequested \/ Run.rec s = Run.RecStopped ->
      Run.ph s = Run.Returned
      /\ Run.currentBlockIndex s = List.length blocks)
  /\ (forall blob, Run.result s = Run.Resolved blob ->
      Run.rec s = Run.RecStopped /\ blob = Run.chunks s)
  /\ (forall i t, In (i, t) (Run.frames s) ->
      (i <= Run.currentBlockIndex s)%nat
      /\ exists b, nth_error blocks i = Some b /\ t < endTime b)
  /\ StronglySorted le (map fst (Run.frames s))
  /\ (Run.ph s = Run.AwaitSeeked \/ Run.ph s = Run.AwaitPlay
      \/ Run.ph s = Run.Capturing -> tuned s)
  /\ (Run.ph s = Run.AwaitMetadata -> loading s)
  /\ (Run.ph s = Run.AwaitFirstMetadata -> Run.rec s = Run.RecAbsent).

End WithInputs.

End Orderly.

(** ** What one call of [handleExport] has announced

    The toasts of a call that tell its outcome ([toast.success] and
    [toast.error]; the plain ones are notices), and how they go with the
    place where the call is suspended. *)
Module Verdict.

Definition is_outcome (t : Panel.toast) : bool :=
  match t with
  | Panel.ToastPlain _ => false
  | _ => true
  end.

Definition outcomes (x : Panel.ui) : list Panel.toast :=
  filter is_outcome (Panel.toasts x).

Definition resolved (st : Panel.state) : Prop :=
  exists r blob, Panel.run st = Some r /\ Run.result r = Run.Resolved blob.

Section WithInputs.

Variable settings : ExportSettings.
Variable environment : Panel.env.

Definition success : Panel.toast :=
  Panel.ToastSuccess ("Video exported: " ++ Panel.filename environment).

Definition consistent (st : Panel.state) : Prop :=
  match Panel.ph st with
  | Panel.AwaitFileHandle =>
      Panel.run st = None /\ outcomes (Panel.u st) = []
      /\ Panel.isExporting (Panel.u st) = false
  | Panel.Recording =>
      (exists r, Panel.run st = Some r /\ Run.result r = Run.Pending)
      /\ outcomes (Panel.u st) = []
  | Panel.Transcoding =>
      resolved st /\ outcomes (Panel.u st) = [] /\ format settings <> webm
  | Panel.Downloading =>
      resolved st /\ outcomes (Panel.u st) = []
  | Panel.AwaitReset =>
      resolved st /\ outcomes (Panel.u st) = [success]
  | Panel.Finished =>
      Panel.isExporting (Panel.u st) = false
      /\ ((exists m, outcomes (Panel.u st) = [Panel.ToastError m])
          \/ (outcomes (Panel.u st) = [success] /\ resolved st)
          \/ (outcomes (Panel.u st) = [] /\ Panel.run st = None))
  end.

End WithInputs.

(** The progress shown never exceeds [k]; a comparison with [NaN] or a
    negative infinity is false, as in the code. *)
Definition not_above (k : Q) (p : num) : Prop := JS.gtb p (Fin k) = false.

Section Bounded.

Variable store : Store.t.
Variable settings : ExportSettings.

(** The run the panel holds is a run of [processAndMergeSegments] on the
    sorted blocks of the store, fed with some events. *)
Definition reachable (r : Run.state) : Prop :=
  exists events,
    r = fst (Run.run (Panel.sortedBlocks store) (Store.clips store)
               (Panel.capture_settings settings) events).

Definition bounded (st : Panel.state) : Prop :=
  Forall (not_above 100) (Panel.progress_calls (Panel.u st))
  /\ not_above 100 (Panel.exportProgress (Panel.u st))
  /\ (forall r, Panel.run st = Some r -> reachable r).

End Bounded.

End Verdict.

(** ** The other keyboard shortcuts: App.tsx, [handleKeyPress] *)

Module Shortcuts.

Inductive key : Type :=
| Space | Delete | Backspace | KeyI | KeyO | OtherKey.

(** [case 'Space'] *)
Definition keySpace (s : Store.t) : Store.t :=
  if Keys.hasClips s then
    Store.setPlaying (negb (isPlaying (Store.playback s))) s
  else s.

(** [case 'Delete'] and [case 'Backspace'] *)
Definition keyDelete (s : Store.t) : Store.t :=
  match activeBlockId (Store.playback s) with
  | Some i =>
      if Keys.truthy (Some i) then Store.removeBlockFromTimeline i s else s
  | None => s
  end.

(** [handleKeyPress]; [typing] tells that the target of the event is an
    input or a text area. *)
Definition handleKeyPress (typing : bool) (k : key) (s : Store.t) : Store.t :=
  if typing then s
  else
    match k with
    | Space => keySpace s
    | Delete | Backspace => keyDelete s
    | KeyI => Keys.keyI s
    | KeyO => Keys.keyO s
    | OtherKey => s
    end.

End Shortcuts.

(** ** Clicking a block: TimelineBlock.tsx, [handleBlockClick] *)

Module BlockClick.

(** [blocks.findIndex(b => b.id === blockId)], with [None] for -1. *)
Fixpoint findIndex (blockId : string) (blocks : list TimelineBlock)
  : option nat :=
  match blocks with
  | [] => None
  | b :: rest =>
      if String.eqb (id b) blockId then Some 0%nat
      else option_map S (findIndex blockId rest)
  end.

(** [blocks.slice(0, index)]; for the index -1 the slice drops the last
    element. *)
Definition slice_to (index : option nat) (blocks : list TimelineBlock)
  : list TimelineBlock :=
  match index with
  | Some i => firstn i blocks
  | None => removelast blocks
  end.

(** [handleBlockClick], for a click outside the controls of the block. *)
Definition handleBlockClick (block : TimelineBlock) (s : Store.t) : Store.t :=
  let s1 := Store.setActiveBlock (Some (id block)) s in
  let sortedBlocks := sort_by_order (Store.timelineBlocks s1) in
  let blockIndex := findIndex (id block) sortedBlocks in
  let cumulativeTime :=
    Store.reduce_duration (slice_to blockIndex sortedBlocks) in
  Store.setCurrentTime cumulativeTime s1.

End BlockClick.

(** ** Preview player: VideoPlayer.tsx, [handleSeek] and [handleEnded] *)

Module Seek.

(** The loop of [handleSeek]: the first block, from index [i] on, in which
    the target time falls, with the time accumulated before it. *)
Fixpoint locate (target accumulatedTime : Q) (i : nat)
    (blocks : list TimelineBlock) : option (nat * TimelineBlock * Q) :=
  match blocks with
  | [] => None
  | block :: rest =>
      if JS.Qltb target (accumulatedTime + duration block) then
        Some (i, block, accumulatedTime)
      else locate target (accumulatedTime + duration block) (S i) rest
  end.

(** The timer [handleSeek] sets when it switches blocks: after 100 ms it
    writes [videoTime] to the element and [target] to the store. *)
Record timer : Type := mkTimer {
  t_videoTime : Q;
  t_target : Q
}.

Definition handleSeek (target : Q) (st : Player.state)
  : Player.state * option timer :=
  match Player.videoRef st with
  | None => (st, None)
  | Some v =>
      if Nat.eqb (List.length (Player.sortedBlocks st)) 0 then (st, None)
      else
        match locate target 0 0%nat (Player.sortedBlocks st) with
        | Some (i, block, accumulatedTime) =>
            let timeInBlock := target - accumulatedTime in
            let videoTime := startTime block + timeInBlock in
            if negb (Nat.eqb i (Player.currentBlockIndex st)) then
              (Player.mk (Player.videoRef st) i true
                 (Player.shouldAutoPlay st) (Player.store st),
               Some (mkTimer videoTime target))
            else
              (Player.mk
                 (Some (Player.mkVideo videoTime (Player.v_paused v)))
                 (Player.currentBlockIndex st) (Player.isTransitioning st)
                 (Player.shouldAutoPlay st)
                 (Store.setCurrentTime target (Player.store st)),
               None)
        | None =>
            (* seek to the end *)
            (Player.mk (Player.videoRef st) (Player.currentBlockIndex st)
               (Player.isTransitioning st) (Player.shouldAutoPlay st)
               (Store.setCurrentTime
                  (Store.reduce_duration (Player.sortedBlocks st))
                  (Player.store st)),
             None)
        end
  end.

(** The timer of [handleSeek] firing. *)
Definition timer_fires (t : timer) (st : Player.state) : Player.state :=
  match Player.videoRef st with
  | Some v =>
      Player.mk (Some (Player.mkVideo (t_videoTime t) (Player.v_paused v)))
        (Player.currentBlockIndex st) (Player.isTransitioning st)
        (Player.shouldAutoPlay st)
        (Store.setCurrentTime (t_target t) (Player.store st))
  | None => st
  end.

Definition handleEnded (st : Player.state) : Player.state :=
  if Nat.ltb (Player.currentBlockIndex st)
             (List.length (Player.sortedBlocks st) - 1) then
    Player.mk (Player.videoRef st) (S (Player.currentBlockIndex st)) true
      (Player.shouldAutoPlay st) (Player.store st)
  else
    Player.mk (Player.videoRef st) 0%nat true true
      (Store.setCurrentTime 0 (Player.store st)).

(** The effect that follows [playback.activeBlockId]. *)
Definition follow_active_block (st : Player.state) : Player.state :=
  match activeBlockId (Store.playback (Player.store st)) with
  | Some i =>
      if negb (Keys.truthy (Some i))
         || Nat.eqb (List.length (Player.sortedBlocks st)) 0
         || Player.isTransitioning st
      then st
      else
        match BlockClick.findIndex i (Player.sortedBlocks st) with
        | Some blockIndex =>
            if negb (Nat.eqb blockIndex (Player.currentBlockIndex st)) then
              Player.mk (Player.videoRef st) blockIndex
                (Player.isTransitioning st) (Player.shouldAutoPlay st)
                (Player.store st)
            else st
        | None => st
        end
  | None => st
  end.

(** [masterVolume * clipVolume], capped at 1: the volume the preview gives
    the element for a master volume and a clip volume in percent. *)
Definition finalVolume (masterPercent clipPercent : Q) : Q :=
  Qmin ((masterPercent / 100) * (clipPercent / 100)) 1.

End Seek.

(** ** Clip updates: videoStore.ts, [updateClip], and AudioControls.tsx *)

(** [Partial<VideoClip>]: every field may be absent; the optional
    [thumbnailUrl] may be present and undefined. *)
Record ClipUpdates : Type := mkClipUpdates {
  cu_id : option string;
  cu_file : option string;
  cu_metadata : option VideoMetadata;
  cu_startTime : option Q;
  cu_endTime : option Q;
  cu_audioSettings : option AudioSettings;
  cu_thumbnailUrl : option (option string)
}.

Module Clips.

(** [{ ...c, ...updates }] *)
Definition spread (c : VideoClip) (u : ClipUpdates) : VideoClip :=
  mkClip
    (match cu_id u with Some v => v | None => clip_id c end)
    (match cu_file u with Some v => v | None => file c end)
    (match cu_metadata u with Some v => v | None => metadata c end)
    (match cu_startTime u with Some v => v | None => clip_startTime c end)
    (match cu_endTime u with Some v => v | None => clip_endTime c end)
    (match cu_audioSettings u with Some v => v | None => audioSettings c end)
    (match cu_thumbnailUrl u with Some v => v | None => thumbnailUrl c end).

Definition updateClip (cid : string) (updates : ClipUpdates) (s : Store.t)
  : Store.t :=
  Store.mk
    (map (fun c => if String.eqb (clip_id c) cid then spread c updates else c)
         (Store.clips s))
    (Store.timelineBlocks s) (Store.playback s) (Store.processingQueue s).

(** [{ audioSettings: ... }] *)
Definition audio_update (a : AudioSettings) : ClipUpdates :=
  mkClipUpdates None None None None None (Some a) None.

(** [handleVolumeChange] of the audio controls rendered for [clip];
    [value] is the slider's value read by [parseInt]. *)
Definition handleVolumeChange (clip : VideoClip) (value : Z) (s : Store.t)
  : Store.t :=
  updateClip (clip_id clip)
    (audio_update (mkAudio (inject_Z value) (muted (audioSettings clip)))) s.

(** [handleMuteToggle] of the audio controls rendered for [clip]. *)
Definition handleMuteToggle (clip : VideoClip) (s : Store.t) : Store.t :=
  updateClip (clip_id clip)
    (audio_update
       (mkAudio (volume (audioSettings clip))
                (negb (muted (audioSettings clip))))) s.

End Clips.

(** ** Reordering: Timeline.tsx, [handleDragEnd] *)

Module Reorder.

(** [.map((block, index) => ({ ...block, order: index }))], from [index]
    on. *)
Fixpoint reindex_from (index : nat) (blocks : list TimelineBlock)
  : list TimelineBlock :=
  match blocks with
  | [] => []
  | block :: rest =>
      mkBlock (id block) (clipId block) (inject_Z (Z.of_nat index))
              (startTime block) (endTime block) (duration block)
      :: reindex_from (S index) rest
  end.

Definition reindex (blocks : list TimelineBlock) : list TimelineBlock :=
  reindex_from 0 blocks.

(** [findIndex] as the number JavaScript returns: -1 when absent. *)
Definition findIndexZ (blockId : string) (blocks : list TimelineBlock) : Z :=
  match BlockClick.findIndex blockId blocks with
  | Some i => Z.of_nat i
  | None => (-1)%Z
  end.

Section WithArrayMove.

(** [arrayMove] of @dnd-kit/sortable, which is not part of the sources. *)
Variable arrayMove : list TimelineBlock -> Z -> Z -> list TimelineBlock.

(** [handleDragEnd]; [over] is absent when the block is dropped outside. *)
Definition handleDragEnd (active : string) (over : option string)
    (s : Store.t) : Store.t :=
  match over with
  | Some overId =>
      if negb (String.eqb active overId) then
        let oldIndex := findIndexZ active (Store.timelineBlocks s) in
        let newIndex := findIndexZ overId (Store.timelineBlocks s) in
        let reorderedBlocks :=
          reindex (arrayMove (Store.timelineBlocks s) oldIndex newIndex) in
        Store.updateBlockOrder reorderedBlocks s
      else s
  | None => s
  end.

End WithArrayMove.

(** The blocks carry the orders [from], [from + 1], ... in list order. *)
Fixpoint ordered_from (from : nat) (blocks : list TimelineBlock) : Prop :=
  match blocks with
  | [] => True
  | b :: rest =>
      order b = inject_Z (Z.of_nat from) /\ ordered_from (S from) rest
  end.

End Reorder.

(** ** Upload: fileValidator.ts and FileUpload.tsx, [handleFiles] *)

Module Upload.

Definition MAX_FILE_SIZE : Z := 1024 * 1024 * 1024.
Definition WARNING_FILE_SIZE : Z := 500 * 1024 * 1024.
Definition SUPPORTED_FORMATS : list string :=
  ["video/mp4"; "video/webm"; "video/quicktime"]%string.

Record ValidationResult : Type := mkValidation {
  valid : bool;
  error : option string;
  warning : option string
}.

(** [codecMap[mimeType] || null], for the MIME types [validateVideoFile]
    lets through and every other string that is not a property every object
    has. *)
Definition detectCodec (mimeType : string) : option string :=
  if String.eqb mimeType "video/mp4" then Some "avc1.42E01E"%string
  else if String.eqb mimeType "video/webm" then Some "vp8"%string
  else if String.eqb mimeType "video/quicktime" then Some "avc1.42E01E"%string
  else None.

(** The answer of [VideoDecoder.isConfigSupported]: the call throws, or it
    returns an object whose [supported] field may be undefined. *)
Inductive decoder_answer : Type :=
| DecoderThrows
| DecoderSays (supported : option bool).

(** What the browser tells [probeVideoCodec]: whether the element loaded
    the file's metadata, and the decoder's answer. *)
Record probe_env : Type := mkProbe {
  pe_loads : bool;
  pe_decoder : decoder_answer
}.

Record probe_result : Type := mkProbeResult {
  supported : bool;
  codec : option string
}.

Definition probeVideoCodec (type : string) (env : probe_env) : probe_result :=
  if pe_loads env then
    match detectCodec type with
    | None => mkProbeResult false None
    | Some c =>
        match pe_decoder env with
        | DecoderSays (Some flag) => mkProbeResult flag (Some c)
        | DecoderSays None => mkProbeResult false (Some c)
        | DecoderThrows => mkProbeResult false None
        end
    end
  else mkProbeResult false None.

(** What the browser tells [extractVideoMetadata]. *)
Inductive meta_env : Type :=
| MetaTimeout
| MetaLoadError
| MetaLoaded (videoDuration : num) (sought : option num)
             (videoWidth videoHeight : Q).

Definition isFinite (x : num) : bool :=
  match x with Fin _ => true | _ => false end.

(** [extractVideoMetadata]: the message of the error it rejects with, or
    the metadata it resolves with. *)
Definition extractVideoMetadata (env : meta_env) : string + VideoMetadata :=
  match env with
  | MetaTimeout => inl "Timeout loading video metadata"%string
  | MetaLoadError => inl "Failed to load video metadata"%string
  | MetaLoaded videoDuration sought videoWidth videoHeight =>
      let d :=
        if isFinite videoDuration then videoDuration
        else match sought with
             | Some currentTime => currentTime
             | None => videoDuration
             end in
      match d with
      | Fin q =>
          if Qle_bool q 0 then inl "Invalid video duration"%string
          else inr (mkMetadata q videoWidth videoHeight "unknown" 30 None)
      | _ => inl "Invalid video duration"%string
      end
  end.

(** One entry of the [FileList], with what the browser delivers for it;
    [f_clipKey] and [f_blockKey] stand for the timestamp, random part and
    index that make up the two ids. *)
Record incoming : Type := mkIncoming {
  f_name : string;
  f_size : Z;
  f_type : string;
  f_meta : meta_env;
  f_probe : probe_env;
  f_clipKey : string;
  f_blockKey : string
}.

(** Component and store state [handleFiles] works on. *)
Record state : Type := mk {
  store : Store.t;
  toasts : list Panel.toast;
  isProcessing : bool
}.

Definition toast (t : Panel.toast) (st : state) : state :=
  mk (store st) (toasts st ++ [t]) (isProcessing st).

Section WithFormat.

(** [formatBytes], which goes through floating-point logarithms and
    [toFixed], and the printing of a number in a template string. *)
Variable formatBytes : Z -> string.
Variable show_number : Q -> string.

Definition validateVideoFile (size : Z) (type : string) : ValidationResult :=
  if Z.ltb MAX_FILE_SIZE size then
    mkValidation false
      (Some ("File size exceeds maximum limit of "
             ++ formatBytes MAX_FILE_SIZE ++ ". Selected file is "
             ++ formatBytes size ++ ".")%string)
      None
  else if negb (existsb (String.eqb type) SUPPORTED_FORMATS) then
    mkValidation false
      (Some ("Unsupported file format: " ++ type
             ++ ". Supported formats: MP4, WebM, QuickTime.")%string)
      None
  else if Z.ltb WARNING_FILE_SIZE size then
    mkValidation true None
      (Some ("File size is " ++ formatBytes size
             ++ ". Large files may cause browser instability. Recommended: under 500MB.")%string)
  else mkValidation true None None.

(** The clip and the block [handleFiles] creates for a file with the
    metadata [md]. *)
Definition new_clip (f : incoming) (md : VideoMetadata) : VideoClip :=
  mkClip ("clip-" ++ f_clipKey f) (f_name f) md 0 (md_duration md)
         (mkAudio 100 false) None.

Definition new_block (f : incoming) (clip : VideoClip) (s : Store.t)
  : TimelineBlock :=
  let existingBlocks := Store.timelineBlocks s in
  let order := inject_Z (Z.of_nat (List.length existingBlocks)) in
  mkBlock ("block-" ++ f_blockKey f) (clip_id clip) order
          (clip_startTime clip) (clip_endTime clip)
          (clip_endTime clip - clip_startTime clip).

(** The state after the optional warning toast. *)
Definition warned (f : incoming) (st : state) : state :=
  match warning (validateVideoFile (f_size f) (f_type f)) with
  | Some w =>
      if String.eqb w EmptyString then st else toast (Panel.ToastPlain w) st
  | None => st
  end.

(** The body of the loop of [handleFiles] for one file.  The thumbnail is
    generated in the background and stored later, by [updateClip]; it is not
    part of this step. *)
Definition handleFile (f : incoming) (st : state) : state :=
  let validation := validateVideoFile (f_size f) (f_type f) in
  if negb (valid validation) then
    toast (Panel.ToastError
             (match error validation with
              | Some e => if String.eqb e EmptyString then "Invalid file" else e
              | None => "Invalid file"
              end)) st
  else
    let st1 := warned f st in
    match extractVideoMetadata (f_meta f) with
    | inl errorMessage =>
        toast (Panel.ToastError
                 ("Failed to process " ++ f_name f ++ ": " ++ errorMessage)) st1
    | inr md =>
        if Qle_bool (md_duration md) 0 then
          toast (Panel.ToastError
                   ("Invalid video duration in " ++ f_name f ++ ". Duration: "
                    ++ show_number (md_duration md))) st1
        else if negb (Qle_bool (md_duration md) 3600) then
          toast (Panel.ToastError
                   ("Video too long: " ++ f_name f
                    ++ ". Maximum duration is 1 hour.")) st1
        else
          let codecCheck := probeVideoCodec (f_type f) (f_probe f) in
          if negb (supported codecCheck) then
            toast (Panel.ToastError ("Unsupported codec in " ++ f_name f)) st1
          else
            let md' :=
              match codec codecCheck with
              | Some c =>
                  if String.eqb c EmptyString then md
                  else mkMetadata (md_duration md) (md_width md) (md_height md)
                                  c (md_frameRate md) (md_bitrate md)
              | None => md
              end in
            let clip := new_clip f md' in
            let s1 := Store.addClip clip (store st1) in
            let s2 := Store.addBlockToTimeline (new_block f clip s1) s1 in
            toast (Panel.ToastSuccess
                     ("Added " ++ f_name f ++ " (" ++ formatBytes (f_size f)
                      ++ ")"))
                  (mk s2 (toasts st1) (isProcessing st1))
    end.

(** [handleFiles]; [None] is the null file list. *)
Definition handleFiles (files : option (list incoming)) (st : state) : state :=
  match files with
  | None | Some [] => st
  | Some fs =>
      let st1 := mk (store st) (toasts st) true in
      let st2 := fold_left (fun acc f => handleFile f acc) fs st1 in
      mk (store st2) (toasts st2) false
  end.

End WithFormat.

(** A file goes through every check of [handleFiles]. *)
Definition accepted (f : incoming) : bool :=
  Z.leb (f_size f) MAX_FILE_SIZE
  && existsb (String.eqb (f_type f)) SUPPORTED_FORMATS
  && match extractVideoMetadata (f_meta f) with
     | inr md => Qle_bool (md_duration md) 3600
     | inl _ => false
     end
  && supported (probeVideoCodec (f_type f) (f_probe f)).

End Upload.

(** ** Saving: downloadHelper.ts, [writeToFileHandle] *)

Module Download.

Section WithBytes.

Variable byte : Type.

(** The loop of [writeToFileHandle] (and of
    [downloadWithFileSystemAccess]): what has been written to the file, the
    count of bytes written, and the arguments of [onProgress], for the chunks
    the blob's stream delivers. *)
Fixpoint write_loop (totalSize : Q) (chunks : list (list byte))
    (file : list byte) (written : Q) : list byte * Q * list num :=
  match chunks with
  | [] => (file, written, [])
  | value :: rest =>
      let file' := file ++ value in
      let written' := written + inject_Z (Z.of_nat (List.length value)) in
      let '(final, total, reports) := write_loop totalSize rest file' written' in
      (final, total, JS.scale (JS.div written' totalSize) 100 :: reports)
  end.

Definition writeToFileHandle (totalSize : Q) (chunks : list (list byte))
  : list byte * Q * list num :=
  write_loop totalSize chunks [] 0.

End WithBytes.

End Download.

(** ** Time display: fileValidator.ts, [formatDuration] *)

Module Display.

(** The minutes and seconds [formatDuration] prints, [None] standing for
    the fixed text "0:00" of the invalid values. *)
Definition duration_parts (seconds : num) : option (Z * Z) :=
  match seconds with
  | Fin q =>
      if JS.Qltb q 0 then None
      else
        let mins := Qfloor (q / 60) in
        (* [seconds % 60] for a dividend that is not negative *)
        let remainder := q - 60 * inject_Z (Qfloor (q / 60)) in
        let secs := Qfloor remainder in
        Some (mins, secs)
  | _ => None
  end.

(** A whole number in a template string. *)
Definition show_Z (z : Z) : string := NilZero.string_of_int (Z.to_int z).

(** [s.padStart(2, '0')] *)
Definition padStart2 (s : string) : string :=
  match String.length s with
  | 0%nat => "00"
  | 1%nat => "0" ++ s
  | _ => s
  end.

Definition formatDuration (seconds : num) : string :=
  match duration_parts seconds with
  | None => "0:00"
  | Some (mins, secs) => show_Z mins ++ ":" ++ padStart2 (show_Z secs)
  end.

End Display.

(** ** The store's actions on clips, timeline and playback, as data *)

Module Session.

Inductive action : Type :=
| AddClip (clip : VideoClip)
| RemoveClip (clipId : string)
| UpdateClip (clipId : string) (updates : ClipUpdates)
| Timeline (a : Store.block_action)
| SetPlaying (flag : bool)
| SetCurrentTime (time : Q)
| SetActiveBlock (blockId : option string).

Definition apply (s : Store.t) (a : action) : Store.t :=
  match a with
  | AddClip c => Store.addClip c s
  | RemoveClip i => Store.removeClip i s
  | UpdateClip i u => Clips.updateClip i u s
  | Timeline b => Store.apply_block_action b s
  | SetPlaying f => Store.setPlaying f s
  | SetCurrentTime t => Store.setCurrentTime t s
  | SetActiveBlock i => Store.setActiveBlock i s
  end.

Definition run (s : Store.t) (actions : list action) : Store.t :=
  fold_left apply actions s.

Definition removes_clip (a : action) : bool :=
  match a with RemoveClip _ => true | _ => false end.

End Session.

(** An [arrayMove] for the examples: the element at [from] is taken out and
    put back at [to]. *)
Definition example_arrayMove (blocks : list TimelineBlock) (from to : Z)
  : list TimelineBlock :=
  match nth_error blocks (Z.to_nat from) with
  | Some b =>
      let others :=
        firstn (Z.to_nat from) blocks ++ skipn (S (Z.to_nat from)) blocks in
      firstn (Z.to_nat to) others ++ b :: skipn (Z.to_nat to) others
  | None => blocks
  end.

(** The durations of [blocks] added to [acc], as the loops of the player
    add them. *)
Definition prefix_time (acc : Q) (blocks : list TimelineBlock) : Q :=
  fold_left (fun sum b => sum + duration b) blocks acc.

(** ** Examples: the inputs at which the properties below are evaluated *)

Definition example_metadata : VideoMetadata :=
  mkMetadata 10 640 480 "h264" 30 None.

Definition clip_one : VideoClip :=
  mkClip "c1" "one.mp4" example_metadata 0 10 (mkAudio 100 false) None.

Definition clip_two : VideoClip :=
  mkClip "c2" "two.mp4" example_metadata 0 10 (mkAudio 50 false) None.

Definition block_A : TimelineBlock := mkBlock "A" "c1" 0 0 10 10.

Definition block_B : TimelineBlock := mkBlock "B" "c2" 1 0 10 10.

(** Two ten-second clips, one block each, block B selected. *)
Definition two_block_store : Store.t :=
  Store.mk [clip_one; clip_two] [block_A; block_B]
           (mkPlayback true 0 20 (Some "B"%string)) [].

(** One five-second block of the first clip. *)
Definition block_five : TimelineBlock := mkBlock "F" "c1" 0 0 5 5.

Definition one_block_store : Store.t :=
  Store.mk [clip_one] [block_five] (mkPlayback false 0 5 None) [].

Definition plain_env : Panel.env := Panel.mkEnv false true "video.webm".

(** The export run of [one_block_store], suspended in its capture loop:
    the first metadata arrived, the block's clip loaded, the seek completed
    and playback started. *)
Definition capturing_state : Run.state :=
  fst (Run.run [block_five] [clip_one] (mkSettings webm medium)
         [Run.LoadedMetadata; Run.LoadedMetadata; Run.Seeked; Run.PlayStarted]).

(** A tick of the preview player 4.96 s into the five-second block. *)
Definition preview_near_end : Player.state :=
  Player.mk (Some (Player.mkVideo 4.96 false)) 0%nat false false one_block_store.

(** The preview player 5 s into block B of [two_block_store]: the tick
    stores the cumulative timeline time 10 + 5 as [playback.currentTime]. *)
Definition playing_block_B : Player.state :=
  Player.mk (Some (Player.mkVideo 5 false)) 1%nat false false two_block_store.

Definition store_at_15 : Store.t :=
  Player.store (Player.handleTimeUpdate playing_block_B).

(** An MP4 export of [one_block_store]: the capture stage plays the block
    through and the recorder stops; FFmpeg then reports the ratio 0.5 and,
    after it, the ratio 0.2. *)
Definition regressing_transcode : list Panel.event :=
  map Panel.RunEvent
    ([Run.LoadedMetadata] ++ Run.play_block [2] 5
     ++ [Run.DataAvailable 7; Run.RecorderStopped])
  ++ [Panel.TranscodeProgress (FFmpeg.mkSample (Some (Fin 0.5)) None);
      Panel.TranscodeProgress (FFmpeg.mkSample (Some (Fin 0.2)) None)].

Definition transcoding_state : Panel.state :=
  Panel.mk (Panel.mkUi true (Fin 65) [Fin 0; Fin 65] []) Panel.Transcoding None.

(** A WebM export of [one_block_store] up to its first captured frame. *)
Definition before_cancel : Panel.state :=
  Panel.exec one_block_store (mkSettings webm medium) plain_env
    (Panel.handleExport one_block_store (mkSettings webm medium) plain_env
       Panel.initial_ui)
    (map Panel.RunEvent
       [Run.LoadedMetadata; Run.LoadedMetadata; Run.Seeked; Run.PlayStarted;
        Run.AnimationFrame 1 false]).

Definition after_cancel : Panel.state :=
  Panel.step one_block_store (mkSettings webm medium) plain_env
    before_cancel Panel.CancelClicked.

(** What the browser delivers after the click: two more animation frames,
    the recorder's data and stop events, the end of the download. *)
Definition later_events : list Panel.event :=
  map Panel.RunEvent
    [Run.AnimationFrame 2 false; Run.AnimationFrame 5 false;
     Run.DataAvailable 7; Run.RecorderStopped]
  ++ [Panel.DownloadDone].

Definition long_after_cancel : Panel.state :=
  Panel.exec one_block_store (mkSettings webm medium) plain_env
    after_cancel later_events.

(** Two blocks of the same clip, the second being loaded. *)
Definition second_block_loading : list Run.event :=
  [Run.LoadedMetadata] ++ Run.play_block [1; 2] 5 ++ [Run.LoadedMetadata].

(** A timeline whose first block names a clip that is not in the clips
    list. *)
Definition block_gone : TimelineBlock := mkBlock "X" "gone" 0 0 5 5.

(** A clip-less block between two blocks of the first clip. *)
Definition block_lost : TimelineBlock := mkBlock "L" "gone" 1 0 3 3.


(** One block of the first clip played through, a chunk of seven bytes
    delivered, and the recorder stopped. *)
Definition finished_run : list Run.event :=
  [Run.LoadedMetadata] ++ Run.play_block [1; 2] 5
  ++ [Run.DataAvailable 7; Run.RecorderStopped].

(** The second of two blocks, of the quieter clip, being captured. *)
Definition second_block_capturing : list Run.event :=
  [Run.LoadedMetadata] ++ Run.play_block [1] 10
  ++ [Run.LoadedMetadata; Run.Seeked; Run.PlayStarted;
      Run.AnimationFrame 1 false].

(** Two consistent blocks of two clips. *)
Definition block_A5 : TimelineBlock := mkBlock "A" "c1" 0 0 5 5.
Definition block_B2 : TimelineBlock := mkBlock "B" "c2" 1 10 12 2.

Definition seeking_player : Player.state :=
  Player.mk (Some (Player.mkVideo 1 false)) 0%nat false false two_block_store.

(** A WebM file of 12.5 s that the browser loads and can decode, and a
    text file. *)
Definition good_file : Upload.incoming :=
  Upload.mkIncoming "holiday.webm" 2048 "video/webm"
    (Upload.MetaLoaded PInf (Some (Fin 12.5)) 640 480)
    (Upload.mkProbe true (Upload.DecoderSays (Some true)))
    "1-abc-0" "2-def-0".

Definition text_file : Upload.incoming :=
  Upload.mkIncoming "notes.txt" 10 "text/plain"
    Upload.MetaLoadError (Upload.mkProbe false Upload.DecoderThrows)
    "1-abc-1" "2-def-1".

Definition empty_upload : Upload.state := Upload.mk Store.initial [] false.


(** * Properties *)

(** *** Comparisons *)

Lemma Qgeb_true (a b : Q) : JS.Qgeb a b = true <-> b <= a.
Proof. unfold JS.Qgeb. apply Qle_bool_iff. Qed.

Lemma Qgeb_false (a b : Q) : JS.Qgeb a b = false <-> a < b.
Proof.
  unfold JS.Qgeb. split; intro H.
  - apply Qnot_le_lt. intro Hle. apply Qle_bool_iff in Hle. congruence.
  - destruct (Qle_bool b a) eqn:E; [|reflexivity].
    apply Qle_bool_iff in E. lra.
Qed.

Lemma Qgtb_true (a b : Q) : JS.Qgtb a b = true <-> b < a.
Proof.
  unfold JS.Qgtb. split; intro H.
  - apply Qnot_le_lt. intro Hle. apply Qle_bool_iff in Hle.
    rewrite Hle in H. discriminate.
  - destruct (Qle_bool a b) eqn:E; [|reflexivity].
    apply Qle_bool_iff in E. lra.
Qed.

Lemma Qgtb_false (a b : Q) : JS.Qgtb a b = false <-> a <= b.
Proof.
  unfold JS.Qgtb. rewrite negb_false_iff. apply Qle_bool_iff.
Qed.

(** *** Facts about the store *)

Lemma fold_duration_acc (blocks : list TimelineBlock) (acc : Q) :
  fold_left (fun sum b => sum + duration b) blocks acc
  == acc + Store.sum_durations blocks.
Proof.
  revert acc. induction blocks as [|b rest IH]; intro acc; simpl.
  - ring.
  - rewrite IH. ring.
Qed.

Lemma reduce_duration_sum (blocks : list TimelineBlock) :
  Store.reduce_duration blocks == Store.sum_durations blocks.
Proof.
  unfold Store.reduce_duration. rewrite fold_duration_acc. ring.
Qed.

(** C8. After each of the store's timeline-block actions
    ([addBlockToTimeline], [removeBlockFromTimeline], [updateBlockOrder],
    [updateBlock]) the stored [playback.totalDuration] is the sum of the
    [duration] field over the timeline blocks of the resulting state: it is
    the very value the [reduce] computes on the new list, and that value is
    the sum of the durations. *)
Theorem total_duration_after_block_action (a : Store.block_action) (s : Store.t) :
  let s' := Store.apply_block_action a s in
  totalDuration (Store.playback s')
    = Store.reduce_duration (Store.timelineBlocks s')
  /\ totalDuration (Store.playback s')
     == Store.sum_durations (Store.timelineBlocks s').
Proof.
  destruct a; simpl; (split; [reflexivity | apply reduce_duration_sum]).
Qed.

(** C9. [removeClip clipId] keeps exactly the clips whose id differs from
    [clipId] and exactly the blocks whose [clipId] differs from it, in their
    order, and leaves the playback state (with its [totalDuration], which is
    not recomputed) and the processing queue as they were. *)
Theorem removeClip_frame (cid : string) (s : Store.t) :
  let s' := Store.removeClip cid s in
  (forall c, In c (Store.clips s') <-> In c (Store.clips s) /\ clip_id c <> cid)
  /\ (forall b, In b (Store.timelineBlocks s')
                <-> In b (Store.timelineBlocks s) /\ clipId b <> cid)
  /\ Store.clips s'
     = filter (fun c => negb (String.eqb (clip_id c) cid)) (Store.clips s)
  /\ Store.timelineBlocks s'
     = filter (fun b => negb (String.eqb (clipId b) cid)) (Store.timelineBlocks s)
  /\ Store.playback s' = Store.playback s
  /\ Store.processingQueue s' = Store.processingQueue s.
Proof.
  simpl. repeat split; try reflexivity.
  - apply filter_In in H. tauto.
  - apply filter_In in H. destruct H as [_ H].
    apply negb_true_iff in H. apply String.eqb_neq in H. exact H.
  - intros [Hin Hne]. apply filter_In. split; [exact Hin|].
    apply negb_true_iff. apply String.eqb_neq. exact Hne.
  - apply filter_In in H. tauto.
  - apply filter_In in H. destruct H as [_ H].
    apply negb_true_iff in H. apply String.eqb_neq in H. exact H.
  - intros [Hin Hne]. apply filter_In. split; [exact Hin|].
    apply negb_true_iff. apply String.eqb_neq. exact Hne.
Qed.

(** *** The export panel *)

Lemma panel_finished_step (store : Store.t) (settings : ExportSettings)
    (environment : Panel.env) (e : Panel.event) (st : Panel.state) :
  Panel.ph st = Panel.Finished ->
  Panel.run st = None ->
  Panel.ph (Panel.step store settings environment st e) = Panel.Finished
  /\ Panel.run (Panel.step store settings environment st e) = None.
Proof.
  intros Hph Hrun.
  destruct e; simpl; rewrite ?Hph, ?Hrun; auto.
  destruct (Panel.isExporting (Panel.u st)); simpl; auto.
Qed.

Lemma panel_finished_exec (store : Store.t) (settings : ExportSettings)
    (environment : Panel.env) (events : list Panel.event) (st : Panel.state) :
  Panel.ph st = Panel.Finished ->
  Panel.run st = None ->
  let st' := Panel.exec store settings environment st events in
  Panel.ph st' = Panel.Finished /\ Panel.run st' = None.
Proof.
  revert st. induction events as [|e rest IH]; intros st Hph Hrun; simpl.
  - split; assumption.
  - destruct (panel_finished_step store settings environment e st Hph Hrun)
      as [H1 H2].
    apply IH; assumption.
Qed.

(** C4. When the timeline is empty, [handleExport] reports the error
    "No clips to export" at once and returns: the component state is
    otherwise untouched ([isExporting] and the progress are not set), no file
    handle is requested, no run of [processAndMergeSegments] is created (so
    no recorder exists, nothing is played or captured), and no later event
    changes that. *)
Theorem export_of_empty_timeline (store : Store.t) (settings : ExportSettings)
    (environment : Panel.env) (x : Panel.ui) :
  Store.timelineBlocks store = [] ->
  let st := Panel.handleExport store settings environment x in
  Panel.u st = Panel.add_toast (Panel.ToastError "No clips to export") x
  /\ Panel.isExporting (Panel.u st) = Panel.isExporting x
  /\ Panel.progress_calls (Panel.u st) = Panel.progress_calls x
  /\ Panel.ph st = Panel.Finished
  /\ Panel.run st = None
  /\ forall events,
       let st' := Panel.exec store settings environment st events in
       Panel.ph st' = Panel.Finished /\ Panel.run st' = None.
Proof.
  intros Hempty. unfold Panel.handleExport, Panel.hasClips.
  rewrite Hempty. simpl. repeat split; try reflexivity;
    apply (panel_finished_exec store settings environment events); reflexivity.
Qed.

Lemma export_of_empty_timeline_witness :
  Store.timelineBlocks Store.initial = []
  /\ Panel.run (Panel.handleExport Store.initial (mkSettings webm medium)
                  plain_env Panel.initial_ui) = None.
Proof.
  split; [reflexivity|].
  apply (export_of_empty_timeline Store.initial (mkSettings webm medium)
           plain_env Panel.initial_ui).
  reflexivity.
Defined.

(** *** Segment boundaries *)

(** C2, as stated, fails in the export run: the block ends at 5 s, the
    animation frame reads [currentTime = 4.97], which is within 0.05 s of the
    end, and the video has not ended; [captureLoop] does not stop playback and
    does not report the boundary, it draws the frame and schedules itself
    again.  The same happens for every positive tolerance: a frame read half
    a tolerance before the end is drawn like any other. *)
Lemma capture_loop_has_no_tolerance :
  (let next := Run.step [block_five] [clip_one] (mkSettings webm medium)
                 capturing_state (Run.AnimationFrame 4.97 false) in
   Run.ph capturing_state = Run.Capturing
   /\ nth_error [block_five] (Run.currentBlockIndex capturing_state)
      = Some block_five
   /\ endTime block_five - 0.05 <= 4.97
   /\ Run.v_paused (Run.vid (fst next)) = false
   /\ Run.ph (fst next) = Run.Capturing
   /\ Run.currentBlockIndex (fst next) = 0%nat
   /\ snd next = []
   /\ Run.frames (fst next) = [(0%nat, 4.97)])
  /\ forall eps : Q,
      0 < eps ->
      let t := endTime block_five - eps / 2 in
      let next := Run.step [block_five] [clip_one] (mkSettings webm medium)
                    capturing_state (Run.AnimationFrame t false) in
      endTime block_five - eps <= t
      /\ Run.v_paused (Run.vid (fst next)) = false
      /\ Run.ph (fst next) = Run.Capturing
      /\ snd next = [].
Proof.
  split.
  - vm_compute. repeat split; try reflexivity. discriminate.
  - intros eps Heps t next.
    assert (Hlt : t < endTime block_five).
    { unfold t. assert (0 < eps / 2) by (apply Qlt_shift_div_l; lra). lra. }
    assert (Hle : endTime block_five - eps <= t).
    { unfold t. assert (0 < eps / 2) by (apply Qlt_shift_div_l; lra).
      assert (eps / 2 <= eps); [|lra].
      apply Qle_shift_div_r; lra. }
    split; [exact Hle|].
    unfold next, Run.step.
    change (Run.ph capturing_state) with Run.Capturing.
    unfold Run.captureLoop.
    change (nth_error [block_five] (Run.currentBlockIndex capturing_state))
      with (Some block_five).
    cbv beta iota.
    apply Qgeb_false in Hlt. rewrite Hlt.
    cbn [orb fst snd Run.vid Run.v_paused Run.ph].
    repeat split; reflexivity.
Qed.

Section ProcessNextBlock.

Variable blocks : list TimelineBlock.
Variable allClips : list VideoClip.

(** What the synchronous part of [processNextBlock] leaves untouched. *)
Lemma processNextBlock_from_frame (rest : list TimelineBlock) :
  forall (idx : nat) (s : Run.state),
    let s' := Run.processNextBlock_from allClips rest idx s in
    Run.audioSource s' = Run.audioSource s
    /\ Run.audioSourceCreations s' = Run.audioSourceCreations s
    /\ Run.processedDuration s' = Run.processedDuration s
    /\ Run.totalDuration s' = Run.totalDuration s
    /\ Run.frames s' = Run.frames s
    /\ Run.result s' = Run.result s
    /\ Run.chunks s' = Run.chunks s
    /\ Run.v_paused (Run.vid s') = Run.v_paused (Run.vid s)
    /\ (Run.ph s' = Run.AwaitMetadata \/ Run.ph s' = Run.Returned).
Proof.
  induction rest as [|block rest' IH]; intros idx s; simpl.
  - unfold Run.recorder_stop. simpl.
    destruct (Run.rec s); simpl; repeat split; auto.
  - destruct (Store.find_clip (clipId block) allClips) as [clip|].
    + simpl. repeat split; auto.
    + specialize (IH (S idx)
        (Run.mk (Run.ph s) (Run.vid s) (Run.audioSource s)
           (Run.audioSourceCreations s) (Run.rec s) (Run.videoBitsPerSecond s)
           (Run.chunks s) (Run.processedDuration s) (Run.totalDuration s)
           (Run.currentBlockIndex s) (Run.frames s)
           (Run.warnings s ++ [clipId block]) (Run.result s))).
      simpl in IH. exact IH.
Qed.

End ProcessNextBlock.

(** C2, amended.  In the preview player, on a [timeupdate] tick outside a
    transition, a [currentTime] at or above the block's [endTime] minus 0.05
    pauses the video at once, clears [isPlaying] and moves on to the next
    block (or back to the first).  In the export run no tolerance is applied:
    on an animation frame, [captureLoop] pauses the video and reports the
    block's end exactly when [currentTime >= endTime] or the video has ended,
    and otherwise draws the frame and continues. *)
Theorem boundary_detection
    (blocks : list TimelineBlock) (allClips : list VideoClip)
    (exportSettings : ExportSettings) :
  (forall (st : Player.state) (v : Player.video) (b : TimelineBlock),
      Player.videoRef st = Some v ->
      Player.isTransitioning st = false ->
      nth_error (Player.sortedBlocks st) (Player.currentBlockIndex st) = Some b ->
      endTime b - Player.tolerance <= Player.v_currentTime v ->
      let st' := Player.handleTimeUpdate st in
      Player.videoRef st' = Some (Player.mkVideo (Player.v_currentTime v) true)
      /\ isPlaying (Store.playback (Player.store st')) = false
      /\ Player.isTransitioning st' = true
      /\ Player.currentBlockIndex st'
         = (if Nat.ltb (Player.currentBlockIndex st)
                       (List.length (Player.sortedBlocks st) - 1)
            then S (Player.currentBlockIndex st) else 0%nat))
  /\ (forall (s : Run.state) (b : TimelineBlock) (t : Q) (ended : bool),
      Run.ph s = Run.Capturing ->
      nth_error blocks (Run.currentBlockIndex s) = Some b ->
      let next := Run.step blocks allClips exportSettings s
                    (Run.AnimationFrame t ended) in
      (endTime b <= t \/ ended = true ->
       Run.v_paused (Run.vid (fst next)) = true
       /\ Run.processedDuration (fst next)
          = Run.processedDuration s + (endTime b - startTime b)
       /\ Run.frames (fst next) = Run.frames s
       /\ snd next
          = [Run.capture_progress
               (Run.processedDuration s + (endTime b - startTime b))
               (Run.totalDuration s)])
      /\ (t < endTime b /\ ended = false ->
          Run.ph (fst next) = Run.Capturing
          /\ Run.v_paused (Run.vid (fst next)) = Run.v_paused (Run.vid s)
          /\ Run.currentBlockIndex (fst next) = Run.currentBlockIndex s
          /\ Run.frames (fst next)
             = Run.frames s ++ [(Run.currentBlockIndex s, t)]
          /\ snd next = [])).
Proof.
  split.
  - intros st v b Hv Htr Hnth Hge st'. subst st'.
    unfold Player.handleTimeUpdate. rewrite Hv, Htr, Hnth.
    assert (Hlen : Nat.eqb (List.length (Player.sortedBlocks st)) 0 = false).
    { destruct (Player.sortedBlocks st) as [|x l] eqn:E.
      - destruct (Player.currentBlockIndex st); discriminate.
      - reflexivity. }
    rewrite Hlen. simpl.
    apply Qgeb_true in Hge. rewrite Hge.
    destruct (Nat.ltb (Player.currentBlockIndex st)
                (List.length (Player.sortedBlocks st) - 1)); simpl;
      repeat split; reflexivity.
  - intros s b t ended Hph Hnth next. subst next.
    unfold Run.step. rewrite Hph. unfold Run.captureLoop. rewrite Hnth.
    split.
    + intros Hend.
      assert (Hc : JS.Qgeb t (endTime b) || ended = true).
      { destruct Hend as [Hle|He].
        - apply Qgeb_true in Hle. rewrite Hle. reflexivity.
        - rewrite He. apply orb_true_r. }
      rewrite Hc. unfold fst, snd.
      match goal with
      | |- context [Run.processNextBlock ?bl ?cl ?s1] =>
          pose proof (processNextBlock_from_frame cl
                        (skipn (Run.currentBlockIndex s1) bl)
                        (Run.currentBlockIndex s1) s1) as Hf
      end.
      simpl in Hf. unfold Run.processNextBlock. simpl.
      destruct Hf as (_ & _ & Hp & _ & Hfr & _ & _ & Hpa & _).
      rewrite Hp, Hfr, Hpa. repeat split; reflexivity.
    + intros [Hlt He].
      apply Qgeb_false in Hlt. rewrite Hlt, He. simpl.
      repeat split; reflexivity.
Qed.

Lemma boundary_detection_witness :
  (Player.isTransitioning preview_near_end = false
   /\ endTime block_five - Player.tolerance <= 4.96
   /\ Player.isTransitioning (Player.handleTimeUpdate preview_near_end) = true)
  /\ (Run.ph capturing_state = Run.Capturing
      /\ endTime block_five <= 5
      /\ Run.v_paused
           (Run.vid (fst (Run.step [block_five] [clip_one]
                            (mkSettings webm medium) capturing_state
                            (Run.AnimationFrame 5 false)))) = true).
Proof.
  split.
  - split; [reflexivity|]. split; [vm_compute; discriminate|].
    apply (proj1 (boundary_detection [] [] (mkSettings webm medium))
             preview_near_end (Player.mkVideo 4.96 false) block_five).
    + reflexivity.
    + reflexivity.
    + reflexivity.
    + vm_compute. discriminate.
  - split; [reflexivity|]. split; [vm_compute; discriminate|].
    apply (proj2 (boundary_detection [block_five] [clip_one]
                    (mkSettings webm medium))
             capturing_state block_five 5 false).
    + reflexivity.
    + reflexivity.
    + left. vm_compute. discriminate.
Defined.

(** *** Trim times *)

Lemma updateBlock_find (bid : string) (upd : BlockUpdates)
    (blocks : list TimelineBlock) (b : TimelineBlock) :
  u_id upd = None ->
  Store.find_block bid blocks = Some b ->
  Store.find_block bid
    (map (fun x => if String.eqb (id x) bid then Store.spread x upd else x) blocks)
  = Some (Store.spread b upd).
Proof.
  intros Hid. unfold Store.find_block.
  induction blocks as [|x rest IH]; simpl; [discriminate|].
  destruct (String.eqb (id x) bid) eqn:E.
  - intros H. injection H as <-.
    assert (Hsame : id (Store.spread x upd) = id x).
    { unfold Store.spread. simpl. rewrite Hid. reflexivity. }
    cbn [find]. rewrite Hsame, E. reflexivity.
  - simpl. rewrite E. exact IH.
Qed.

(** X14. Dragging a trim handle keeps [0 <= startTime < endTime <=
    sourceDuration] for the dragged block.  The start handle clamps the new
    start between 0 and the end minus 0.1; the end handle clamps the new end
    between the start plus 0.1 and the clip's duration (for which the start
    must lie at least 0.1 before the end of the source). *)
Lemma drag_keeps_invariant (block : TimelineBlock) (clip : VideoClip)
    (handle : Trim.TrimHandle) (ratios : list Q) (s : Store.t) :
  Trim.trim_invariant block (md_duration (metadata clip)) ->
  (handle = Trim.HEnd -> startTime block + 0.1 <= md_duration (metadata clip)) ->
  Store.find_block (id block) (Store.timelineBlocks s) = Some block ->
  exists b',
    Store.find_block (id block)
      (Store.timelineBlocks (snd (Trim.drag block clip handle ratios s)))
    = Some b'
    /\ Trim.trim_invariant b' (md_duration (metadata clip)).
Proof.
  intros (H0 & Hlt & Hle) Hgap Hfind.
  unfold Trim.drag.
  assert (Hinv : forall st,
             Trim.trimming st = Some handle ->
             0 <= Trim.temp_start st /\ Trim.temp_start st < Trim.temp_end st
             /\ Trim.temp_end st <= md_duration (metadata clip)
             /\ (handle = Trim.HEnd -> Trim.temp_start st = startTime block) ->
             let st' := fold_left
                          (fun st r => Trim.handleMouseMove block clip r st)
                          ratios st in
             Trim.trimming st' = Some handle
             /\ 0 <= Trim.temp_start st'
             /\ Trim.temp_start st' < Trim.temp_end st'
             /\ Trim.temp_end st' <= md_duration (metadata clip)).
  { induction ratios as [|r rest IH]; intros st Ht Hs; simpl.
    - tauto.
    - destruct Hs as (Hs0 & Hs1 & Hs2 & Hs3).
      apply IH.
      + unfold Trim.handleMouseMove. rewrite Ht. destruct handle; reflexivity.
      + unfold Trim.handleMouseMove. rewrite Ht.
        destruct handle; simpl.
        * split; [apply Q.le_max_l|].
          split; [|split; [exact Hs2|discriminate]].
          apply Q.max_lub_lt; [lra|].
          eapply Qle_lt_trans; [apply Q.le_min_r|lra].
        * split; [exact Hs0|].
          specialize (Hgap eq_refl). specialize (Hs3 eq_refl).
          split; [|split; [|intros _; exact Hs3]].
          -- eapply Qlt_le_trans; [|apply Q.le_max_l]. lra.
          -- apply Q.max_lub; [rewrite Hs3; lra|apply Q.le_min_r]. }
  specialize (Hinv (Trim.handleTrimStart block handle) eq_refl).
  simpl in Hinv.
  destruct Hinv as (Ht & Hs0 & Hs1 & Hs2).
  { repeat split; auto. }
  unfold Trim.handleMouseUp. rewrite Ht. simpl.
  eexists. split.
  - apply updateBlock_find; [reflexivity|exact Hfind].
  - unfold Trim.trim_invariant, Store.spread. simpl.
    repeat split; assumption.
Qed.

Lemma drag_keeps_invariant_witness :
  Trim.trim_invariant block_five (md_duration (metadata clip_one))
  /\ exists b',
      Store.find_block "F"
        (Store.timelineBlocks
           (snd (Trim.drag block_five clip_one Trim.HEnd [0.5; 3] one_block_store)))
      = Some b'
      /\ Trim.trim_invariant b' (md_duration (metadata clip_one)).
Proof.
  assert (H : Trim.trim_invariant block_five (md_duration (metadata clip_one))).
  { unfold Trim.trim_invariant. simpl. repeat split; vm_compute; congruence. }
  split; [exact H|].
  apply (drag_keeps_invariant block_five clip_one Trim.HEnd [0.5; 3]
           one_block_store H).
  - intros _. vm_compute. discriminate.
  - reflexivity.
Defined.

(** C7 fails for the out-point key.  Both blocks satisfy the invariant and
    block B (source duration 10 s) is active; the player, 5 s into B, has
    stored the timeline time 15 as [playback.currentTime]; [KeyO] writes that
    value as B's [endTime], which then exceeds the source duration. *)
Lemma keyO_breaks_trim_invariant :
  currentTime (Store.playback store_at_15) == 15
  /\ Store.timelineBlocks store_at_15 = [block_A; block_B]
  /\ Trim.trim_invariant block_A (md_duration (metadata clip_one))
  /\ Trim.trim_invariant block_B (md_duration (metadata clip_two))
  /\ exists b',
      Store.find_block "B" (Store.timelineBlocks (Keys.keyO store_at_15))
      = Some b'
      /\ endTime b' == 15
      /\ md_duration (metadata clip_two) < endTime b'
      /\ ~ Trim.trim_invariant b' (md_duration (metadata clip_two)).
Proof.
  split; [reflexivity|]. split; [reflexivity|].
  split; [unfold Trim.trim_invariant; simpl; repeat split; vm_compute; congruence|].
  split; [unfold Trim.trim_invariant; simpl; repeat split; vm_compute; congruence|].
  eexists. split; [vm_compute; reflexivity|].
  split; [reflexivity|]. split; [reflexivity|].
  unfold Trim.trim_invariant. simpl. intros (_ & _ & H).
  vm_compute in H. apply H. reflexivity.
Qed.

(** *** Progress reported by the panel *)

(** C6, as stated, fails: when the raw transcode sample regresses from 0.5
    to 0.2 the panel reports 83 and then 72. *)
Lemma reported_progress_can_regress :
  let st := Panel.exec one_block_store (mkSettings mp4 medium) plain_env
              (Panel.handleExport one_block_store (mkSettings mp4 medium)
                 plain_env Panel.initial_ui)
              regressing_transcode in
  Panel.progress_calls (Panel.u st)
  = [Fin 0; Fin 3; Fin 57; Fin 65; Fin 83; Fin 72]
  /\ nondecreasing (Panel.progress_calls (Panel.u st)) = false.
Proof.
  vm_compute. split; reflexivity.
Qed.

Lemma estimate_from_time_finite (t : option num) :
  exists x, FFmpeg.estimate_from_time t = Fin x.
Proof.
  unfold FFmpeg.estimate_from_time.
  destruct t as [[q| | |]|]; simpl; eauto.
  destruct (negb (Qle_bool q 0)); eauto.
Qed.

Lemma progressPercent_finite (smp : FFmpeg.sample) :
  exists x, FFmpeg.progressPercent smp = Fin x.
Proof.
  unfold FFmpeg.progressPercent.
  destruct (FFmpeg.progress smp) as [[q| | |]|]; simpl;
    try apply estimate_from_time_finite.
  destruct (Qle_bool 0 q && Qle_bool q 1); simpl; eauto.
  apply estimate_from_time_finite.
Qed.

Lemma forwarded_in_range (smp : FFmpeg.sample) :
  exists q, FFmpeg.forwarded smp = Fin q /\ 0 <= q /\ q <= 100.
Proof.
  unfold FFmpeg.forwarded.
  destruct (progressPercent_finite smp) as [x ->]. simpl.
  eexists. split; [reflexivity|]. split.
  - apply Q.le_max_l.
  - apply Q.max_lub; [lra|apply Q.le_min_l].
Qed.

Lemma roundQ_scaled_range (q : Q) :
  0 <= q -> q <= 100 ->
  0 <= JS.roundQ (q * 0.35) /\ JS.roundQ (q * 0.35) <= 35.
Proof.
  intros H0 H100. unfold JS.roundQ.
  assert (Hlo : (Qfloor (1 # 2) <= Qfloor (q * 0.35 + (1 # 2)))%Z)
    by (apply Qfloor_resp_le; lra).
  assert (Hhi : (Qfloor (q * 0.35 + (1 # 2)) <= Qfloor (71 # 2))%Z)
    by (apply Qfloor_resp_le; lra).
  rewrite Zle_Qle in Hlo. rewrite Zle_Qle in Hhi.
  split; [exact Hlo|exact Hhi].
Qed.

(** C6, amended.  Every raw transcode sample is clamped before it is
    forwarded: whatever the sample holds (a ratio below 0 or above 1, NaN, an
    infinity, a value lower than the one before, no number at all) the
    forwarded value is a finite number in [0,100], and the value the panel
    reports for it, 65 plus the rounded 35 % of it, lies in [65,100] and is
    appended to the reported sequence as it is. *)
Theorem transcode_progress_clamped (smp : FFmpeg.sample) :
  (exists q, FFmpeg.forwarded smp = Fin q /\ 0 <= q /\ q <= 100)
  /\ forall (store : Store.t) (settings : ExportSettings)
            (environment : Panel.env) (st : Panel.state),
      Panel.ph st = Panel.Transcoding ->
      let st' := Panel.step store settings environment st
                   (Panel.TranscodeProgress smp) in
      exists r,
        Panel.exportProgress (Panel.u st') = Fin r
        /\ 65 <= r /\ r <= 100
        /\ Panel.progress_calls (Panel.u st')
           = Panel.progress_calls (Panel.u st) ++ [Fin r]
        /\ Panel.ph st' = Panel.Transcoding.
Proof.
  split; [apply forwarded_in_range|].
  intros store settings environment st Hph. simpl. rewrite Hph.
  destruct (forwarded_in_range smp) as (q & -> & H0 & H100).
  destruct (roundQ_scaled_range q H0 H100) as [Hr0 Hr35].
  simpl. eexists. split; [reflexivity|].
  repeat split; try reflexivity; lra.
Qed.

Lemma transcode_progress_clamped_witness :
  Panel.ph transcoding_state = Panel.Transcoding
  /\ exists r,
      Panel.exportProgress
        (Panel.u (Panel.step one_block_store (mkSettings mp4 medium) plain_env
                    transcoding_state
                    (Panel.TranscodeProgress
                       (FFmpeg.mkSample (Some (Fin (-3))) (Some NaN)))))
      = Fin r
      /\ 65 <= r /\ r <= 100.
Proof.
  split; [reflexivity|].
  destruct (proj2 (transcode_progress_clamped
                     (FFmpeg.mkSample (Some (Fin (-3))) (Some NaN)))
              one_block_store (mkSettings mp4 medium) plain_env
              transcoding_state eq_refl)
    as (r & Hr & Hlo & Hhi & _).
  exists r. repeat split; assumption.
Defined.

(** *** Cancelling *)

(** C1 fails on the code.  [handleCancel] resets the two component flags
    and shows "Export cancelled"; it never touches the run.  In the export of
    [one_block_store] cancelled after its first captured frame, the capture
    loop goes on drawing frames, the promise is resolved with the recorded
    blob, the file is downloaded and the export is announced as done. *)
Theorem cancel_leaves_run_running :
  (forall store settings environment st,
      let st' := Panel.step store settings environment st Panel.CancelClicked in
      Panel.run st' = Panel.run st /\ Panel.ph st' = Panel.ph st)
  /\ Panel.isExporting (Panel.u before_cancel) = true
  /\ option_map Run.frames (Panel.run before_cancel) = Some [(0%nat, 1)]
  /\ option_map Run.result (Panel.run before_cancel) = Some Run.Pending
  /\ Panel.isExporting (Panel.u after_cancel) = false
  /\ Panel.toasts (Panel.u after_cancel) = [Panel.ToastPlain "Export cancelled"]
  /\ option_map Run.rec (Panel.run after_cancel) = Some Run.RecRecording
  /\ option_map Run.ph (Panel.run after_cancel) = Some Run.Capturing
  /\ option_map Run.frames (Panel.run long_after_cancel)
     = Some [(0%nat, 1); (0%nat, 2)]
  /\ option_map Run.result (Panel.run long_after_cancel)
     = Some (Run.Resolved [7%nat])
  /\ Panel.exportProgress (Panel.u long_after_cancel) = Fin 100
  /\ Panel.toasts (Panel.u long_after_cancel)
     = [Panel.ToastPlain "Export cancelled";
        Panel.ToastSuccess "Video exported: video.webm"].
Proof.
  split.
  - intros store settings environment st. simpl.
    destruct (Panel.isExporting (Panel.u st)); split; reflexivity.
  - vm_compute. repeat split; reflexivity.
Qed.

(** *** Runs of [processAndMergeSegments] *)

Lemma firstn_plus {A : Type} (n k : nat) :
  forall l : list A, firstn (n + k) l = firstn n l ++ firstn k (skipn n l).
Proof.
  induction n as [|n IH]; intros [|a l]; simpl; try reflexivity.
  - rewrite firstn_nil. reflexivity.
  - rewrite IH. reflexivity.
Qed.

Lemma firstn_succ_nth {A : Type} (n : nat) :
  forall (l : list A) (x : A),
    nth_error l n = Some x -> firstn (S n) l = firstn n l ++ [x].
Proof.
  induction n as [|n IH]; intros [|a l] x H; simpl in *; try discriminate.
  - injection H as ->. reflexivity.
  - rewrite (IH l x H). reflexivity.
Qed.

Lemma running_totals_snoc (xs : list Q) :
  forall (acc x : Q),
    Run.running_totals acc (xs ++ [x])
    = Run.running_totals acc xs ++ [fold_left Qplus xs acc + x].
Proof.
  induction xs as [|y rest IH]; intros acc x; simpl.
  - reflexivity.
  - rewrite IH. reflexivity.
Qed.

Section RunFacts.

Variable blocks : list TimelineBlock.
Variable allClips : list VideoClip.
Variable exportSettings : ExportSettings.

Lemma exec_app (ev1 ev2 : list Run.event) :
  forall s,
    Run.exec blocks allClips exportSettings s (ev1 ++ ev2)
    = (fst (Run.exec blocks allClips exportSettings
              (fst (Run.exec blocks allClips exportSettings s ev1)) ev2),
       snd (Run.exec blocks allClips exportSettings s ev1)
       ++ snd (Run.exec blocks allClips exportSettings
                 (fst (Run.exec blocks allClips exportSettings s ev1)) ev2)).
Proof.
  induction ev1 as [|e rest IH]; intros s; simpl.
  - destruct (Run.exec blocks allClips exportSettings s ev2); reflexivity.
  - destruct (Run.step blocks allClips exportSettings s e) as [s1 o1].
    rewrite IH.
    destruct (Run.exec blocks allClips exportSettings s1 rest) as [s2 o2].
    simpl.
    destruct (Run.exec blocks allClips exportSettings s2 ev2) as [s3 o3].
    simpl. rewrite app_assoc. reflexivity.
Qed.

(** A property of state and reported values that every step keeps holds
    after any sequence of events. *)
Lemma exec_invariant (P : Run.state -> list num -> Prop) :
  (forall s out e,
      P s out ->
      P (fst (Run.step blocks allClips exportSettings s e))
        (out ++ snd (Run.step blocks allClips exportSettings s e))) ->
  forall events s out,
    P s out ->
    P (fst (Run.exec blocks allClips exportSettings s events))
      (out ++ snd (Run.exec blocks allClips exportSettings s events)).
Proof.
  intros Hstep. induction events as [|e rest IH]; intros s out HP; simpl.
  - rewrite app_nil_r. exact HP.
  - specialize (Hstep s out e HP).
    destruct (Run.step blocks allClips exportSettings s e) as [s1 o1].
    specialize (IH s1 (out ++ o1) Hstep).
    destruct (Run.exec blocks allClips exportSettings s1 rest) as [s2 o2].
    simpl in *. rewrite app_assoc. exact IH.
Qed.

(** Where [processNextBlock] stops: it passes over [k] blocks without a
    clip and either loads the next block, which has one, or stops the
    recorder at the end of the list. *)
Lemma processNextBlock_from_index (rest : list TimelineBlock) :
  forall (idx : nat) (s : Run.state),
    let s' := Run.processNextBlock_from allClips rest idx s in
    exists k,
      Run.currentBlockIndex s' = (idx + k)%nat
      /\ filter (Run.has_clip allClips) (firstn k rest) = []
      /\ (Run.ph s' = Run.AwaitMetadata ->
          exists b, nth_error rest k = Some b /\ Run.has_clip allClips b = true)
      /\ (Run.rec s' = Run.RecAbsent <-> Run.rec s = Run.RecAbsent).
Proof.
  induction rest as [|block rest' IH]; intros idx s; simpl.
  - exists 0%nat. unfold Run.recorder_stop. simpl.
    destruct (Run.rec s) eqn:Hrec; simpl;
      (split; [lia|]); (split; [reflexivity|]); (split; [discriminate|]);
      split; intro H; congruence.
  - destruct (Store.find_clip (clipId block) allClips) as [clip|] eqn:Hfind.
    + exists 0%nat. simpl.
      split; [lia|]. split; [reflexivity|]. split; [|tauto].
      intros _. exists block. split; [reflexivity|].
      unfold Run.has_clip. rewrite Hfind. reflexivity.
    + match goal with
      | |- context [Run.processNextBlock_from _ _ _ ?s1] =>
          destruct (IH (S idx) s1) as (k & Hi & Hf & Hm & Hr)
      end.
      exists (S k). simpl in *.
      split; [rewrite Hi; lia|].
      split; [unfold Run.has_clip at 1; rewrite Hfind; exact Hf|].
      split; [exact Hm|exact Hr].
Qed.

Lemma processNextBlock_completed (s : Run.state) :
  let s' := Run.processNextBlock blocks allClips s in
  Run.completed_blocks blocks allClips s' = Run.completed_blocks blocks allClips s
  /\ (Run.ph s' = Run.AwaitMetadata ->
      exists b, nth_error blocks (Run.currentBlockIndex s') = Some b
                /\ Run.has_clip allClips b = true)
  /\ (Run.rec s' = Run.RecAbsent <-> Run.rec s = Run.RecAbsent).
Proof.
  unfold Run.processNextBlock.
  destruct (processNextBlock_from_index
              (skipn (Run.currentBlockIndex s) blocks)
              (Run.currentBlockIndex s) s) as (k & Hi & Hf & Hm & Hr).
  simpl in *. split; [|split; [|exact Hr]].
  - unfold Run.completed_blocks. rewrite Hi, firstn_plus, filter_app, Hf.
    apply app_nil_r.
  - intros Hph. destruct (Hm Hph) as (b & Hb & Hc).
    exists b. split; [|exact Hc].
    rewrite Hi. rewrite nth_error_skipn in Hb. exact Hb.
Qed.

Lemma coherent_start :
  Run.coherent blocks allClips
    (Run.processAndMergeSegments blocks allClips) [].
Proof.
  assert (Hidle : forall (s : Run.state),
             Run.rec s = Run.RecAbsent -> Run.frames s = [] ->
             Run.audioSource s = false -> Run.audioSourceCreations s = 0%nat ->
             Run.ph s = Run.Returned \/ Run.ph s = Run.AwaitFirstMetadata ->
             Run.coherent blocks allClips s []).
  { intros s Hrec Hfr Haudio Hcount Hph. unfold Run.coherent.
    split; [reflexivity|]. split; [congruence|].
    split; [intros Hact; exfalso; intuition congruence|].
    split; [intros i t Hin; rewrite Hfr in Hin; contradiction|].
    split; [rewrite Haudio; exact Hcount|].
    split; [intros Hact; exfalso; intuition congruence|].
    intros _. exact Hrec. }
  unfold Run.processAndMergeSegments.
  destruct blocks as [|firstBlock rest].
  - apply Hidle; simpl; auto.
  - destruct (Store.find_clip (clipId firstBlock) allClips);
      apply Hidle; simpl; auto.
Qed.

Ltac easy_coherent :=
  rewrite ?app_nil_r; unfold Run.coherent in *; simpl in *;
  intuition (try congruence).

(** The state reached by [processNextBlock] is coherent when the state it
    starts from has a recorder and accounts for the progress reported. *)
Lemma coherent_after_processNextBlock (s1 : Run.state) (out1 : list num) :
  Run.rec s1 <> Run.RecAbsent ->
  out1 = Run.progress_after blocks (Run.completed_blocks blocks allClips s1) ->
  Run.processedDuration s1
  = fold_left Qplus
      (map Run.segmentDuration (Run.completed_blocks blocks allClips s1)) 0 ->
  Run.totalDuration s1 = Store.reduce_duration blocks ->
  (forall i t, In (i, t) (Run.frames s1) ->
     exists b, nth_error blocks i = Some b /\ Run.has_clip allClips b = true) ->
  Run.audioSourceCreations s1 = (if Run.audioSource s1 then 1 else 0)%nat ->
  Run.coherent blocks allClips (Run.processNextBlock blocks allClips s1) out1.
Proof.
  intros Hrec Hout Hproc Htotal Hframes Haudio.
  destruct (processNextBlock_completed s1) as (Hcompl & Hnext & Hrec').
  pose proof (processNextBlock_from_frame allClips
                (skipn (Run.currentBlockIndex s1) blocks)
                (Run.currentBlockIndex s1) s1) as Hf.
  fold (Run.processNextBlock blocks allClips s1) in Hf.
  simpl in Hf.
  destruct Hf as (Ha & Hc & Hp & Ht & Hfr & _ & _ & _ & Hph).
  unfold Run.coherent.
  rewrite Hcompl, Ha, Hc, Hp, Ht, Hfr.
  split; [intros Habs; exfalso; apply Hrec; apply Hrec'; exact Habs|].
  split; [intros _; auto|].
  split.
  { intros Hact. split; [intros Habs; apply Hrec; apply Hrec'; exact Habs|].
    apply Hnext. destruct Hph as [Hph|Hph]; [exact Hph|].
    exfalso. rewrite Hph in Hact. intuition discriminate. }
  split; [exact Hframes|].
  split; [exact Haudio|].
  split.
  - intros Hact. exfalso.
    destruct Hph as [Hph|Hph]; rewrite Hph in Hact; intuition discriminate.
  - intros Hfirst. exfalso.
    destruct Hph as [Hph|Hph]; rewrite Hph in Hfirst; discriminate.
Qed.

Lemma coherent_step (s : Run.state) (out : list num) (e : Run.event) :
  Run.coherent blocks allClips s out ->
  Run.coherent blocks allClips
    (fst (Run.step blocks allClips exportSettings s e))
    (out ++ snd (Run.step blocks allClips exportSettings s e)).
Proof.
  intros Hc.
  destruct e; unfold Run.step.
  - (* loadedmetadata *)
    destruct (Run.ph s) eqn:Hph; try (simpl; easy_coherent; fail).
    + (* the first one: the recorder starts *)
      destruct Hc as (Habs & _ & _ & Hfr & Hcnt & _ & Hfirst).
      unfold Run.start_recording. simpl.
      rewrite (Habs (Hfirst Hph)). simpl.
      apply coherent_after_processNextBlock; simpl; auto.
      discriminate.
    + (* the clip of the current block is loaded *)
      destruct Hc as (Habs & Hrec & Hact & Hfr & Hcnt & Haud & Hfirst).
      destruct Hact as (Hnabs & b & Hb & Hclip); [auto|].
      assert (Hfind : exists clip,
                 Store.find_clip (clipId b) allClips = Some clip).
      { unfold Run.has_clip in Hclip.
        destruct (Store.find_clip (clipId b) allClips) as [clip|];
          [eauto|discriminate]. }
      destruct Hfind as [clip Hfind].
      unfold Run.apply_block. rewrite Hb, Hfind.
      rewrite app_nil_r. unfold Run.coherent. simpl.
      split; [exact Habs|]. split; [exact Hrec|].
      split; [intros _; split; [exact Hnabs|]; exists b; auto|].
      split; [exact Hfr|].
      split; [|split; [reflexivity|discriminate]].
      rewrite Hcnt. destruct (Run.audioSource s); reflexivity.
  - destruct (Run.ph s) eqn:Hph; try (simpl; easy_coherent; fail).
  - destruct (Run.ph s) eqn:Hph; try (simpl; easy_coherent; fail).
  - destruct (Run.ph s) eqn:Hph; try (simpl; easy_coherent; fail).
    (* an animation frame in the capture loop *)
    destruct Hc as (Habs & Hrec & Hact & Hfr & Hcnt & Haud & Hfirst).
    destruct Hact as (Hnabs & b & Hb & Hclip); [auto|].
    destruct (Hrec Hnabs) as (Hout & Hproc & Htotal).
    unfold Run.captureLoop. rewrite Hb.
    destruct (JS.Qgeb videoTime (endTime b) || ended).
    + (* the block's end *)
      unfold fst, snd.
      apply coherent_after_processNextBlock;
        unfold Run.completed_blocks;
        cbn [Run.rec Run.currentBlockIndex Run.processedDuration
             Run.totalDuration Run.frames Run.audioSource
             Run.audioSourceCreations];
        auto.
      * rewrite (firstn_succ_nth _ _ _ Hb), filter_app.
        cbn [filter]. rewrite Hclip. unfold Run.progress_after.
        rewrite map_app. cbn [map]. rewrite running_totals_snoc, map_app.
        cbn [map]. rewrite Hout. unfold Run.progress_after, Run.completed_blocks.
        rewrite Hproc, Htotal. unfold Run.completed_blocks.
        reflexivity.
      * rewrite (firstn_succ_nth _ _ _ Hb), filter_app.
        cbn [filter]. rewrite Hclip, map_app, fold_left_app.
        cbn [map fold_left]. rewrite Hproc. reflexivity.
    + (* a frame before the end *)
      rewrite app_nil_r. unfold Run.coherent. simpl.
      split; [exact Habs|]. split; [exact Hrec|].
      split; [intros _; split; [exact Hnabs|]; exists b; auto|].
      split.
      { intros i t Hin. apply in_app_or in Hin. destruct Hin as [Hin|Hin].
        - apply (Hfr i t Hin).
        - simpl in Hin. destruct Hin as [Hin|[]].
          injection Hin as <- <-. exists b. auto. }
      split; [exact Hcnt|].
      split; [intros _; apply Haud; auto|discriminate].
  - destruct (Run.ph s) eqn:Hph; destruct (Run.rec s) eqn:Hrec;
      try destruct (Nat.ltb 0 size);
      try (simpl; easy_coherent; fail).
  - destruct (Run.ph s) eqn:Hph; destruct (Run.rec s) eqn:Hrec;
      unfold Run.resolve; simpl; try destruct (Run.result s);
      try (simpl; easy_coherent; fail).
  - destruct (Run.ph s) eqn:Hph; destruct (Run.rec s) eqn:Hrec;
      unfold Run.reject; simpl; try destruct (Run.result s);
      try (simpl; easy_coherent; fail).
Qed.

(** Every run is coherent, whatever the browser delivers. *)
Lemma run_coherent (events : list Run.event) :
  Run.coherent blocks allClips
    (fst (Run.run blocks allClips exportSettings events))
    (snd (Run.run blocks allClips exportSettings events)).
Proof.
  unfold Run.run.
  apply (exec_invariant (Run.coherent blocks allClips)
           (fun s out e H => coherent_step s out e H)
           events _ [] coherent_start).
Qed.

End RunFacts.

(** *** The audio source *)

Lemma step_keeps_audio_source (blocks : list TimelineBlock)
    (allClips : list VideoClip) (exportSettings : ExportSettings)
    (s : Run.state) (e : Run.event) :
  Run.audioSource s = true ->
  Run.audioSource (fst (Run.step blocks allClips exportSettings s e)) = true
  /\ Run.audioSourceCreations (fst (Run.step blocks allClips exportSettings s e))
     = Run.audioSourceCreations s.
Proof.
  intros Ha.
  assert (Hnext : forall s1,
             Run.audioSource s1 = true ->
             Run.audioSourceCreations s1 = Run.audioSourceCreations s ->
             Run.audioSource (Run.processNextBlock blocks allClips s1) = true
             /\ Run.audioSourceCreations (Run.processNextBlock blocks allClips s1)
                = Run.audioSourceCreations s).
  { intros s1 H1 H2.
    destruct (processNextBlock_from_frame allClips
                (skipn (Run.currentBlockIndex s1) blocks)
                (Run.currentBlockIndex s1) s1) as (Hx & Hy & _).
    unfold Run.processNextBlock. rewrite Hx, Hy. auto. }
  destruct e; unfold Run.step.
  - destruct (Run.ph s); simpl; auto.
    unfold Run.apply_block.
    destruct (nth_error blocks (Run.currentBlockIndex s)) as [b|]; auto.
    destruct (Store.find_clip (clipId b) allClips); auto.
    simpl. rewrite Ha. simpl. auto.
  - destruct (Run.ph s); simpl; auto.
  - destruct (Run.ph s); simpl; auto.
  - destruct (Run.ph s); simpl; auto.
    unfold Run.captureLoop.
    destruct (nth_error blocks (Run.currentBlockIndex s)) as [b|]; auto.
    destruct (JS.Qgeb videoTime (endTime b) || ended); simpl; auto.
  - destruct (Run.ph s); destruct (Run.rec s);
      try destruct (Nat.ltb 0 size); simpl; auto.
  - destruct (Run.ph s); destruct (Run.rec s); unfold Run.resolve; simpl;
      try destruct (Run.result s); simpl; auto.
  - destruct (Run.ph s); destruct (Run.rec s); unfold Run.reject; simpl;
      try destruct (Run.result s); simpl; auto.
Qed.

(** C3. Whatever the segment list and whatever the browser delivers, the
    run calls [createMediaElementSource] at most once: the number of calls is
    1 when [audioSource] is set and 0 otherwise, it is 1 as soon as a block
    is past its metadata (seeking, starting or capturing), and once the
    source exists no later event creates another. *)
Theorem audio_source_created_at_most_once
    (blocks : list TimelineBlock) (allClips : list VideoClip)
    (exportSettings : ExportSettings) (events : list Run.event) :
  let s := fst (Run.run blocks allClips exportSettings events) in
  (Run.audioSourceCreations s <= 1)%nat
  /\ Run.audioSourceCreations s = (if Run.audioSource s then 1 else 0)%nat
  /\ (Run.ph s = Run.AwaitSeeked \/ Run.ph s = Run.AwaitPlay
      \/ Run.ph s = Run.Capturing ->
      Run.audioSourceCreations s = 1%nat)
  /\ (Run.audioSource s = true ->
      forall e,
        Run.audioSourceCreations
          (fst (Run.step blocks allClips exportSettings s e)) = 1%nat).
Proof.
  intros s.
  destruct (run_coherent blocks allClips exportSettings events)
    as (_ & _ & _ & _ & Hcnt & Haud & _).
  fold s in Hcnt, Haud.
  split; [rewrite Hcnt; destruct (Run.audioSource s); lia|].
  split; [exact Hcnt|].
  split.
  - intros Hph. rewrite Hcnt, (Haud Hph). reflexivity.
  - intros Ha e.
    destruct (step_keeps_audio_source blocks allClips exportSettings s e Ha)
      as [_ ->].
    rewrite Hcnt, Ha. reflexivity.
Qed.

Lemma audio_source_created_at_most_once_witness :
  Run.ph (fst (Run.run [block_five; block_five] [clip_one]
                 (mkSettings webm medium) second_block_loading))
  = Run.AwaitSeeked
  /\ Run.audioSourceCreations
       (fst (Run.run [block_five; block_five] [clip_one]
               (mkSettings webm medium) second_block_loading)) = 1%nat.
Proof.
  assert (Hph : Run.ph (fst (Run.run [block_five; block_five] [clip_one]
                               (mkSettings webm medium) second_block_loading))
                = Run.AwaitSeeked) by (vm_compute; reflexivity).
  split; [exact Hph|].
  exact (proj1 (proj2 (proj2
           (audio_source_created_at_most_once [block_five; block_five]
              [clip_one] (mkSettings webm medium) second_block_loading)))
           (or_introl Hph)).
Defined.

(** *** Capture progress *)

Lemma capture_progress_not_above_95 (processed total : Q) :
  JS.gtb (Run.capture_progress processed total) (Fin 95) = false.
Proof.
  unfold Run.capture_progress.
  destruct (JS.scale (JS.div processed total) 95) as [q| | |]; simpl;
    try reflexivity.
  - apply negb_false_iff. apply Qle_bool_iff. apply Q.le_min_l.
Qed.

(** C5. In every run of [processAndMergeSegments], whatever the browser
    delivers: nothing is reported before the recorder is started; the first
    [loadedmetadata] starts the recorder and reports 5; from then on the
    values reported are that 5 followed by one value per block whose end has
    been reached, each being [Math.min(95, processed / total * 95)] for the
    trimmed lengths ([endTime - startTime]) of the blocks done so far, summed,
    and the total of the [duration] fields of all blocks, skipped ones
    included; and no reported value is above 95.  Event by event: an animation frame of the capture loop
    at or past the [endTime] of the current block (or with the video ended)
    pauses the video, draws nothing, adds the block to those done and reports
    exactly that one value; a frame before the end is drawn and reports
    nothing; and no other event reports anything. *)
Theorem capture_progress_reports
    (blocks : list TimelineBlock) (allClips : list VideoClip)
    (exportSettings : ExportSettings) (events : list Run.event) :
  let s := fst (Run.run blocks allClips exportSettings events) in
  let out := snd (Run.run blocks allClips exportSettings events) in
  let done := Run.completed_blocks blocks allClips s in
  let total := Store.reduce_duration blocks in
  out = match Run.rec s with
        | Run.RecAbsent => []
        | _ => Run.progress_after blocks done
        end
  /\ Forall (fun p => JS.gtb p (Fin 95) = false) out
  /\ (Run.rec s <> Run.RecAbsent ->
      out = Fin 5
            :: map (fun processed =>
                      JS.min 95 (JS.scale (JS.div processed total) 95))
                   (Run.running_totals 0
                      (map (fun b => endTime b - startTime b) done)))
  /\ total == Store.sum_durations blocks
  /\ (Run.ph s = Run.Capturing ->
      exists b, nth_error blocks (Run.currentBlockIndex s) = Some b
                /\ Run.has_clip allClips b = true)
  /\ forall e,
      let s' := fst (Run.step blocks allClips exportSettings s e) in
      let reported := snd (Run.step blocks allClips exportSettings s e) in
      snd (Run.run blocks allClips exportSettings (events ++ [e]))
      = out ++ reported
      /\ (e = Run.LoadedMetadata -> Run.ph s = Run.AwaitFirstMetadata ->
          out = [] /\ reported = [Fin 5]
          /\ Run.rec s = Run.RecAbsent /\ Run.rec s' <> Run.RecAbsent)
      /\ (forall t ended b,
            e = Run.AnimationFrame t ended -> Run.ph s = Run.Capturing ->
            nth_error blocks (Run.currentBlockIndex s) = Some b ->
            endTime b <= t \/ ended = true ->
            reported
            = [JS.min 95
                 (JS.scale
                    (JS.div
                       (fold_left Qplus
                          (map (fun b => endTime b - startTime b) done) 0
                        + (endTime b - startTime b))
                       total)
                    95)]
            /\ Run.completed_blocks blocks allClips s' = done ++ [b]
            /\ (Run.currentBlockIndex s < Run.currentBlockIndex s')%nat
            /\ Run.v_paused (Run.vid s') = true
            /\ Run.frames s' = Run.frames s)
      /\ (forall t b,
            e = Run.AnimationFrame t false -> Run.ph s = Run.Capturing ->
            nth_error blocks (Run.currentBlockIndex s) = Some b ->
            t < endTime b ->
            reported = []
            /\ Run.frames s' = Run.frames s ++ [(Run.currentBlockIndex s, t)]
            /\ Run.currentBlockIndex s' = Run.currentBlockIndex s
            /\ Run.ph s' = Run.Capturing)
      /\ (reported <> [] ->
          (e = Run.LoadedMetadata /\ Run.ph s = Run.AwaitFirstMetadata)
          \/ exists t ended b,
              e = Run.AnimationFrame t ended /\ Run.ph s = Run.Capturing
              /\ nth_error blocks (Run.currentBlockIndex s) = Some b
              /\ (endTime b <= t \/ ended = true)).
Proof.
  intros s out done total.
  destruct (run_coherent blocks allClips exportSettings events)
    as (Habs & Hrec & Hact & _ & _ & _ & Hfirst).
  fold s in Habs, Hrec, Hact, Hfirst. fold out in Habs, Hrec.
  fold done in Hrec.
  assert (Hout : out = match Run.rec s with
                       | Run.RecAbsent => []
                       | _ => Run.progress_after blocks done
                       end).
  { destruct (Run.rec s) eqn:E; [auto| | | |];
      apply Hrec; discriminate. }
  split; [exact Hout|].
  split.
  { rewrite Hout. destruct (Run.rec s); [constructor| | | |];
      (unfold Run.progress_after; constructor; [reflexivity|];
       apply Forall_forall; intros p Hin; apply in_map_iff in Hin;
       destruct Hin as (c & <- & _); apply capture_progress_not_above_95). }
  split.
  { intros Hr. destruct (Hrec Hr) as (-> & _). reflexivity. }
  split; [apply reduce_duration_sum|].
  split.
  { intros Hph. apply Hact. auto. }
  intros e s' reported.
  split.
  { unfold Run.run. rewrite exec_app. cbn [snd fst].
    fold (Run.run blocks allClips exportSettings events). fold s. fold out.
    f_equal. cbn [Run.exec].
    subst reported.
    destruct (Run.step blocks allClips exportSettings s e) as [s1 o1].
    cbn. apply app_nil_r. }
  split.
  { intros -> Hph. subst s' reported. unfold Run.step. rewrite Hph.
    pose proof (Hfirst Hph) as Hra.
    split; [exact (Habs Hra)|]. split; [reflexivity|]. split; [exact Hra|].
    unfold Run.start_recording. cbn [fst].
    intros Hr.
    match type of Hr with
    | Run.rec (Run.processNextBlock _ _ ?s1) = _ =>
        apply (proj1 (proj2 (proj2 (processNextBlock_completed
                                      blocks allClips s1)))) in Hr
    end.
    discriminate. }
  split.
  { intros t ended b -> Hph Hb Hend. subst s' reported.
    destruct (Hact (or_intror (or_intror (or_intror Hph))))
      as (Hr & b0 & Hb0 & Hclip).
    rewrite Hb in Hb0. injection Hb0 as <-.
    destruct (Hrec Hr) as (_ & Hproc & Htot).
    unfold Run.step. rewrite Hph. unfold Run.captureLoop. rewrite Hb.
    assert (Hcond : JS.Qgeb t (endTime b) || ended = true).
    { destruct Hend as [Hle| ->]; [|apply orb_true_r].
      apply orb_true_iff. left. apply Qgeb_true. exact Hle. }
    rewrite Hcond. cbn [fst snd].
    split.
    { unfold Run.capture_progress. rewrite Hproc, Htot. reflexivity. }
    match goal with
    | |- context [Run.processNextBlock blocks allClips ?x] =>
        set (s1 := x);
        destruct (processNextBlock_completed blocks allClips s1)
          as (Hcomp & _ & _);
        destruct (processNextBlock_from_index allClips
                    (skipn (Run.currentBlockIndex s1) blocks)
                    (Run.currentBlockIndex s1) s1) as (k & Hidx & _);
        destruct (processNextBlock_from_frame allClips
                    (skipn (Run.currentBlockIndex s1) blocks)
                    (Run.currentBlockIndex s1) s1)
          as (_ & _ & _ & _ & Hfr & _ & _ & Hpaused & _)
    end.
    cbv zeta in Hcomp, Hidx, Hfr, Hpaused.
    fold (Run.processNextBlock blocks allClips s1) in Hidx, Hfr, Hpaused.
    split.
    { rewrite Hcomp. unfold Run.completed_blocks. subst s1.
      cbn [Run.currentBlockIndex].
      rewrite (firstn_succ_nth _ _ _ Hb), filter_app. cbn [filter].
      rewrite Hclip. reflexivity. }
    split; [rewrite Hidx; subst s1; cbn [Run.currentBlockIndex]; lia|].
    split; [rewrite Hpaused; reflexivity|].
    rewrite Hfr. reflexivity. }
  split.
  { intros t b -> Hph Hb Hlt. subst s' reported.
    unfold Run.step. rewrite Hph. unfold Run.captureLoop. rewrite Hb.
    apply Qgeb_false in Hlt. rewrite Hlt. cbn. auto. }
  intros Hne. subst reported.
  unfold Run.step in Hne.
  destruct e as [| | |t ended|size| |].
  - destruct (Run.ph s) eqn:Hph; try (exfalso; apply Hne; reflexivity).
    left. auto.
  - destruct (Run.ph s); exfalso; apply Hne; reflexivity.
  - destruct (Run.ph s); exfalso; apply Hne; reflexivity.
  - destruct (Run.ph s) eqn:Hph; try (exfalso; apply Hne; reflexivity).
    right. unfold Run.captureLoop in Hne.
    destruct (nth_error blocks (Run.currentBlockIndex s)) as [b|] eqn:Hb;
      [|exfalso; apply Hne; reflexivity].
    destruct (JS.Qgeb t (endTime b) || ended) eqn:Hcond;
      [|exfalso; apply Hne; reflexivity].
    exists t, ended, b. split; [reflexivity|]. split; [reflexivity|].
    split; [reflexivity|].
    apply orb_true_iff in Hcond. destruct Hcond as [H|H]; [left|right; exact H].
    apply Qgeb_true. exact H.
  - exfalso. apply Hne.
    destruct (Run.ph s); destruct (Run.rec s); try reflexivity;
      destruct (Nat.ltb 0 size); reflexivity.
  - exfalso. apply Hne.
    destruct (Run.ph s); destruct (Run.rec s); reflexivity.
  - exfalso. apply Hne.
    destruct (Run.ph s); destruct (Run.rec s); reflexivity.
Qed.

Lemma capture_progress_reports_witness :
  let before := [Run.LoadedMetadata; Run.LoadedMetadata; Run.Seeked;
                 Run.PlayStarted; Run.AnimationFrame 1 false] in
  let s := fst (Run.run [block_five] [clip_one] (mkSettings webm medium)
                  before) in
  Run.ph s = Run.Capturing
  /\ nth_error [block_five] (Run.currentBlockIndex s) = Some block_five
  /\ snd (Run.run [block_five] [clip_one] (mkSettings webm medium) before)
     = [Fin 5]
  /\ exists q,
      snd (Run.step [block_five] [clip_one] (mkSettings webm medium) s
             (Run.AnimationFrame 5 false))
      = [Fin q]
      /\ q == 95.
Proof.
  intros before s.
  assert (Hph : Run.ph s = Run.Capturing) by (vm_compute; reflexivity).
  assert (Hb : nth_error [block_five] (Run.currentBlockIndex s)
               = Some block_five) by (vm_compute; reflexivity).
  assert (Hend : endTime block_five <= 5 \/ false = true)
    by (left; vm_compute; congruence).
  split; [exact Hph|]. split; [exact Hb|].
  destruct (capture_progress_reports [block_five] [clip_one]
              (mkSettings webm medium) before)
    as (_ & _ & Hout & _ & _ & Hstep).
  split.
  { rewrite Hout; [reflexivity|]. vm_compute. discriminate. }
  destruct (Hstep (Run.AnimationFrame 5 false)) as (_ & _ & Hframe & _).
  destruct (Hframe 5 false block_five eq_refl Hph Hb Hend) as (Hrep & _).
  unfold s. rewrite Hrep. vm_compute.
  eexists. split; [reflexivity|]. reflexivity.
Defined.

(** *** Blocks without a clip *)

Lemma sum_durations_nonneg (bs : list TimelineBlock) :
  (forall b, In b bs -> 0 <= duration b) -> 0 <= Store.sum_durations bs.
Proof.
  induction bs as [|b rest IH]; intros H; simpl.
  - lra.
  - assert (0 <= duration b) by (apply H; left; reflexivity).
    assert (0 <= Store.sum_durations rest)
      by (apply IH; intros x Hx; apply H; right; exact Hx).
    lra.
Qed.

Lemma sum_filter_le (f : TimelineBlock -> bool) (bs : list TimelineBlock) :
  (forall b, In b bs -> 0 <= duration b) ->
  Store.sum_durations (filter f bs) <= Store.sum_durations bs.
Proof.
  induction bs as [|b rest IH]; intros H; simpl.
  - lra.
  - assert (0 <= duration b) by (apply H; left; reflexivity).
    assert (Store.sum_durations (filter f rest) <= Store.sum_durations rest)
      by (apply IH; intros x Hx; apply H; right; exact Hx).
    destruct (f b); simpl; lra.
Qed.

Lemma sum_filter_firstn_le (f : TimelineBlock -> bool) (bs : list TimelineBlock) :
  (forall b, In b bs -> 0 <= duration b) ->
  forall n,
    Store.sum_durations (filter f (firstn n bs))
    <= Store.sum_durations (filter f bs).
Proof.
  induction bs as [|b rest IH]; intros H n.
  - rewrite firstn_nil. simpl. lra.
  - destruct n as [|n].
    + change (0 <= Store.sum_durations (filter f (b :: rest))).
      apply sum_durations_nonneg. intros x Hx.
      apply filter_In in Hx. apply H. tauto.
    + simpl.
      assert (Store.sum_durations (filter f (firstn n rest))
              <= Store.sum_durations (filter f rest))
        by (apply IH; intros x Hx; apply H; right; exact Hx).
      destruct (f b); simpl; lra.
Qed.

Lemma sum_filter_lt (f : TimelineBlock -> bool) (bs : list TimelineBlock) :
  (forall b, In b bs -> 0 <= duration b) ->
  (exists b, In b bs /\ f b = false /\ 0 < duration b) ->
  Store.sum_durations (filter f bs) < Store.sum_durations bs.
Proof.
  induction bs as [|b rest IH]; intros H (x & Hin & Hf & Hpos).
  - contradiction.
  - assert (Hb : 0 <= duration b) by (apply H; left; reflexivity).
    assert (Hrest : forall y, In y rest -> 0 <= duration y)
      by (intros y Hy; apply H; right; exact Hy).
    pose proof (sum_filter_le f rest Hrest) as Hle.
    simpl. destruct Hin as [->|Hin].
    + rewrite Hf. lra.
    + assert (Store.sum_durations (filter f rest) < Store.sum_durations rest)
        by (apply IH; [exact Hrest|exists x; auto]).
      destruct (f b); simpl; lra.
Qed.

Lemma running_totals_bound (bs : list TimelineBlock) :
  (forall b, In b bs ->
     duration b == Run.segmentDuration b /\ 0 <= duration b) ->
  forall acc c,
    In c (Run.running_totals acc (map Run.segmentDuration bs)) ->
    c <= acc + Store.sum_durations bs.
Proof.
  induction bs as [|b rest IH]; intros H acc c Hin; simpl in *.
  - contradiction.
  - destruct (H b (or_introl eq_refl)) as [Heq Hb].
    assert (Hrest : forall y, In y rest ->
               duration y == Run.segmentDuration y /\ 0 <= duration y)
      by (intros y Hy; apply H; right; exact Hy).
    assert (0 <= Store.sum_durations rest).
    { apply sum_durations_nonneg. intros y Hy. apply Hrest. exact Hy. }
    destruct Hin as [<-|Hin].
    + lra.
    + specialize (IH Hrest _ _ Hin). lra.
Qed.

Lemma capture_progress_below_95 (processed total : Q) :
  0 < total -> processed < total ->
  exists q, Run.capture_progress processed total = Fin q /\ q < 95.
Proof.
  intros Hpos Hlt. unfold Run.capture_progress, JS.div.
  destruct (Qeq_bool total 0) eqn:E.
  - apply Qeq_bool_iff in E. lra.
  - simpl. eexists. split; [reflexivity|].
    eapply Qle_lt_trans; [apply Q.le_min_r|].
    assert (processed / total < 1) by (apply Qlt_shift_div_r; lra).
    lra.
Qed.

Lemma skipn_succ_tail {A : Type} (n : nat) :
  forall (l : list A) (x : A) (r : list A),
    skipn n l = x :: r -> skipn (S n) l = r.
Proof.
  induction n as [|n IH]; intros [|a l] x r H; simpl in *; try discriminate.
  - injection H as _ ->. reflexivity.
  - apply (IH l x r H).
Qed.

Section PlayThrough.

Variable blocks : list TimelineBlock.
Variable allClips : list VideoClip.
Variable exportSettings : ExportSettings.

Lemma exec_cons_fst (s : Run.state) (e : Run.event) (rest : list Run.event) :
  fst (Run.exec blocks allClips exportSettings s (e :: rest))
  = fst (Run.exec blocks allClips exportSettings
           (fst (Run.step blocks allClips exportSettings s e)) rest).
Proof.
  simpl. destruct (Run.step blocks allClips exportSettings s e) as [s1 o1].
  simpl.
  destruct (Run.exec blocks allClips exportSettings s1 rest) as [s2 o2].
  reflexivity.
Qed.

Lemma exec_app_fst (s : Run.state) (ev1 ev2 : list Run.event) :
  fst (Run.exec blocks allClips exportSettings s (ev1 ++ ev2))
  = fst (Run.exec blocks allClips exportSettings
           (fst (Run.exec blocks allClips exportSettings s ev1)) ev2).
Proof. rewrite exec_app. reflexivity. Qed.

Lemma step_frame_early (s : Run.state) (b : TimelineBlock) (t : Q) :
  Run.ph s = Run.Capturing ->
  nth_error blocks (Run.currentBlockIndex s) = Some b ->
  t < endTime b ->
  fst (Run.step blocks allClips exportSettings s (Run.AnimationFrame t false))
  = Run.mk Run.Capturing
      (Run.mkVideo (Run.src (Run.vid s)) (Run.v_volume (Run.vid s))
         (Run.v_muted (Run.vid s)) t (Run.v_paused (Run.vid s)))
      (Run.audioSource s) (Run.audioSourceCreations s) (Run.rec s)
      (Run.videoBitsPerSecond s) (Run.chunks s) (Run.processedDuration s)
      (Run.totalDuration s) (Run.currentBlockIndex s)
      (Run.frames s ++ [(Run.currentBlockIndex s, t)])
      (Run.warnings s) (Run.result s).
Proof.
  intros Hph Hb Hlt. unfold Run.step. rewrite Hph.
  unfold Run.captureLoop. rewrite Hb.
  apply Qgeb_false in Hlt. rewrite Hlt. reflexivity.
Qed.

Lemma step_frame_end (s : Run.state) (b : TimelineBlock) :
  Run.ph s = Run.Capturing ->
  nth_error blocks (Run.currentBlockIndex s) = Some b ->
  fst (Run.step blocks allClips exportSettings s
         (Run.AnimationFrame (endTime b) false))
  = Run.processNextBlock blocks allClips
      (Run.mk Run.Capturing
         (Run.mkVideo (Run.src (Run.vid s)) (Run.v_volume (Run.vid s))
            (Run.v_muted (Run.vid s)) (endTime b) true)
         (Run.audioSource s) (Run.audioSourceCreations s) (Run.rec s)
         (Run.videoBitsPerSecond s) (Run.chunks s)
         (Run.processedDuration s + (endTime b - startTime b))
         (Run.totalDuration s) (S (Run.currentBlockIndex s))
         (Run.frames s) (Run.warnings s) (Run.result s)).
Proof.
  intros Hph Hb. unfold Run.step. rewrite Hph.
  unfold Run.captureLoop. rewrite Hb.
  assert (Hge : JS.Qgeb (endTime b) (endTime b) = true)
    by (apply Qgeb_true; lra).
  rewrite Hge, Hph. reflexivity.
Qed.

Lemma exec_early_frames (b : TimelineBlock) (early : list Q) :
  forall s,
    Run.ph s = Run.Capturing ->
    nth_error blocks (Run.currentBlockIndex s) = Some b ->
    (forall t, In t early -> t < endTime b) ->
    let s' := fst (Run.exec blocks allClips exportSettings s
                     (map (fun t => Run.AnimationFrame t false) early)) in
    Run.ph s' = Run.Capturing
    /\ Run.currentBlockIndex s' = Run.currentBlockIndex s
    /\ Run.same_outside s s'.
Proof.
  induction early as [|t rest IH]; intros s Hph Hb Hearly.
  - simpl. unfold Run.same_outside. repeat split; auto.
  - cbn [map]. cbv zeta.
    rewrite exec_cons_fst.
    rewrite (step_frame_early s b t Hph Hb (Hearly t (or_introl eq_refl))).
    match goal with
    | |- context [Run.exec _ _ _ ?s1 _] =>
        destruct (IH s1 eq_refl Hb (fun x Hx => Hearly x (or_intror Hx)))
          as (H1 & H2 & H3 & H4 & H5 & H6)
    end.
    simpl in *. unfold Run.same_outside. auto.
Qed.

(** A block with a clip that plays through hands over to
    [processNextBlock] at the next index. *)
Lemma exec_play_block (b : TimelineBlock) (early : list Q) (s : Run.state) :
  Run.ph s = Run.AwaitMetadata ->
  nth_error blocks (Run.currentBlockIndex s) = Some b ->
  Run.has_clip allClips b = true ->
  (forall t, In t early -> t < endTime b) ->
  exists s1,
    fst (Run.exec blocks allClips exportSettings s
           (Run.play_block early (endTime b)))
    = Run.processNextBlock blocks allClips s1
    /\ Run.currentBlockIndex s1 = S (Run.currentBlockIndex s)
    /\ Run.same_outside s s1.
Proof.
  intros Hph Hb Hclip Hearly.
  assert (Hfind : exists clip, Store.find_clip (clipId b) allClips = Some clip).
  { unfold Run.has_clip in Hclip.
    destruct (Store.find_clip (clipId b) allClips); [eauto|discriminate]. }
  destruct Hfind as [clip Hfind].
  unfold Run.play_block. cbn [app].
  rewrite exec_cons_fst.
  assert (H1 : Run.step blocks allClips exportSettings s Run.LoadedMetadata
               = (Run.apply_block blocks allClips s, []))
    by (unfold Run.step; rewrite Hph; reflexivity).
  rewrite H1. cbn [fst]. unfold Run.apply_block. rewrite Hb, Hfind.
  rewrite exec_cons_fst. cbn [Run.step Run.ph fst].
  rewrite exec_cons_fst. cbn [Run.step Run.ph Run.set_ph Run.set_vid fst].
  rewrite exec_app_fst.
  match goal with
  | |- context [Run.exec _ _ _ ?s0 (map _ early)] =>
      destruct (exec_early_frames b early s0 eq_refl Hb Hearly)
        as (Hph' & Hidx' & Hr & Hres & Hch & Hw);
      set (sE := fst (Run.exec blocks allClips exportSettings s0
                        (map (fun t => Run.AnimationFrame t false) early))) in *
  end.
  cbn [Run.currentBlockIndex] in Hidx'.
  rewrite exec_cons_fst. cbn [Run.exec fst].
  rewrite (step_frame_end sE b Hph'); [|rewrite Hidx'; exact Hb].
  eexists. split; [reflexivity|].
  unfold Run.same_outside. simpl in *. rewrite Hidx'. auto.
Qed.

(** All the blocks from an index on: those without a clip are warned
    about, the others play through, and the recorder is asked to stop. *)
Lemma exec_play_all (early : TimelineBlock -> list Q) (rest : list TimelineBlock) :
  forall (idx : nat) (s : Run.state),
    skipn idx blocks = rest ->
    (forall b t, In b rest -> In t (early b) -> t < endTime b) ->
    Run.rec s = Run.RecRecording ->
    let s' := fst (Run.exec blocks allClips exportSettings
                     (Run.processNextBlock_from allClips rest idx s)
                     (Run.play_all allClips early rest)) in
    Run.ph s' = Run.Returned
    /\ Run.rec s' = Run.RecStopRequested
    /\ Run.result s' = Run.result s
    /\ Run.chunks s' = Run.chunks s
    /\ Run.warnings s'
       = Run.warnings s
         ++ map clipId (filter (fun b => negb (Run.has_clip allClips b)) rest)
    /\ Run.currentBlockIndex s' = (idx + List.length rest)%nat.
Proof.
  induction rest as [|b rest' IH]; intros idx s Hskip Hearly Hrec.
  - simpl. unfold Run.recorder_stop. simpl. rewrite Hrec. simpl.
    rewrite app_nil_r. repeat split; auto.
  - assert (Hb : nth_error blocks idx = Some b).
    { rewrite <- hd_error_skipn, Hskip. reflexivity. }
    pose proof (skipn_succ_tail idx blocks b rest' Hskip) as Hskip'.
    assert (Hearly' : forall x t, In x rest' -> In t (early x) -> t < endTime x)
      by (intros x t Hx; apply Hearly; right; exact Hx).
    cbn [Run.processNextBlock_from]. unfold Run.play_all in *. cbn [filter].
    destruct (Store.find_clip (clipId b) allClips) as [clip|] eqn:Hfind.
    + assert (Hhc : Run.has_clip allClips b = true)
        by (unfold Run.has_clip; rewrite Hfind; reflexivity).
      rewrite Hhc. cbn [map List.concat negb]. cbv zeta.
      rewrite exec_app_fst.
      match goal with
      | |- context [Run.exec _ _ _ ?s0 (Run.play_block _ _)] =>
          destruct (exec_play_block b (early b) s0 eq_refl Hb) as
            (s1 & Hexec & Hidx1 & Hr1 & Hres1 & Hch1 & Hw1)
      end.
      { exact Hhc. }
      { intros t Ht. apply (Hearly b t); [left; reflexivity|exact Ht]. }
      rewrite Hexec. unfold Run.processNextBlock.
      simpl in Hidx1. rewrite Hidx1, Hskip'.
      simpl in Hr1, Hres1, Hch1, Hw1.
      specialize (IH (S idx) s1 Hskip' Hearly').
      destruct IH as (H1 & H2 & H3 & H4 & H5 & H6); [congruence|].
      rewrite H1, H2, H3, H4, H5, H6, Hres1, Hch1, Hw1.
      repeat split; auto; simpl; lia.
    + assert (Hhc : Run.has_clip allClips b = false)
        by (unfold Run.has_clip; rewrite Hfind; reflexivity).
      rewrite Hhc. cbn [negb map]. cbv zeta.
      match goal with
      | |- context [Run.processNextBlock_from _ _ _ ?s0] =>
          specialize (IH (S idx) s0 Hskip' Hearly' Hrec)
      end.
      destruct IH as (H1 & H2 & H3 & H4 & H5 & H6).
      rewrite H1, H2, H3, H4, H5, H6. simpl.
      rewrite <- app_assoc. simpl.
      repeat split; auto; lia.
Qed.

Lemma step_data (s : Run.state) (n : nat) :
  Run.rec s = Run.RecStopRequested ->
  let s' := fst (Run.step blocks allClips exportSettings s (Run.DataAvailable n)) in
  Run.rec s' = Run.RecStopRequested
  /\ Run.result s' = Run.result s
  /\ Run.chunks s' = Run.chunks s ++ filter (Nat.ltb 0) [n]
  /\ Run.warnings s' = Run.warnings s
  /\ Run.currentBlockIndex s' = Run.currentBlockIndex s.
Proof.
  intros Hrec. unfold Run.step. simpl.
  destruct (Run.ph s); rewrite Hrec; destruct (Nat.ltb 0 n); simpl;
    rewrite ?app_nil_r; auto.
Qed.

Lemma exec_data (sizes : list nat) :
  forall s,
    Run.rec s = Run.RecStopRequested ->
    let s' := fst (Run.exec blocks allClips exportSettings s
                     (map Run.DataAvailable sizes)) in
    Run.rec s' = Run.RecStopRequested
    /\ Run.result s' = Run.result s
    /\ Run.chunks s' = Run.chunks s ++ filter (Nat.ltb 0) sizes
    /\ Run.warnings s' = Run.warnings s
    /\ Run.currentBlockIndex s' = Run.currentBlockIndex s.
Proof.
  induction sizes as [|n rest IH]; intros s Hrec.
  - simpl. rewrite app_nil_r. auto.
  - cbn [map]. cbv zeta. rewrite exec_cons_fst.
    destruct (step_data s n Hrec) as (H1 & H2 & H3 & H4 & H5).
    destruct (IH _ H1) as (G1 & G2 & G3 & G4 & G5).
    rewrite G1, G2, G3, G4, G5, H2, H3, H4, H5.
    cbn [filter]. destruct (Nat.ltb 0 n);
      rewrite <- ?app_assoc, ?app_nil_r; auto.
Qed.

End PlayThrough.

(** C10, as stated, fails for the first block: its clip is missing, and
    the run is rejected with "First clip not found" before the recorder is
    created; whatever is delivered later, there is no blob.  The panel
    reports the failure and leaves the exporting state. *)
Lemma missing_first_clip_rejects :
  let blocks := [block_gone; block_five] in
  let r := Run.run blocks [clip_one] (mkSettings webm medium)
             (Run.LoadedMetadata
              :: Run.play_all [clip_one] (fun _ => []) blocks
              ++ [Run.RecorderStopped]) in
  let st := Panel.handleExport
              (Store.mk [clip_one] blocks (mkPlayback false 0 10 None) [])
              (mkSettings webm medium) plain_env Panel.initial_ui in
  Run.has_clip [clip_one] block_gone = false
  /\ Run.has_clip [clip_one] block_five = true
  /\ Run.result (fst r) = Run.Rejected "First clip not found"
  /\ Run.rec (fst r) = Run.RecAbsent
  /\ snd r = []
  /\ Panel.ph st = Panel.Finished
  /\ Panel.toasts (Panel.u st) = [Panel.ToastError "First clip not found"]
  /\ Panel.isExporting (Panel.u st) = false.
Proof.
  vm_compute. repeat split; reflexivity.
Qed.

Lemma in_firstn {A : Type} (n : nat) (l : list A) (x : A) :
  In x (firstn n l) -> In x l.
Proof.
  intros H. rewrite <- (firstn_skipn n l). apply in_or_app. left. exact H.
Qed.

Lemma progress_after_below_95 (blocks : list TimelineBlock)
    (allClips : list VideoClip) (n : nat) :
  (exists b, In b blocks /\ Run.has_clip allClips b = false) ->
  (forall b, In b blocks ->
     duration b == endTime b - startTime b /\ 0 < duration b) ->
  Forall (fun p => exists q, p = Fin q /\ q < 95)
    (Run.progress_after blocks
       (filter (Run.has_clip allClips) (firstn n blocks))).
Proof.
  intros (x & Hx & Hmiss) Hdur.
  assert (Hnonneg : forall b, In b blocks -> 0 <= duration b)
    by (intros b Hb; destruct (Hdur b Hb); lra).
  unfold Run.progress_after.
  constructor; [exists 5; split; reflexivity|].
  apply Forall_forall. intros p Hin. apply in_map_iff in Hin.
  destruct Hin as (c & <- & Hc).
  assert (Hbound : c <= 0 + Store.sum_durations
                              (filter (Run.has_clip allClips) (firstn n blocks))).
  { apply running_totals_bound; [|exact Hc].
    intros b Hb. apply filter_In in Hb. destruct Hb as [Hb _].
    apply in_firstn in Hb. destruct (Hdur b Hb) as [He Hp].
    unfold Run.segmentDuration. split; [exact He|lra]. }
  pose proof (sum_filter_firstn_le (Run.has_clip allClips) blocks Hnonneg n)
    as Hprefix.
  assert (Hstrict : Store.sum_durations (filter (Run.has_clip allClips) blocks)
                    < Store.sum_durations blocks).
  { apply sum_filter_lt; [exact Hnonneg|].
    exists x. repeat split; auto. apply (Hdur x Hx). }
  pose proof (reduce_duration_sum blocks) as Hsum.
  assert (Hpos : 0 <= Store.sum_durations
                        (filter (Run.has_clip allClips) blocks)).
  { apply sum_durations_nonneg. intros b Hb.
    apply filter_In in Hb. apply Hnonneg. tauto. }
  apply capture_progress_below_95; lra.
Qed.


(** A run that has nothing scheduled and no recorder ignores every event. *)
Lemma exec_idle (blocks : list TimelineBlock) (allClips : list VideoClip)
    (exportSettings : ExportSettings) (events : list Run.event)
    (s : Run.state) :
  Run.ph s = Run.Returned -> Run.rec s = Run.RecAbsent ->
  Run.exec blocks allClips exportSettings s events = (s, []).
Proof.
  intros Hph Hrec. induction events as [|e rest IH]; [reflexivity|].
  cbn [Run.exec].
  assert (Hstep : Run.step blocks allClips exportSettings s e = (s, [])).
  { unfold Run.step. rewrite Hph, Hrec. destruct e; reflexivity. }
  rewrite Hstep, IH. reflexivity.
Qed.

(** C10, amended.  In every run: frames are drawn only for blocks that
    have a clip, and the denominator of the progress is the total of the
    [duration] fields of all blocks, skipped ones included; so when some block
    has no clip and every block has [duration = endTime - startTime > 0],
    every reported progress value is below 95.  When the first block has a
    clip and the blocks that have one play through, every block without a clip
    is passed over with a warning and the promise is resolved with the blob
    of the recorded chunks.  When the clip of the first block is missing, the
    run is rejected with "First clip not found" before the recorder is
    created, and whatever arrives later changes nothing: no recorder, no
    frame, no chunk, no warning, no progress value. *)
Theorem missing_clip_blocks_are_skipped
    (blocks : list TimelineBlock) (allClips : list VideoClip)
    (exportSettings : ExportSettings) :
  (forall events,
      let s := fst (Run.run blocks allClips exportSettings events) in
      let out := snd (Run.run blocks allClips exportSettings events) in
      (forall i t, In (i, t) (Run.frames s) ->
         exists b, nth_error blocks i = Some b /\ Run.has_clip allClips b = true)
      /\ (Run.rec s <> Run.RecAbsent ->
          Run.totalDuration s = Store.reduce_duration blocks)
      /\ ((exists b, In b blocks /\ Run.has_clip allClips b = false) ->
          (forall b, In b blocks ->
             duration b == endTime b - startTime b /\ 0 < duration b) ->
          Forall (fun p => exists q, p = Fin q /\ q < 95) out))
  /\ (forall firstBlock rest early sizes,
        blocks = firstBlock :: rest ->
        Run.has_clip allClips firstBlock = true ->
        (forall b t, In b blocks -> In t (early b) -> t < endTime b) ->
        let final :=
          fst (Run.run blocks allClips exportSettings
                 (Run.LoadedMetadata
                  :: Run.play_all allClips early blocks
                  ++ map Run.DataAvailable sizes
                  ++ [Run.RecorderStopped])) in
        Run.result final = Run.Resolved (filter (Nat.ltb 0) sizes)
        /\ Run.warnings final
           = map clipId
               (filter (fun b => negb (Run.has_clip allClips b)) blocks)
        /\ Run.currentBlockIndex final = List.length blocks)
  /\ (forall firstBlock rest events,
        blocks = firstBlock :: rest ->
        Run.has_clip allClips firstBlock = false ->
        let s := fst (Run.run blocks allClips exportSettings events) in
        Run.result s = Run.Rejected "First clip not found"
        /\ Run.rec s = Run.RecAbsent
        /\ Run.ph s = Run.Returned
        /\ Run.frames s = []
        /\ Run.chunks s = []
        /\ Run.warnings s = []
        /\ Run.audioSourceCreations s = 0%nat
        /\ snd (Run.run blocks allClips exportSettings events) = []).
Proof.
  split; [|split].
  - intros events s out.
    destruct (run_coherent blocks allClips exportSettings events)
      as (Habs & Hrec & _ & Hfr & _).
    fold s in Habs, Hrec, Hfr. fold out in Habs, Hrec.
    split; [exact Hfr|]. split; [intros Hr; apply (Hrec Hr)|].
    intros (x & Hx & Hmiss) Hdur.
    destruct (Run.rec s) eqn:Erec.
    { rewrite (Habs eq_refl). constructor. }
    all: destruct Hrec as (Hout & _ & _); [discriminate|].
    all: rewrite Hout; apply progress_after_below_95; eauto.
  - intros firstBlock rest early sizes Hblocks Hfirst Hearly final.
    assert (Hstart : Run.ph (Run.processAndMergeSegments blocks allClips)
                     = Run.AwaitFirstMetadata
                     /\ Run.result (Run.processAndMergeSegments blocks allClips)
                        = Run.Pending
                     /\ Run.chunks (Run.processAndMergeSegments blocks allClips)
                        = []
                     /\ Run.warnings (Run.processAndMergeSegments blocks allClips)
                        = []).
    { unfold Run.processAndMergeSegments. rewrite Hblocks.
      unfold Run.has_clip in Hfirst.
      destruct (Store.find_clip (clipId firstBlock) allClips);
        [|discriminate].
      repeat split; reflexivity. }
    destruct Hstart as (Hph0 & Hres0 & Hch0 & Hw0).
    assert (Hfinal : exists sD,
               final = Run.resolve (Run.chunks sD)
                         (Run.set_rec Run.RecStopped sD)
               /\ Run.result sD = Run.Pending
               /\ Run.chunks sD = filter (Nat.ltb 0) sizes
               /\ Run.warnings sD
                  = map clipId
                      (filter (fun b => negb (Run.has_clip allClips b)) blocks)
               /\ Run.currentBlockIndex sD = List.length blocks).
    { subst final. unfold Run.run.
      rewrite exec_cons_fst.
      unfold Run.step at 1. rewrite Hph0.
      unfold Run.start_recording. cbn [fst]. unfold Run.processNextBlock.
      cbn [Run.currentBlockIndex skipn].
      rewrite exec_app_fst.
      match goal with
      | |- context [Run.processNextBlock_from _ _ _ ?s1] =>
          destruct (exec_play_all blocks allClips exportSettings early blocks
                      0%nat s1 eq_refl Hearly eq_refl)
            as (P1 & P2 & P3 & P4 & P5 & P6)
      end.
      cbn [Run.result Run.chunks Run.warnings] in P3, P4, P5.
      rewrite exec_app_fst.
      match goal with
      | |- context [Run.exec _ _ _ ?s2 (map Run.DataAvailable sizes)] =>
          destruct (exec_data blocks allClips exportSettings sizes s2 P2)
            as (D1 & D2 & D3 & D4 & D5);
          set (sD := fst (Run.exec blocks allClips exportSettings s2
                            (map Run.DataAvailable sizes))) in *
      end.
      exists sD.
      rewrite exec_cons_fst. cbn [Run.exec fst].
      split.
      - unfold Run.step. rewrite D1. destruct (Run.ph sD); reflexivity.
      - rewrite D2, D3, D4, D5, P3, P4, P5, P6, Hres0, Hch0, Hw0.
        repeat split; reflexivity. }
    destruct Hfinal as (sD & Hf & E1 & E2 & E3 & E4).
    clearbody final. subst final.
    unfold Run.resolve. cbn [Run.set_rec Run.result]. rewrite E1.
    cbn [Run.set_result Run.set_rec Run.result Run.warnings
         Run.currentBlockIndex].
    rewrite E2, E3, E4. repeat split; reflexivity.
  - intros firstBlock rest events Hblocks Hmiss s.
    assert (Hstart : Run.processAndMergeSegments blocks allClips
                     = Run.mk Run.Returned Run.fresh_video false 0%nat
                         Run.RecAbsent 0 [] 0 0 0%nat [] []
                         (Run.Rejected "First clip not found")).
    { unfold Run.processAndMergeSegments. rewrite Hblocks.
      unfold Run.has_clip in Hmiss.
      destruct (Store.find_clip (clipId firstBlock) allClips);
        [discriminate|].
      reflexivity. }
    subst s. unfold Run.run. rewrite Hstart.
    rewrite exec_idle by reflexivity.
    cbn. repeat split; reflexivity.
Qed.

Lemma missing_clip_blocks_are_skipped_witness :
  let blocks := [block_five; block_lost; block_five] in
  let final :=
    fst (Run.run blocks [clip_one] (mkSettings webm medium)
           (Run.LoadedMetadata
            :: Run.play_all [clip_one] (fun _ => [1; 2]) blocks
            ++ map Run.DataAvailable [7%nat; 0%nat; 9%nat]
            ++ [Run.RecorderStopped])) in
  Run.has_clip [clip_one] block_five = true
  /\ Run.has_clip [clip_one] block_lost = false
  /\ Run.result final = Run.Resolved [7%nat; 9%nat]
  /\ Run.warnings final = ["gone"%string]
  /\ Forall (fun p => exists q, p = Fin q /\ q < 95)
       (snd (Run.run blocks [clip_one] (mkSettings webm medium)
               (Run.LoadedMetadata
                :: Run.play_all [clip_one] (fun _ => [1; 2]) blocks)))
  /\ Run.has_clip [clip_one] block_gone = false
  /\ Run.result
       (fst (Run.run [block_gone; block_five] [clip_one]
               (mkSettings webm medium)
               [Run.LoadedMetadata; Run.RecorderStopped]))
     = Run.Rejected "First clip not found".
Proof.
  intros blocks final.
  split; [reflexivity|]. split; [reflexivity|].
  pose proof (missing_clip_blocks_are_skipped blocks [clip_one]
                (mkSettings webm medium)) as (Hsafe & Hlive & _).
  assert (Hearly : forall b t, In b blocks -> In t [1; 2] -> t < endTime b).
  { intros b t Hb Ht. simpl in Hb, Ht.
    destruct Hb as [<-|[<-|[<-|[]]]]; destruct Ht as [<-|[<-|[]]];
      vm_compute; reflexivity. }
  destruct (Hlive block_five [block_lost; block_five] (fun _ => [1; 2])
              [7%nat; 0%nat; 9%nat] eq_refl eq_refl Hearly)
    as (H1 & H2 & _).
  split; [exact H1|]. split; [exact H2|].
  split.
  { apply (Hsafe (Run.LoadedMetadata
                  :: Run.play_all [clip_one] (fun _ => [1; 2]) blocks)).
    - exists block_lost. split; [simpl; auto|reflexivity].
    - intros b Hb. simpl in Hb.
      destruct Hb as [<-|[<-|[<-|[]]]]; split; vm_compute; reflexivity. }
  assert (Hmiss : Run.has_clip [clip_one] block_gone = false) by reflexivity.
  split; [exact Hmiss|].
  exact (proj1 (proj2 (proj2
           (missing_clip_blocks_are_skipped [block_gone; block_five]
              [clip_one] (mkSettings webm medium)))
           block_gone [block_five] [Run.LoadedMetadata; Run.RecorderStopped]
           eq_refl Hmiss)).
Defined.

(** * Further properties *)

(** *** Order in a run *)

Lemma strongly_sorted_snoc (l : list nat) (x : nat) :
  StronglySorted le l -> Forall (fun y => (y <= x)%nat) l ->
  StronglySorted le (l ++ [x]).
Proof.
  induction l as [|a l IH]; intros Hs Hall; simpl.
  - constructor; constructor.
  - inversion Hs as [|? ? Hs' Ha]; subst.
    inversion Hall as [|? ? Hax Hall']; subst.
    constructor.
    + apply IH; assumption.
    + apply Forall_app. split; [exact Ha|]. constructor; [exact Hax|constructor].
Qed.

Section OrderlyFacts.

Variable blocks : list TimelineBlock.
Variable allClips : list VideoClip.
Variable exportSettings : ExportSettings.

(** Where [processNextBlock] ends, in full: either at the end of the list
    with the recorder asked to stop (if it was recording), or on a block that
    has a clip, whose file is the element's new source. *)
Lemma processNextBlock_from_end (rest : list TimelineBlock) :
  forall (idx : nat) (s : Run.state),
    let s' := Run.processNextBlock_from allClips rest idx s in
    (Run.ph s' = Run.Returned
     /\ Run.currentBlockIndex s' = (idx + List.length rest)%nat
     /\ Run.rec s' = match Run.rec s with
                     | Run.RecRecording => Run.RecStopRequested
                     | r => r
                     end)
    \/ (Run.ph s' = Run.AwaitMetadata
        /\ Run.rec s' = Run.rec s
        /\ exists k b clip,
            Run.currentBlockIndex s' = (idx + k)%nat
            /\ nth_error rest k = Some b
            /\ Store.find_clip (clipId b) allClips = Some clip
            /\ Run.src (Run.vid s') = Some (file clip)).
Proof.
  induction rest as [|block rest' IH]; intros idx s; simpl.
  - left. unfold Run.recorder_stop. simpl.
    destruct (Run.rec s) eqn:Hrec; simpl; rewrite ?Hrec;
      repeat split; lia.
  - destruct (Store.find_clip (clipId block) allClips) as [clip|] eqn:Hfind.
    + right. simpl. split; [reflexivity|]. split; [reflexivity|].
      exists 0%nat, block, clip. simpl.
      split; [lia|]. split; [reflexivity|]. split; [exact Hfind|reflexivity].
    + match goal with
      | |- context [Run.processNextBlock_from _ _ _ ?s1] =>
          destruct (IH (S idx) s1) as [(H1 & H2 & H3)|(H1 & H2 & k & b & c & H3 & H4 & H5 & H6)]
      end.
      * left. simpl in *.
        split; [exact H1|]. split; [rewrite H2; lia|].
        exact H3.
      * right. simpl in *.
        split; [exact H1|]. split; [exact H2|].
        exists (S k), b, c. simpl.
        split; [rewrite H3; lia|]. split; [exact H4|]. split; assumption.
Qed.

Lemma orderly_start :
  Orderly.orderly blocks allClips (Run.processAndMergeSegments blocks allClips).
Proof.
  assert (Hidle : forall (s : Run.state),
             Run.currentBlockIndex s = 0%nat ->
             Run.rec s = Run.RecAbsent -> Run.frames s = [] ->
             Run.chunks s = [] ->
             (Run.result s = Run.Pending \/ exists m, Run.result s = Run.Rejected m) ->
             Run.ph s = Run.Returned \/ Run.ph s = Run.AwaitFirstMetadata ->
             Orderly.orderly blocks allClips s).
  { intros s Hidx Hrec Hfr Hch Hres Hph. unfold Orderly.orderly.
    rewrite Hidx, Hfr, Hrec.
    split; [lia|].
    split; [intros _; repeat split; auto|].
    split; [intros [H|H]; discriminate|].
    split; [intros blob Hb; destruct Hres as [Hr|[m Hr]]; congruence|].
    split; [intros i t []|].
    split; [constructor|].
    split; [intros Hact; exfalso; intuition congruence|].
    split; [intros Hact; exfalso; intuition congruence|].
    reflexivity. }
  unfold Run.processAndMergeSegments.
  destruct blocks as [|firstBlock rest].
  - apply Hidle; simpl; eauto.
  - destruct (Store.find_clip (clipId firstBlock) allClips);
      apply Hidle; simpl; eauto.
Qed.

(** [processNextBlock] from an orderly situation. *)
Lemma orderly_after_processNextBlock (s1 : Run.state) :
  (Run.currentBlockIndex s1 <= List.length blocks)%nat ->
  (Run.rec s1 = Run.RecRecording \/ Run.rec s1 = Run.RecFailed) ->
  (forall blob, Run.result s1 <> Run.Resolved blob) ->
  (forall i t, In (i, t) (Run.frames s1) ->
     (i <= Run.currentBlockIndex s1)%nat
     /\ exists b, nth_error blocks i = Some b /\ t < endTime b) ->
  StronglySorted le (map fst (Run.frames s1)) ->
  Orderly.orderly blocks allClips (Run.processNextBlock blocks allClips s1).
Proof.
  intros Hidx Hrec Hres Hframes Hsorted.
  pose proof (processNextBlock_from_frame allClips
                (skipn (Run.currentBlockIndex s1) blocks)
                (Run.currentBlockIndex s1) s1) as Hf.
  pose proof (processNextBlock_from_end
                (skipn (Run.currentBlockIndex s1) blocks)
                (Run.currentBlockIndex s1) s1) as He.
  fold (Run.processNextBlock blocks allClips s1) in Hf, He.
  simpl in Hf, He.
  destruct Hf as (_ & _ & _ & _ & Hfr & Hr & _ & _ & _).
  set (s' := Run.processNextBlock blocks allClips s1) in *.
  assert (Hlen : (Run.currentBlockIndex s1
                  + List.length (skipn (Run.currentBlockIndex s1) blocks)
                  = List.length blocks)%nat).
  { rewrite length_skipn. lia. }
  assert (Hidx' : (Run.currentBlockIndex s1 <= Run.currentBlockIndex s'
                   <= List.length blocks)%nat).
  { destruct He as [(_ & H2 & _)|(_ & _ & k & b & c & H3 & H4 & _)].
    - rewrite H2, Hlen. lia.
    - rewrite H3. assert (k < List.length (skipn (Run.currentBlockIndex s1) blocks))%nat.
      { apply nth_error_Some. congruence. }
      lia. }
  unfold Orderly.orderly. rewrite Hfr, Hr.
  split; [lia|].
  split.
  { intros Habs. exfalso.
    destruct He as [(_ & _ & H3)|(_ & H2 & _)].
    - rewrite H3 in Habs.
      destruct Hrec as [Hrec|Hrec]; rewrite Hrec in Habs; congruence.
    - destruct Hrec; congruence. }
  split.
  { intros Hstop.
    destruct He as [(H1 & H2 & _)|(_ & H2 & _)].
    - split; [exact H1|]. rewrite H2. exact Hlen.
    - exfalso. destruct Hrec, Hstop; congruence. }
  split; [intros blob Hb; exfalso; apply (Hres blob Hb)|].
  split.
  { intros i t Hin. destruct (Hframes i t Hin) as [Hi Hb]. split; [lia|exact Hb]. }
  split; [exact Hsorted|].
  split.
  { intros Hact. exfalso.
    destruct He as [(H1 & _)|(H1 & _)]; rewrite H1 in Hact;
      intuition discriminate. }
  split.
  { intros Hph.
    destruct He as [(H1 & _)|(_ & _ & k & b & c & H3 & H4 & H5 & H6)];
      [congruence|].
    exists b, c. split; [|split; assumption].
    rewrite H3. rewrite nth_error_skipn in H4. exact H4. }
  intros Hph. exfalso.
  destruct He as [(H1 & _)|(H1 & _)]; congruence.
Qed.

Ltac easy_orderly :=
  rewrite ?app_nil_r; unfold Orderly.orderly, Orderly.tuned, Orderly.loading in *;
  simpl in *; intuition (try congruence).

Lemma orderly_step (s : Run.state) (e : Run.event) :
  Orderly.orderly blocks allClips s ->
  Orderly.orderly blocks allClips
    (fst (Run.step blocks allClips exportSettings s e)).
Proof.
  intros Ho.
  destruct e; unfold Run.step.
  - destruct (Run.ph s) eqn:Hph; try (simpl; easy_orderly; fail).
    + (* the recorder starts *)
      destruct Ho as (Hidx & Habs & _ & Hres & _ & _ & _ & _ & Hfirst).
      destruct (Habs (Hfirst Hph)) as (Hfr & _ & _).
      unfold Run.start_recording. cbn [fst].
      apply orderly_after_processNextBlock;
        cbn [Run.currentBlockIndex Run.rec Run.result Run.frames].
      * lia.
      * left. reflexivity.
      * intros blob Hb. destruct (Hres blob Hb) as [Hr _].
        rewrite (Hfirst Hph) in Hr. discriminate.
      * rewrite Hfr. intros i t [].
      * rewrite Hfr. constructor.
    + (* the block's clip is loaded *)
      destruct Ho as (Hidx & Habs & Hstop & Hres & Hfr & Hso & _ & Hload & _).
      destruct (Hload Hph) as (b & clip & Hb & Hfind & Hsrc).
      unfold Run.apply_block. rewrite Hb, Hfind. cbn [fst].
      unfold Orderly.orderly. simpl.
      split; [exact Hidx|].
      split; [intros Hr; destruct (Habs Hr) as (_ & _ & [H|H]); congruence|].
      split; [intros Hr; destruct (Hstop Hr) as [H _]; congruence|].
      split; [exact Hres|]. split; [exact Hfr|]. split; [exact Hso|].
      split; [intros _; exists b, clip; simpl; auto|].
      split; discriminate.
  - destruct (Run.ph s) eqn:Hph; try (simpl; easy_orderly; fail).
  - destruct (Run.ph s) eqn:Hph; try (simpl; easy_orderly; fail).
  - destruct (Run.ph s) eqn:Hph; try (simpl; easy_orderly; fail).
    (* an animation frame in the capture loop *)
    destruct Ho as (Hidx & Habs & Hstop & Hres & Hfr & Hso & Htuned & _ & _).
    destruct Htuned as (b & clip & Hb & Hfind & Hsrc & Hvol & Hmut); [auto|].
    assert (Hrec : Run.rec s = Run.RecRecording \/ Run.rec s = Run.RecFailed).
    { destruct (Run.rec s) eqn:Hr; auto.
      - destruct (Habs eq_refl) as (_ & _ & [H|H]); congruence.
      - destruct (Hstop (or_introl eq_refl)) as [H _]; congruence.
      - destruct (Hstop (or_intror eq_refl)) as [H _]; congruence. }
    assert (Hnores : forall blob, Run.result s <> Run.Resolved blob).
    { intros blob Hr. destruct (Hres blob Hr) as [H _].
      destruct Hrec; congruence. }
    assert (Hlt : (Run.currentBlockIndex s < List.length blocks)%nat).
    { apply nth_error_Some. congruence. }
    unfold Run.captureLoop. rewrite Hb.
    destruct (JS.Qgeb videoTime (endTime b) || ended) eqn:Hend.
    + cbn [fst].
      apply orderly_after_processNextBlock;
        cbn [Run.currentBlockIndex Run.rec Run.result Run.frames];
        auto; try lia.
      intros i t Hin. destruct (Hfr i t Hin) as [Hi Hx]. split; [lia|exact Hx].
    + apply orb_false_iff in Hend. destruct Hend as [Hlt' _].
      apply Qgeb_false in Hlt'.
      cbn [fst]. unfold Orderly.orderly. simpl.
      split; [exact Hidx|].
      split; [intros Hr; destruct Hrec; congruence|].
      split; [intros Hr; destruct Hrec, Hr; congruence|].
      split; [exact Hres|].
      split.
      { intros i t Hin. apply in_app_or in Hin. destruct Hin as [Hin|Hin].
        - apply (Hfr i t Hin).
        - simpl in Hin. destruct Hin as [Hin|[]]. injection Hin as <- <-.
          split; [lia|]. exists b. auto. }
      split.
      { rewrite map_app. simpl. apply strongly_sorted_snoc; [exact Hso|].
        apply Forall_forall. intros y Hy. apply in_map_iff in Hy.
        destruct Hy as ([i t] & <- & Hin). simpl.
        apply (Hfr i t Hin). }
      split; [intros _; exists b, clip; simpl; auto|].
      split; discriminate.
  - destruct (Run.ph s) eqn:Hph; destruct (Run.rec s) eqn:Hrec;
      try destruct (Nat.ltb 0 size);
      try (simpl; easy_orderly; fail).
    all: assert (Hno : forall chunks, Run.result s <> Run.Resolved chunks)
           by (intros chunks Hr; destruct Ho as (_ & _ & _ & Hres & _);
               destruct (Hres chunks Hr); congruence).
    all: unfold Orderly.orderly, Orderly.tuned, Orderly.loading in *;
      simpl in *; intuition (try congruence);
      exfalso; eapply Hno; eassumption.
  - destruct (Run.ph s) eqn:Hph; destruct (Run.rec s) eqn:Hrec;
      unfold Run.resolve; simpl; try destruct (Run.result s) eqn:Hres;
      try (simpl; easy_orderly; fail).
    all: assert (Hno : forall chunks, Run.result s <> Run.Resolved chunks)
           by (intros chunks Hr; destruct Ho as (_ & _ & _ & Hres' & _);
               destruct (Hres' chunks Hr); congruence).
    all: try (exfalso; eapply Hno; eassumption).
    all: unfold Orderly.orderly, Orderly.tuned, Orderly.loading in *;
      simpl in *; intuition (try congruence);
      exfalso; eapply Hno; eassumption.
  - destruct (Run.ph s) eqn:Hph; destruct (Run.rec s) eqn:Hrec;
      unfold Run.reject; simpl; try destruct (Run.result s) eqn:Hres;
      try (simpl; easy_orderly; fail).
    all: assert (Hno : forall chunks, Run.result s <> Run.Resolved chunks)
           by (intros chunks Hr; destruct Ho as (_ & _ & _ & Hres' & _);
               destruct (Hres' chunks Hr); congruence).
    all: try (exfalso; eapply Hno; eassumption).
    all: unfold Orderly.orderly, Orderly.tuned, Orderly.loading in *;
      simpl in *; intuition (try congruence);
      exfalso; eapply Hno; eassumption.
Qed.

(** Every run is orderly, whatever the browser delivers. *)
Lemma run_orderly (events : list Run.event) :
  Orderly.orderly blocks allClips
    (fst (Run.run blocks allClips exportSettings events)).
Proof.
  unfold Run.run.
  apply (exec_invariant blocks allClips exportSettings
           (fun s _ => Orderly.orderly blocks allClips s)
           (fun s out e H => orderly_step s e H)
           events _ [] orderly_start).
Qed.

End OrderlyFacts.

Section SettledRuns.

Variable blocks : list TimelineBlock.
Variable allClips : list VideoClip.
Variable exportSettings : ExportSettings.

Lemma step_keeps_result (s : Run.state) (e : Run.event) :
  Run.result s <> Run.Pending ->
  Run.result (fst (Run.step blocks allClips exportSettings s e)) = Run.result s.
Proof.
  intros Hset.
  assert (Hnext : forall s1,
             Run.result (Run.processNextBlock blocks allClips s1) = Run.result s1).
  { intros s1.
    destruct (processNextBlock_from_frame allClips
                (skipn (Run.currentBlockIndex s1) blocks)
                (Run.currentBlockIndex s1) s1) as (_ & _ & _ & _ & _ & Hr & _).
    exact Hr. }
  destruct e; unfold Run.step.
  - destruct (Run.ph s); simpl; auto.
    + rewrite Hnext. reflexivity.
    + unfold Run.apply_block.
      destruct (nth_error blocks (Run.currentBlockIndex s)) as [b|]; auto.
      destruct (Store.find_clip (clipId b) allClips); auto.
  - destruct (Run.ph s); simpl; auto.
  - destruct (Run.ph s); simpl; auto.
  - destruct (Run.ph s); simpl; auto.
    unfold Run.captureLoop.
    destruct (nth_error blocks (Run.currentBlockIndex s)) as [b|]; auto.
    destruct (JS.Qgeb videoTime (endTime b) || ended); simpl; auto.
    rewrite Hnext. reflexivity.
  - destruct (Run.ph s); destruct (Run.rec s);
      try destruct (Nat.ltb 0 size); simpl; auto.
  - destruct (Run.ph s); destruct (Run.rec s); unfold Run.resolve; simpl;
      auto; destruct (Run.result s) eqn:E; simpl; auto; congruence.
  - destruct (Run.ph s); destruct (Run.rec s); unfold Run.reject; simpl;
      auto; destruct (Run.result s) eqn:E; simpl; auto; congruence.
Qed.


(** Once nothing is scheduled any more, no event draws a frame or
    schedules anything. *)
Lemma exec_returned (events : list Run.event) :
  forall s,
    Run.ph s = Run.Returned ->
    Run.ph (fst (Run.exec blocks allClips exportSettings s events))
    = Run.Returned
    /\ Run.frames (fst (Run.exec blocks allClips exportSettings s events))
       = Run.frames s
    /\ snd (Run.exec blocks allClips exportSettings s events) = [].
Proof.
  induction events as [|e rest IH]; intros s Hph.
  - simpl. auto.
  - assert (Hstep : Run.ph (fst (Run.step blocks allClips exportSettings s e))
                    = Run.Returned
                    /\ Run.frames (fst (Run.step blocks allClips exportSettings s e))
                       = Run.frames s
                    /\ snd (Run.step blocks allClips exportSettings s e) = []).
    { destruct e; unfold Run.step; rewrite ?Hph; simpl; auto.
      - destruct (Run.rec s); try destruct (Nat.ltb 0 size); simpl; auto.
      - destruct (Run.rec s); unfold Run.resolve; simpl; auto.
        destruct (Run.result s); simpl; auto.
      - destruct (Run.rec s); unfold Run.reject; simpl; auto.
        destruct (Run.result s); simpl; auto. }
    destruct Hstep as (H1 & H2 & H3).
    destruct (IH _ H1) as (G1 & G2 & G3).
    rewrite exec_cons_fst. rewrite G1, G2, H2.
    split; [reflexivity|]. split; [reflexivity|].
    simpl.
    destruct (Run.step blocks allClips exportSettings s e) as [s1 o1].
    simpl in *.
    destruct (Run.exec blocks allClips exportSettings s1 rest) as [s2 o2].
    simpl in *. subst. reflexivity.
Qed.

End SettledRuns.

Section PendingRuns.

Variable blocks : list TimelineBlock.
Variable allClips : list VideoClip.
Variable exportSettings : ExportSettings.




End PendingRuns.





(** X3. The capture loop draws block by block and never past a trim end:
    in every run, each drawn frame belongs to a block of the list and was
    read strictly before that block's [endTime], and the frames follow the
    order of the blocks. *)
Theorem frames_in_block_order
    (blocks : list TimelineBlock) (allClips : list VideoClip)
    (exportSettings : ExportSettings) (events : list Run.event) :
  let s := fst (Run.run blocks allClips exportSettings events) in
  Forall (fun frame =>
            exists b, nth_error blocks (fst frame) = Some b
                      /\ Run.has_clip allClips b = true
                      /\ snd frame < endTime b)
         (Run.frames s)
  /\ StronglySorted le (map fst (Run.frames s)).
Proof.
  intros s.
  destruct (run_orderly blocks allClips exportSettings events)
    as (_ & _ & _ & _ & Hfr & Hso & _).
  destruct (run_coherent blocks allClips exportSettings events)
    as (_ & _ & _ & Hclip & _).
  fold s in Hfr, Hso, Hclip.
  split; [|exact Hso].
  apply Forall_forall. intros [i t] Hin. simpl.
  destruct (Hfr i t Hin) as (_ & b & Hb & Ht).
  destruct (Hclip i t Hin) as (b' & Hb' & Hc).
  exists b. split; [exact Hb|]. split; [congruence|exact Ht].
Qed.

(** X4. Frames are drawn only while the recorder records: none before it
    is started, and once [recorder.stop()] has been called no later event
    draws a frame, reports progress or schedules anything. *)
Theorem no_frames_outside_recording
    (blocks : list TimelineBlock) (allClips : list VideoClip)
    (exportSettings : ExportSettings) (before later : list Run.event) :
  let s1 := fst (Run.run blocks allClips exportSettings before) in
  let s2 := fst (Run.run blocks allClips exportSettings (before ++ later)) in
  (Run.rec s1 = Run.RecAbsent -> Run.frames s1 = [])
  /\ (Run.rec s1 = Run.RecStopRequested \/ Run.rec s1 = Run.RecStopped ->
      Run.frames s2 = Run.frames s1
      /\ Run.ph s2 = Run.Returned
      /\ snd (Run.run blocks allClips exportSettings (before ++ later))
         = snd (Run.run blocks allClips exportSettings before)).
Proof.
  intros s1 s2.
  destruct (run_orderly blocks allClips exportSettings before)
    as (_ & Habs & Hstop & _).
  fold s1 in Habs, Hstop.
  split; [intros Hr; apply (Habs Hr)|].
  intros Hr. destruct (Hstop Hr) as [Hph _].
  destruct (exec_returned blocks allClips exportSettings later s1 Hph)
    as (H1 & H2 & H3).
  subst s1 s2. unfold Run.run in *. rewrite exec_app. simpl.
  rewrite H1, H2, H3, app_nil_r. auto.
Qed.

Lemma no_frames_outside_recording_witness :
  Run.rec (fst (Run.run [block_five] [clip_one] (mkSettings webm medium)
                  finished_run)) = Run.RecStopped
  /\ Run.frames
       (fst (Run.run [block_five] [clip_one] (mkSettings webm medium)
               (finished_run ++ [Run.AnimationFrame 3 false])))
     = Run.frames
         (fst (Run.run [block_five] [clip_one] (mkSettings webm medium)
                 finished_run)).
Proof.
  assert (H : Run.rec
                (fst (Run.run [block_five] [clip_one] (mkSettings webm medium)
                        finished_run))
              = Run.RecStopped) by (vm_compute; reflexivity).
  split; [exact H|].
  exact (proj1 (proj2 (no_frames_outside_recording [block_five] [clip_one]
                         (mkSettings webm medium) finished_run
                         [Run.AnimationFrame 3 false])
                 (or_intror H))).
Defined.

(** X5. While a block is sought, started or captured, the one video
    element carries that block's clip: its source is the clip's file, its
    volume is the clip's volume divided by 100 and its mute flag is the
    clip's. *)
Theorem segment_audio_settings
    (blocks : list TimelineBlock) (allClips : list VideoClip)
    (exportSettings : ExportSettings) (events : list Run.event) :
  let s := fst (Run.run blocks allClips exportSettings events) in
  Run.ph s = Run.AwaitSeeked \/ Run.ph s = Run.AwaitPlay
  \/ Run.ph s = Run.Capturing ->
  exists b clip,
    nth_error blocks (Run.currentBlockIndex s) = Some b
    /\ Store.find_clip (clipId b) allClips = Some clip
    /\ Run.src (Run.vid s) = Some (file clip)
    /\ Run.v_volume (Run.vid s) = volume (audioSettings clip) / 100
    /\ Run.v_muted (Run.vid s) = muted (audioSettings clip).
Proof.
  intros s Hph.
  destruct (run_orderly blocks allClips exportSettings events)
    as (_ & _ & _ & _ & _ & _ & Htuned & _).
  apply (Htuned Hph).
Qed.

Lemma segment_audio_settings_witness :
  Run.ph (fst (Run.run [block_A; block_B] [clip_one; clip_two]
                 (mkSettings webm medium) second_block_capturing))
  = Run.Capturing
  /\ exists b clip,
      nth_error [block_A; block_B]
        (Run.currentBlockIndex
           (fst (Run.run [block_A; block_B] [clip_one; clip_two]
                   (mkSettings webm medium) second_block_capturing)))
      = Some b
      /\ Store.find_clip (clipId b) [clip_one; clip_two] = Some clip
      /\ Run.src (Run.vid (fst (Run.run [block_A; block_B] [clip_one; clip_two]
                                  (mkSettings webm medium)
                                  second_block_capturing)))
         = Some (file clip)
      /\ Run.v_volume
           (Run.vid (fst (Run.run [block_A; block_B] [clip_one; clip_two]
                            (mkSettings webm medium) second_block_capturing)))
         = volume (audioSettings clip) / 100
      /\ Run.v_muted
           (Run.vid (fst (Run.run [block_A; block_B] [clip_one; clip_two]
                            (mkSettings webm medium) second_block_capturing)))
         = muted (audioSettings clip).
Proof.
  assert (H : Run.ph (fst (Run.run [block_A; block_B] [clip_one; clip_two]
                             (mkSettings webm medium) second_block_capturing))
              = Run.Capturing) by (vm_compute; reflexivity).
  split; [exact H|].
  exact (segment_audio_settings [block_A; block_B] [clip_one; clip_two]
           (mkSettings webm medium) second_block_capturing
           (or_intror (or_intror H))).
Defined.

(** *** Complete exports *)

Section CompleteRun.

Variable blocks : list TimelineBlock.
Variable allClips : list VideoClip.
Variable exportSettings : ExportSettings.

(** The run in which every block that has a clip plays through, the
    recorder delivers chunks of the given sizes and then stops. *)
Lemma run_play_through (early : TimelineBlock -> list Q) (sizes : list nat)
    (firstBlock : TimelineBlock) (rest : list TimelineBlock) :
  blocks = firstBlock :: rest ->
  Run.has_clip allClips firstBlock = true ->
  (forall b t, In b blocks -> In t (early b) -> t < endTime b) ->
  let final :=
    fst (Run.run blocks allClips exportSettings
           (Run.LoadedMetadata
            :: Run.play_all allClips early blocks
            ++ map Run.DataAvailable sizes
            ++ [Run.RecorderStopped])) in
  Run.result final = Run.Resolved (filter (Nat.ltb 0) sizes)
  /\ Run.currentBlockIndex final = List.length blocks
  /\ Run.rec final = Run.RecStopped.
Proof.
  intros Hblocks Hfirst Hearly final.
  assert (Hstart : Run.ph (Run.processAndMergeSegments blocks allClips)
                   = Run.AwaitFirstMetadata
                   /\ Run.result (Run.processAndMergeSegments blocks allClips)
                      = Run.Pending
                   /\ Run.chunks (Run.processAndMergeSegments blocks allClips)
                      = []).
  { unfold Run.processAndMergeSegments. rewrite Hblocks.
    unfold Run.has_clip in Hfirst.
    destruct (Store.find_clip (clipId firstBlock) allClips); [|discriminate].
    repeat split; reflexivity. }
  destruct Hstart as (Hph0 & Hres0 & Hch0).
  assert (Hfinal : exists sD,
             final = Run.resolve (Run.chunks sD) (Run.set_rec Run.RecStopped sD)
             /\ Run.result sD = Run.Pending
             /\ Run.chunks sD = filter (Nat.ltb 0) sizes
             /\ Run.currentBlockIndex sD = List.length blocks).
  { subst final. unfold Run.run.
    rewrite exec_cons_fst.
    unfold Run.step at 1. rewrite Hph0.
    unfold Run.start_recording. cbn [fst]. unfold Run.processNextBlock.
    cbn [Run.currentBlockIndex skipn].
    rewrite exec_app_fst.
    match goal with
    | |- context [Run.processNextBlock_from _ _ _ ?s1] =>
        destruct (exec_play_all blocks allClips exportSettings early blocks
                    0%nat s1 eq_refl Hearly eq_refl)
          as (P1 & P2 & P3 & P4 & P5 & P6)
    end.
    cbn [Run.result Run.chunks Run.warnings] in P3, P4, P5.
    rewrite exec_app_fst.
    match goal with
    | |- context [Run.exec _ _ _ ?s2 (map Run.DataAvailable sizes)] =>
        destruct (exec_data blocks allClips exportSettings sizes s2 P2)
          as (D1 & D2 & D3 & D4 & D5);
        set (sD := fst (Run.exec blocks allClips exportSettings s2
                          (map Run.DataAvailable sizes))) in *
    end.
    exists sD.
    rewrite exec_cons_fst. cbn [Run.exec fst].
    split.
    - unfold Run.step. rewrite D1. destruct (Run.ph sD); reflexivity.
    - rewrite D2, D3, D5, P3, P4, P6, Hres0, Hch0.
      repeat split; reflexivity. }
  destruct Hfinal as (sD & Hf & E1 & E2 & E3).
  clearbody final. subst final.
  unfold Run.resolve. cbn [Run.set_rec Run.result]. rewrite E1.
  cbn [Run.set_result Run.set_rec Run.result Run.currentBlockIndex Run.rec].
  rewrite E2, E3. repeat split; reflexivity.
Qed.

End CompleteRun.

Lemma filter_all {A : Type} (f : A -> bool) (l : list A) :
  (forall x, In x l -> f x = true) -> filter f l = l.
Proof.
  induction l as [|a l IH]; intros H; simpl; [reflexivity|].
  rewrite (H a (or_introl eq_refl)), IH; [reflexivity|].
  intros x Hx. apply H. right. exact Hx.
Qed.

Lemma running_totals_last (xs : list Q) :
  forall acc d,
    xs <> [] ->
    last (Run.running_totals acc xs) d = fold_left Qplus xs acc.
Proof.
  induction xs as [|x rest IH]; intros acc d Hne; [congruence|].
  destruct rest as [|y rest'].
  - reflexivity.
  - change (Run.running_totals acc (x :: y :: rest'))
      with ((acc + x) :: Run.running_totals (acc + x) (y :: rest')).
    change (fold_left Qplus (x :: y :: rest') acc)
      with (fold_left Qplus (y :: rest') (acc + x)).
    rewrite <- (IH (acc + x) d); [|discriminate].
    simpl. reflexivity.
Qed.

Lemma last_map_progress (f : Q -> num) (xs : list Q) :
  xs <> [] -> last (map f xs) NaN = f (last xs 0).
Proof.
  induction xs as [|x rest IH]; intros Hne; [congruence|].
  destruct rest as [|y rest']; [reflexivity|].
  change (last (map f (x :: y :: rest')) NaN)
    with (last (map f (y :: rest')) NaN).
  rewrite IH; [reflexivity|discriminate].
Qed.

Lemma fold_segment_durations (bs : list TimelineBlock) :
  (forall b, In b bs -> duration b == endTime b - startTime b) ->
  forall acc,
    fold_left Qplus (map Run.segmentDuration bs) acc
    == acc + Store.sum_durations bs.
Proof.
  induction bs as [|b rest IH]; intros H acc; simpl.
  - ring.
  - rewrite IH; [|intros x Hx; apply H; right; exact Hx].
    unfold Run.segmentDuration. rewrite (H b (or_introl eq_refl)). ring.
Qed.

(** X6. A run in which every block has a clip and plays through reports
    the initial 5 and then one value per block, and when every block's
    [duration] is its [endTime - startTime] and is positive, the last value
    reported is 95: a complete capture ends exactly at the cap. *)
Theorem complete_run_ends_at_95
    (blocks : list TimelineBlock) (allClips : list VideoClip)
    (exportSettings : ExportSettings)
    (early : TimelineBlock -> list Q) (sizes : list nat) :
  blocks <> [] ->
  (forall b, In b blocks ->
     Run.has_clip allClips b = true
     /\ duration b == endTime b - startTime b
     /\ 0 < duration b) ->
  (forall b t, In b blocks -> In t (early b) -> t < endTime b) ->
  let out :=
    snd (Run.run blocks allClips exportSettings
           (Run.LoadedMetadata
            :: Run.play_all allClips early blocks
            ++ map Run.DataAvailable sizes
            ++ [Run.RecorderStopped])) in
  out = Run.progress_after blocks blocks
  /\ List.length out = S (List.length blocks)
  /\ exists q, last out NaN = Fin q /\ q == 95.
Proof.
  intros Hne Hall Hearly out.
  assert (Hex : exists firstBlock rest, blocks = firstBlock :: rest)
    by (destruct blocks; [congruence|eauto]).
  destruct Hex as (firstBlock & rest & Hblocks).
  destruct (run_play_through blocks allClips exportSettings early sizes
              firstBlock rest Hblocks)
    as (Hres & Hidx & Hrec).
  { apply Hall. rewrite Hblocks. left. reflexivity. }
  { exact Hearly. }
  destruct (run_coherent blocks allClips exportSettings
              (Run.LoadedMetadata
               :: Run.play_all allClips early blocks
               ++ map Run.DataAvailable sizes ++ [Run.RecorderStopped]))
    as (_ & Hco & _).
  fold out in Hco.
  destruct Hco as (Hout & _ & _); [rewrite Hrec; discriminate|].
  unfold Run.completed_blocks in Hout.
  rewrite Hidx, firstn_all in Hout.
  rewrite filter_all in Hout by (intros b Hb; apply (Hall b Hb)).
  split; [exact Hout|].
  rewrite Hout. unfold Run.progress_after.
  assert (Hlen : forall xs acc, List.length (Run.running_totals acc xs)
                           = List.length xs).
  { induction xs as [|x l IH]; intros acc; simpl; [|rewrite IH]; reflexivity. }
  split.
  { simpl. rewrite length_map, Hlen, length_map. reflexivity. }
  { assert (Hne' : map Run.segmentDuration blocks <> []).
    { rewrite Hblocks. discriminate. }
    assert (Hrt : Run.running_totals 0 (map Run.segmentDuration blocks) <> []).
    { intros H. apply (f_equal (@List.length Q)) in H.
      rewrite Hlen in H. rewrite Hblocks in H. discriminate. }
    assert (Hcons : forall (a : num) (l : list num),
               l <> [] -> last (a :: l) NaN = last l NaN).
    { intros a [|y l] Hl; [congruence|reflexivity]. }
    rewrite Hcons.
    2: { intros H. apply map_eq_nil in H. exact (Hrt H). }
    rewrite (last_map_progress _ _ Hrt).
    rewrite (running_totals_last _ 0 0 Hne').
    pose proof (fold_segment_durations blocks
                  (fun b Hb => proj1 (proj2 (Hall b Hb))) 0) as Hsum.
    pose proof (reduce_duration_sum blocks) as Htot.
    assert (Hpos : 0 < Store.sum_durations blocks).
    { rewrite Hblocks. simpl.
      assert (0 < duration firstBlock)
        by (apply Hall; rewrite Hblocks; left; reflexivity).
      assert (0 <= Store.sum_durations rest).
      { apply sum_durations_nonneg. intros b Hb.
        assert (0 < duration b) by (apply Hall; rewrite Hblocks; right; exact Hb).
        lra. }
      lra. }
    unfold Run.capture_progress, JS.div.
    destruct (Qeq_bool (Store.reduce_duration blocks) 0) eqn:E.
    - apply Qeq_bool_iff in E. lra.
    - simpl. eexists. split; [reflexivity|].
      assert (Hq : fold_left Qplus (map Run.segmentDuration blocks) 0
                   / Store.reduce_duration blocks * 95 == 95).
      { rewrite Hsum, Htot. field. lra. }
      rewrite Hq. apply Q.min_id. }
Qed.

Lemma complete_run_ends_at_95_witness :
  [block_A5; block_B2] <> []
  /\ exists q,
      last (snd (Run.run [block_A5; block_B2] [clip_one; clip_two]
                   (mkSettings webm medium)
                   (Run.LoadedMetadata
                    :: Run.play_all [clip_one; clip_two] (fun _ => [])
                         [block_A5; block_B2]
                    ++ map Run.DataAvailable [7%nat]
                    ++ [Run.RecorderStopped]))) NaN = Fin q
      /\ q == 95.
Proof.
  split; [discriminate|].
  apply (complete_run_ends_at_95 [block_A5; block_B2] [clip_one; clip_two]
           (mkSettings webm medium) (fun _ => []) [7%nat]).
  - discriminate.
  - intros b Hb. simpl in Hb.
    destruct Hb as [<-|[<-|[]]]; repeat split; vm_compute; reflexivity.
  - intros b t _ [].
Defined.

(** *** The panel around a run *)

Section PanelFacts.

Variable store : Store.t.
Variable settings : ExportSettings.
Variable environment : Panel.env.





End PanelFacts.

Lemma sort_by_order_nil (blocks : list TimelineBlock) :
  sort_by_order blocks = [] -> blocks = [].
Proof.
  destruct blocks as [|b rest]; [reflexivity|].
  unfold sort_by_order. simpl.
  destruct (fold_right insert_by_order [] rest) as [|y l]; simpl;
    [discriminate|].
  destruct (Qle_bool (order b) (order y)); discriminate.
Qed.



Lemma outcomes_add_plain (m : string) (x : Panel.ui) :
  Verdict.outcomes (Panel.add_toast (Panel.ToastPlain m) x) = Verdict.outcomes x.
Proof.
  unfold Verdict.outcomes, Panel.add_toast. simpl.
  rewrite filter_app. simpl. apply app_nil_r.
Qed.

Lemma outcomes_setExportProgress (p : num) (x : Panel.ui) :
  Verdict.outcomes (Panel.setExportProgress p x) = Verdict.outcomes x.
Proof. reflexivity. Qed.

Lemma outcomes_setIsExporting (b : bool) (x : Panel.ui) :
  Verdict.outcomes (Panel.setIsExporting b x) = Verdict.outcomes x.
Proof. reflexivity. Qed.

Lemma outcomes_export_failed (m : string) (x : Panel.ui) :
  Verdict.outcomes (Panel.export_failed m x)
  = Verdict.outcomes x ++ [Panel.ToastError m].
Proof.
  unfold Verdict.outcomes, Panel.export_failed. simpl.
  rewrite filter_app. reflexivity.
Qed.

Section VerdictFacts.

Variable store : Store.t.
Variable settings : ExportSettings.
Variable environment : Panel.env.

Lemma outcomes_fold_capture (emitted : list num) :
  forall x,
    Verdict.outcomes
      (fold_left (fun x p => Panel.onCaptureProgress settings p x) emitted x)
    = Verdict.outcomes x
    /\ Panel.isExporting
         (fold_left (fun x p => Panel.onCaptureProgress settings p x) emitted x)
       = Panel.isExporting x.
Proof.
  induction emitted as [|p rest IH]; intros x; [split; reflexivity|].
  simpl. destruct (IH (Panel.onCaptureProgress settings p x)) as [H1 H2].
  rewrite H1, H2.
  unfold Panel.onCaptureProgress. destruct (format settings); split; reflexivity.
Qed.

Lemma consistent_after_capture (x : Panel.ui) (r : Run.state) :
  Verdict.outcomes x = [] ->
  Verdict.consistent settings environment
    (Panel.after_capture settings (Panel.mk x Panel.Recording (Some r))).
Proof.
  intros Hout. unfold Panel.after_capture. cbn [Panel.ph Panel.run].
  destruct (Run.result r) as [|blob|message] eqn:Hres.
  - unfold Verdict.consistent; cbn [Panel.ph Panel.u Panel.run]. split; [exists r; auto|exact Hout].
  - destruct (format settings) eqn:Hf;
      unfold Verdict.consistent, Verdict.resolved; cbn [Panel.ph Panel.u Panel.run].
    + split; [exists r, blob; auto|exact Hout].
    + split; [exists r, blob; auto|]. split; [exact Hout|].
      rewrite Hf. discriminate.
    + split; [exists r, blob; auto|]. split; [exact Hout|].
      rewrite Hf. discriminate.
  - unfold Verdict.consistent; cbn [Panel.ph Panel.u Panel.run].
    split; [reflexivity|]. left. exists message.
    rewrite outcomes_export_failed, Hout. reflexivity.
Qed.

Lemma consistent_begin_export (x : Panel.ui) :
  Verdict.outcomes x = [] ->
  Verdict.consistent settings environment
    (Panel.begin_export store settings environment x).
Proof.
  intros Hout. unfold Panel.begin_export. cbv zeta.
  apply consistent_after_capture.
  destruct (negb (Format_eqb (format settings) webm)
            && negb (Panel.ffmpegLoaded environment)).
  - rewrite outcomes_add_plain. exact Hout.
  - exact Hout.
Qed.

Lemma consistent_handleExport :
  Verdict.consistent settings environment
    (Panel.handleExport store settings environment Panel.initial_ui).
Proof.
  unfold Panel.handleExport.
  destruct (negb (Panel.hasClips store)).
  - simpl. split; [reflexivity|]. left.
    exists "No clips to export"%string. reflexivity.
  - destruct (Panel.fileSystemAccessSupported environment).
    + repeat split.
    + apply consistent_begin_export. reflexivity.
Qed.

Lemma resolved_run_step (st : Panel.state) (re : Run.event) (x : Panel.ui)
    (r : Run.state) :
  Panel.run st = Some r ->
  Verdict.resolved st ->
  Verdict.resolved
    (Panel.mk x (Panel.ph st)
       (Some (fst (Run.step (Panel.sortedBlocks store) (Store.clips store)
                     (Panel.capture_settings settings) r re)))).
Proof.
  intros Hrun (r0 & blob & Hr0 & Hres).
  rewrite Hrun in Hr0. injection Hr0 as <-.
  eexists. exists blob. split; [reflexivity|].
  rewrite step_keeps_result; [exact Hres|]. rewrite Hres. discriminate.
Qed.

Lemma consistent_step (st : Panel.state) (e : Panel.event) :
  Verdict.consistent settings environment st ->
  Verdict.consistent settings environment
    (Panel.step store settings environment st e).
Proof.
  intros Hc0. pose proof Hc0 as Hc. unfold Verdict.consistent in Hc.
  destruct e; unfold Panel.step.
  - (* FileHandleGranted *)
    destruct (Panel.ph st) eqn:Hph;
      try exact Hc0.
    apply consistent_begin_export. tauto.
  - (* FileHandleCancelled *)
    destruct (Panel.ph st) eqn:Hph;
      try exact Hc0.
    unfold Verdict.consistent, Verdict.resolved; cbn [Panel.ph Panel.u Panel.run].
    destruct Hc as (Hrun & Hout & Hex).
    split; [exact Hex|]. right. right.
    rewrite outcomes_add_plain. auto.
  - (* FileHandleFailed *)
    destruct (Panel.ph st) eqn:Hph;
      try exact Hc0.
    unfold Verdict.consistent, Verdict.resolved; cbn [Panel.ph Panel.u Panel.run].
    destruct Hc as (Hrun & Hout & Hex).
    split; [exact Hex|]. left. eexists.
    unfold Verdict.outcomes in *. simpl. rewrite filter_app, Hout. reflexivity.
  - (* RunEvent *)
    destruct (Panel.run st) as [r|] eqn:Hrun;
      [|exact Hc0].
    destruct (Run.step (Panel.sortedBlocks store) (Store.clips store)
                (Panel.capture_settings settings) r e) as [r' emitted] eqn:Hstep.
    destruct (outcomes_fold_capture emitted (Panel.u st)) as [Hout Hex].
    assert (Hr' : r' = fst (Run.step (Panel.sortedBlocks store)
                              (Store.clips store)
                              (Panel.capture_settings settings) r e))
      by (rewrite Hstep; reflexivity).
    destruct (Panel.ph st) eqn:Hph.
    + destruct Hc as (Hnone & _). congruence.
    + rewrite <- Hph at 1. rewrite Hph.
      apply consistent_after_capture. rewrite Hout. tauto.
    + unfold Panel.after_capture, Verdict.consistent; cbn [Panel.ph Panel.u Panel.run].
      destruct Hc as (Hres & Ho & Hf).
      split; [|rewrite Hout; auto].
      rewrite Hr', <- Hph. apply resolved_run_step; assumption.
    + unfold Panel.after_capture, Verdict.consistent; cbn [Panel.ph Panel.u Panel.run].
      destruct Hc as (Hres & Ho).
      split; [|rewrite Hout; auto].
      rewrite Hr', <- Hph. apply resolved_run_step; assumption.
    + unfold Panel.after_capture, Verdict.consistent; cbn [Panel.ph Panel.u Panel.run].
      destruct Hc as (Hres & Ho).
      split; [|rewrite Hout; auto].
      rewrite Hr', <- Hph. apply resolved_run_step; assumption.
    + unfold Panel.after_capture, Verdict.consistent; cbn [Panel.ph Panel.u Panel.run].
      destruct Hc as (Hexp & Ho).
      split; [rewrite Hex; exact Hexp|].
      rewrite Hout.
      destruct Ho as [Ho|[[Ho Hres]|[Ho Hnone]]].
      * left. exact Ho.
      * right. left. split; [exact Ho|].
        rewrite Hr', <- Hph. apply resolved_run_step; assumption.
      * congruence.
  - (* TranscodeProgress *)
    destruct (Panel.ph st) eqn:Hph;
      try exact Hc0.
    unfold Verdict.consistent, Verdict.resolved; cbn [Panel.ph Panel.u Panel.run]. rewrite ?Hph.
    destruct Hc as ((r & blob & Hr & Hres) & Ho & Hf).
    split; [exists r, blob; auto|]. auto.
  - (* TranscodeDone *)
    destruct (Panel.ph st) eqn:Hph;
      try exact Hc0.
    unfold Verdict.consistent, Verdict.resolved; cbn [Panel.ph Panel.u Panel.run].
    destruct Hc as ((r & blob & Hr & Hres) & Ho & Hf).
    split; [exists r, blob; auto|]. auto.
  - (* TranscodeFailed *)
    destruct (Panel.ph st) eqn:Hph;
      try exact Hc0.
    unfold Verdict.consistent, Verdict.resolved; cbn [Panel.ph Panel.u Panel.run].
    destruct Hc as (_ & Ho & _).
    split; [reflexivity|]. left. exists message.
    rewrite outcomes_export_failed, Ho. reflexivity.
  - (* DownloadDone *)
    destruct (Panel.ph st) eqn:Hph;
      try exact Hc0.
    unfold Verdict.consistent, Verdict.resolved; cbn [Panel.ph Panel.u Panel.run].
    destruct Hc as ((r & blob & Hr & Hres) & Ho).
    split; [exists r, blob; auto|].
    unfold Verdict.outcomes in *. simpl. rewrite filter_app, Ho. reflexivity.
  - (* DownloadFailed *)
    destruct (Panel.ph st) eqn:Hph;
      try exact Hc0.
    unfold Verdict.consistent, Verdict.resolved; cbn [Panel.ph Panel.u Panel.run].
    destruct Hc as (_ & Ho).
    split; [reflexivity|]. left. exists message.
    rewrite outcomes_export_failed, Ho. reflexivity.
  - (* ResetTimer *)
    destruct (Panel.ph st) eqn:Hph;
      try exact Hc0.
    unfold Verdict.consistent, Verdict.resolved; cbn [Panel.ph Panel.u Panel.run].
    destruct Hc as ((r & blob & Hr & Hres) & Ho).
    split; [reflexivity|]. right. left.
    split; [exact Ho|]. exists r, blob. auto.
  - (* CancelClicked *)
    destruct (Panel.isExporting (Panel.u st)) eqn:Hex;
      [|exact Hc0].
    unfold Verdict.consistent, Verdict.resolved; cbn [Panel.ph Panel.u Panel.run].
    unfold Panel.handleCancel. rewrite outcomes_add_plain.
    rewrite outcomes_setExportProgress, outcomes_setIsExporting.
    destruct (Panel.ph st) eqn:Hph.
    + destruct Hc as (_ & _ & Hno). congruence.
    + exact Hc.
    + destruct Hc as ((r & blob & Hr & Hres) & Ho & Hf).
      split; [exists r, blob; auto|]. auto.
    + destruct Hc as ((r & blob & Hr & Hres) & Ho).
      split; [exists r, blob; auto|]. auto.
    + destruct Hc as ((r & blob & Hr & Hres) & Ho).
      split; [exists r, blob; auto|]. auto.
    + destruct Hc as (Hno & _). congruence.
Qed.

Lemma consistent_exec (events : list Panel.event) :
  forall st,
    Verdict.consistent settings environment st ->
    Verdict.consistent settings environment
      (Panel.exec store settings environment st events).
Proof.
  induction events as [|e rest IH]; intros st Hc; [exact Hc|].
  simpl. apply IH. apply consistent_step. exact Hc.
Qed.

End VerdictFacts.

Lemma in_outcomes (t : Panel.toast) (x : Panel.ui) :
  In t (Panel.toasts x) -> Verdict.is_outcome t = true ->
  In t (Verdict.outcomes x).
Proof. intros Hin Ho. apply filter_In. split; assumption. Qed.

(** X8. [handleExport] announces success only for a blob: whatever events
    arrive, in whatever order, a success toast is on screen only if the
    promise of [processAndMergeSegments] was resolved; it names the file, the
    call is past its download, and no error toast accompanies it. *)
Theorem success_toast_needs_blob
    (store : Store.t) (settings : ExportSettings) (environment : Panel.env)
    (events : list Panel.event) (m : string) :
  let st :=
    Panel.exec store settings environment
      (Panel.handleExport store settings environment Panel.initial_ui) events in
  In (Panel.ToastSuccess m) (Panel.toasts (Panel.u st)) ->
  m = ("Video exported: " ++ Panel.filename environment)%string
  /\ (exists r blob, Panel.run st = Some r /\ Run.result r = Run.Resolved blob)
  /\ (Panel.ph st = Panel.AwaitReset \/ Panel.ph st = Panel.Finished)
  /\ (forall m', ~ In (Panel.ToastError m') (Panel.toasts (Panel.u st))).
Proof.
  intros st Hin.
  pose proof (consistent_exec store settings environment events _
                (consistent_handleExport store settings environment)) as Hc.
  fold st in Hc. unfold Verdict.consistent in Hc.
  apply in_outcomes in Hin; [|reflexivity].
  assert (Hno : forall l, Verdict.outcomes (Panel.u st) = l ->
                  (forall t, In t l -> t = Verdict.success environment) ->
                  m = ("Video exported: " ++ Panel.filename environment)%string
                  /\ forall m', ~ In (Panel.ToastError m')
                                  (Panel.toasts (Panel.u st))).
  { intros l Hl Hall. split.
    - rewrite Hl in Hin. apply Hall in Hin. unfold Verdict.success in Hin.
      congruence.
    - intros m' Hm'. apply in_outcomes in Hm'; [|reflexivity].
      rewrite Hl in Hm'. apply Hall in Hm'. discriminate. }
  destruct (Panel.ph st) eqn:Hph.
  - destruct Hc as (_ & Ho & _). rewrite Ho in Hin. destruct Hin.
  - destruct Hc as (_ & Ho). rewrite Ho in Hin. destruct Hin.
  - destruct Hc as (_ & Ho & _). rewrite Ho in Hin. destruct Hin.
  - destruct Hc as (_ & Ho). rewrite Ho in Hin. destruct Hin.
  - destruct Hc as (Hres & Ho).
    destruct (Hno _ Ho) as [H1 H2].
    { intros t [<-|[]]. reflexivity. }
    split; [exact H1|]. split; [exact Hres|]. split; [left; reflexivity|exact H2].
  - destruct Hc as (_ & [[m' Ho]|[[Ho Hres]|[Ho _]]]).
    + rewrite Ho in Hin. destruct Hin as [Hin|[]]. discriminate.
    + destruct (Hno _ Ho) as [H1 H2].
      { intros t [<-|[]]. reflexivity. }
      split; [exact H1|]. split; [exact Hres|].
      split; [right; reflexivity|exact H2].
    + rewrite Ho in Hin. destruct Hin.
Qed.

Lemma success_toast_needs_blob_witness :
  In (Panel.ToastSuccess "Video exported: video.webm")
     (Panel.toasts
        (Panel.u
           (Panel.exec one_block_store (mkSettings webm medium) plain_env
              (Panel.handleExport one_block_store (mkSettings webm medium)
                 plain_env Panel.initial_ui)
              (map Panel.RunEvent
                 [Run.LoadedMetadata; Run.LoadedMetadata; Run.Seeked;
                  Run.PlayStarted; Run.AnimationFrame 5 false;
                  Run.DataAvailable 7; Run.RecorderStopped]
               ++ [Panel.DownloadDone]))))
  /\ ("Video exported: video.webm"
      = "Video exported: " ++ Panel.filename plain_env)%string.
Proof.
  assert (H : In (Panel.ToastSuccess "Video exported: video.webm")
     (Panel.toasts
        (Panel.u
           (Panel.exec one_block_store (mkSettings webm medium) plain_env
              (Panel.handleExport one_block_store (mkSettings webm medium)
                 plain_env Panel.initial_ui)
              (map Panel.RunEvent
                 [Run.LoadedMetadata; Run.LoadedMetadata; Run.Seeked;
                  Run.PlayStarted; Run.AnimationFrame 5 false;
                  Run.DataAvailable 7; Run.RecorderStopped]
               ++ [Panel.DownloadDone])))))
    by (vm_compute; left; reflexivity).
  split; [exact H|].
  exact (proj1 (success_toast_needs_blob one_block_store
                  (mkSettings webm medium) plain_env _ _ H)).
Defined.

(** X9. An error toast ends the call: whatever events arrive, once
    [toast.error] was called the call of [handleExport] has returned, the
    exporting flag is off, the error is the only outcome announced (no
    success toast, no second error), and it stays so. *)
Theorem error_toast_ends_export
    (store : Store.t) (settings : ExportSettings) (environment : Panel.env)
    (events : list Panel.event) (m : string) :
  let st :=
    Panel.exec store settings environment
      (Panel.handleExport store settings environment Panel.initial_ui) events in
  In (Panel.ToastError m) (Panel.toasts (Panel.u st)) ->
  Panel.ph st = Panel.Finished
  /\ Panel.isExporting (Panel.u st) = false
  /\ Verdict.outcomes (Panel.u st) = [Panel.ToastError m].
Proof.
  intros st Hin.
  pose proof (consistent_exec store settings environment events _
                (consistent_handleExport store settings environment)) as Hc.
  fold st in Hc. unfold Verdict.consistent in Hc.
  apply in_outcomes in Hin; [|reflexivity].
  destruct (Panel.ph st) eqn:Hph.
  - destruct Hc as (_ & Ho & _). rewrite Ho in Hin. destruct Hin.
  - destruct Hc as (_ & Ho). rewrite Ho in Hin. destruct Hin.
  - destruct Hc as (_ & Ho & _). rewrite Ho in Hin. destruct Hin.
  - destruct Hc as (_ & Ho). rewrite Ho in Hin. destruct Hin.
  - destruct Hc as (_ & Ho). rewrite Ho in Hin.
    destruct Hin as [Hin|[]]. discriminate.
  - destruct Hc as (Hex & [[m' Ho]|[[Ho Hres]|[Ho _]]]).
    + split; [reflexivity|]. split; [exact Hex|].
      rewrite Ho in Hin. destruct Hin as [Hin|[]].
      rewrite Ho, Hin. reflexivity.
    + rewrite Ho in Hin. destruct Hin as [Hin|[]]. discriminate.
    + rewrite Ho in Hin. destruct Hin.
Qed.

Lemma error_toast_ends_export_witness :
  Panel.ph
    (Panel.exec one_block_store (mkSettings mp4 medium) plain_env
       (Panel.handleExport one_block_store (mkSettings mp4 medium)
          plain_env Panel.initial_ui)
       (map Panel.RunEvent
          [Run.LoadedMetadata; Run.LoadedMetadata; Run.Seeked;
           Run.PlayStarted; Run.AnimationFrame 5 false;
           Run.DataAvailable 7; Run.RecorderStopped]
        ++ [Panel.TranscodeFailed "FFmpeg transcoding failed: Unknown error";
            Panel.TranscodeDone; Panel.DownloadDone]))
  = Panel.Finished.
Proof.
  assert (H : In (Panel.ToastError "FFmpeg transcoding failed: Unknown error")
     (Panel.toasts
        (Panel.u
           (Panel.exec one_block_store (mkSettings mp4 medium) plain_env
              (Panel.handleExport one_block_store (mkSettings mp4 medium)
                 plain_env Panel.initial_ui)
              (map Panel.RunEvent
                 [Run.LoadedMetadata; Run.LoadedMetadata; Run.Seeked;
                  Run.PlayStarted; Run.AnimationFrame 5 false;
                  Run.DataAvailable 7; Run.RecorderStopped]
               ++ [Panel.TranscodeFailed "FFmpeg transcoding failed: Unknown error";
                   Panel.TranscodeDone; Panel.DownloadDone])))))
    by (vm_compute; left; reflexivity).
  exact (proj1 (error_toast_ends_export one_block_store
                  (mkSettings mp4 medium) plain_env _ _ H)).
Defined.

Lemma round_scaled_capture_not_above (p : num) :
  Verdict.not_above 95 p ->
  Verdict.not_above 100 (JS.round (JS.scale p 0.6)).
Proof.
  unfold Verdict.not_above.
  destruct p as [q| | |]; simpl; try (intros; reflexivity); try discriminate.
  intros H. apply negb_false_iff in H. apply Qle_bool_iff in H.
  apply negb_false_iff. apply Qle_bool_iff.
  unfold JS.roundQ.
  assert (Hhi : (Qfloor (q * 0.6 + (1 # 2)) <= Qfloor (115 # 2))%Z)
    by (apply Qfloor_resp_le; lra).
  rewrite Zle_Qle in Hhi.
  assert (H57 : inject_Z (Qfloor (115 # 2)) == 57) by (vm_compute; reflexivity).
  lra.
Qed.

Lemma not_above_weaken (p : num) :
  Verdict.not_above 95 p -> Verdict.not_above 100 p.
Proof.
  unfold Verdict.not_above.
  destruct p as [q| | |]; simpl; try (intros; reflexivity); try discriminate.
  intros H. apply negb_false_iff in H. apply Qle_bool_iff in H.
  apply negb_false_iff. apply Qle_bool_iff. lra.
Qed.

Lemma transcode_report_not_above (smp : FFmpeg.sample) :
  Verdict.not_above 100
    (JS.shift 65 (JS.round (JS.scale (FFmpeg.forwarded smp) 0.35))).
Proof.
  destruct (forwarded_in_range smp) as (q & -> & H0 & H100).
  destruct (roundQ_scaled_range q H0 H100) as [Hr0 Hr35].
  unfold Verdict.not_above. simpl.
  apply negb_false_iff. apply Qle_bool_iff. lra.
Qed.

Section BoundedFacts.

Variable store : Store.t.
Variable settings : ExportSettings.
Variable environment : Panel.env.

(** The values one more event makes a run report are not above 95. *)
Lemma emitted_not_above_95 (events : list Run.event) (e : Run.event) :
  Forall (Verdict.not_above 95)
    (snd (Run.step (Panel.sortedBlocks store) (Store.clips store)
            (Panel.capture_settings settings)
            (fst (Run.run (Panel.sortedBlocks store) (Store.clips store)
                    (Panel.capture_settings settings) events)) e)).
Proof.
  set (blocks := Panel.sortedBlocks store).
  set (cs := Panel.capture_settings settings).
  destruct (run_coherent blocks (Store.clips store) cs (events ++ [e]))
    as (Habs & Hrec & _).
  unfold Run.run in *. rewrite exec_app in Habs, Hrec.
  cbn [fst snd] in Habs, Hrec.
  set (r := fst (Run.exec blocks (Store.clips store) cs
                   (Run.processAndMergeSegments blocks (Store.clips store))
                   events)) in *.
  assert (Hone : Run.exec blocks (Store.clips store) cs r [e]
                 = (fst (Run.step blocks (Store.clips store) cs r e),
                    snd (Run.step blocks (Store.clips store) cs r e))).
  { simpl. destruct (Run.step blocks (Store.clips store) cs r e) as [r1 o1].
    simpl. rewrite app_nil_r. reflexivity. }
  rewrite Hone in Habs, Hrec. cbn [fst snd] in Habs, Hrec.
  assert (Hall : Forall (Verdict.not_above 95)
                   (snd (Run.exec blocks (Store.clips store) cs
                           (Run.processAndMergeSegments blocks (Store.clips store))
                           events)
                    ++ snd (Run.step blocks (Store.clips store) cs r e))).
  { destruct (Run.rec (fst (Run.step blocks (Store.clips store) cs r e)))
      eqn:E.
    - rewrite Habs by reflexivity. constructor.
    - destruct Hrec as (-> & _); [discriminate|].
      unfold Run.progress_after. constructor; [reflexivity|].
      apply Forall_forall. intros p Hin. apply in_map_iff in Hin.
      destruct Hin as (c & <- & _). apply capture_progress_not_above_95.
    - destruct Hrec as (-> & _); [discriminate|].
      unfold Run.progress_after. constructor; [reflexivity|].
      apply Forall_forall. intros p Hin. apply in_map_iff in Hin.
      destruct Hin as (c & <- & _). apply capture_progress_not_above_95.
    - destruct Hrec as (-> & _); [discriminate|].
      unfold Run.progress_after. constructor; [reflexivity|].
      apply Forall_forall. intros p Hin. apply in_map_iff in Hin.
      destruct Hin as (c & <- & _). apply capture_progress_not_above_95.
    - destruct Hrec as (-> & _); [discriminate|].
      unfold Run.progress_after. constructor; [reflexivity|].
      apply Forall_forall. intros p Hin. apply in_map_iff in Hin.
      destruct Hin as (c & <- & _). apply capture_progress_not_above_95. }
  apply Forall_app in Hall. tauto.
Qed.

Lemma bounded_fold_capture (emitted : list num) :
  Forall (Verdict.not_above 95) emitted ->
  forall x,
    Forall (Verdict.not_above 100) (Panel.progress_calls x) ->
    Verdict.not_above 100 (Panel.exportProgress x) ->
    let x' := fold_left (fun x p => Panel.onCaptureProgress settings p x)
                emitted x in
    Forall (Verdict.not_above 100) (Panel.progress_calls x')
    /\ Verdict.not_above 100 (Panel.exportProgress x').
Proof.
  induction 1 as [|p rest Hp Hrest IH]; intros x Hcalls Hcur; [split; assumption|].
  cbn [fold_left]. apply IH.
  - unfold Panel.onCaptureProgress.
    destruct (format settings); cbn [Panel.setExportProgress Panel.progress_calls];
      apply Forall_app; (split; [exact Hcalls|]); constructor;
      try constructor;
      first [apply not_above_weaken; exact Hp
            |apply round_scaled_capture_not_above; exact Hp].
  - unfold Panel.onCaptureProgress.
    destruct (format settings); cbn [Panel.setExportProgress Panel.exportProgress];
      first [apply not_above_weaken; exact Hp
            |apply round_scaled_capture_not_above; exact Hp].
Qed.

Lemma bounded_set (p : num) (x : Panel.ui) :
  Verdict.not_above 100 p ->
  Forall (Verdict.not_above 100) (Panel.progress_calls x) ->
  Forall (Verdict.not_above 100)
    (Panel.progress_calls (Panel.setExportProgress p x))
  /\ Verdict.not_above 100 (Panel.exportProgress (Panel.setExportProgress p x)).
Proof.
  intros Hp Hcalls. split; [|exact Hp].
  cbn [Panel.setExportProgress Panel.progress_calls].
  apply Forall_app. split; [exact Hcalls|]. constructor; [exact Hp|constructor].
Qed.

Lemma bounded_after_capture (st : Panel.state) :
  Verdict.bounded store settings st ->
  Verdict.bounded store settings (Panel.after_capture settings st).
Proof.
  intros Hb. pose proof Hb as (Hcalls & Hcur & Hrun).
  unfold Panel.after_capture.
  destruct (Panel.ph st); try exact Hb.
  destruct (Panel.run st) as [r|] eqn:Er; [|exact Hb].
  destruct (Run.result r); [exact Hb| |].
  - destruct (format settings).
    + split; [exact Hcalls|]. split; [exact Hcur|]. exact Hrun.
    + destruct (bounded_set (Fin 65) (Panel.u st)) as [H1 H2];
        [reflexivity|exact Hcalls|].
      split; [exact H1|]. split; [exact H2|]. exact Hrun.
    + destruct (bounded_set (Fin 65) (Panel.u st)) as [H1 H2];
        [reflexivity|exact Hcalls|].
      split; [exact H1|]. split; [exact H2|]. exact Hrun.
  - unfold Panel.export_failed.
    destruct (bounded_set (Fin 0)
                (Panel.setIsExporting false
                   (Panel.add_toast (Panel.ToastError message) (Panel.u st))))
      as [H1 H2]; [reflexivity|exact Hcalls|].
    split; [exact H1|]. split; [exact H2|]. exact Hrun.
Qed.

Lemma bounded_begin_export (x : Panel.ui) :
  Forall (Verdict.not_above 100) (Panel.progress_calls x) ->
  Verdict.bounded store settings
    (Panel.begin_export store settings environment x).
Proof.
  intros Hcalls. unfold Panel.begin_export. cbv zeta.
  apply bounded_after_capture.
  destruct (bounded_set (Fin 0) (Panel.setIsExporting true x)) as [H1 H2];
    [reflexivity|exact Hcalls|].
  split; [|split].
  - destruct (negb (Format_eqb (format settings) webm)
              && negb (Panel.ffmpegLoaded environment)); exact H1.
  - destruct (negb (Format_eqb (format settings) webm)
              && negb (Panel.ffmpegLoaded environment)); exact H2.
  - cbn [Panel.run]. intros r Hr. injection Hr as <-.
    exists []. reflexivity.
Qed.

Lemma bounded_handleExport :
  Verdict.bounded store settings
    (Panel.handleExport store settings environment Panel.initial_ui).
Proof.
  unfold Panel.handleExport.
  destruct (negb (Panel.hasClips store)).
  - split; [constructor|]. split; [reflexivity|]. discriminate.
  - destruct (Panel.fileSystemAccessSupported environment).
    + split; [constructor|]. split; [reflexivity|]. discriminate.
    + apply bounded_begin_export. constructor.
Qed.

Lemma bounded_step (st : Panel.state) (e : Panel.event) :
  Verdict.bounded store settings st ->
  Verdict.bounded store settings (Panel.step store settings environment st e).
Proof.
  intros Hb. pose proof Hb as (Hcalls & Hcur & Hrun).
  destruct e; unfold Panel.step.
  - destruct (Panel.ph st); try exact Hb;
    try (apply bounded_begin_export; exact Hcalls).
  - destruct (Panel.ph st); try exact Hb;
    try (split; [exact Hcalls|]; split; [exact Hcur|exact Hrun]).
  - destruct (Panel.ph st); try exact Hb;
    try (split; [exact Hcalls|]; split; [exact Hcur|exact Hrun]).
  - destruct (Panel.run st) as [r|] eqn:Er; [|exact Hb].
    destruct (Hrun r eq_refl) as (events & Hr).
    pose proof (emitted_not_above_95 events e) as Hem.
    rewrite <- Hr in Hem.
    destruct (Run.step (Panel.sortedBlocks store) (Store.clips store)
                (Panel.capture_settings settings) r e) as [r' emitted] eqn:Hstep.
    cbn [snd] in Hem.
    apply bounded_after_capture.
    destruct (bounded_fold_capture emitted Hem (Panel.u st) Hcalls Hcur)
      as [H1 H2].
    split; [exact H1|]. split; [exact H2|].
    cbn [Panel.run]. intros r0 Hr0. injection Hr0 as <-.
    exists (events ++ [e]). unfold Run.run in *. rewrite exec_app.
    cbn [fst]. rewrite <- Hr. simpl. rewrite Hstep. reflexivity.
  - destruct (Panel.ph st); try exact Hb;
    try (unfold Panel.onTranscodeProgress;
    destruct (bounded_set _ (Panel.u st) (transcode_report_not_above s) Hcalls)
      as [H1 H2];
    split; [exact H1|]; split; [exact H2|exact Hrun]).
  - destruct (Panel.ph st); try exact Hb;
    try (split; [exact Hcalls|]; split; [exact Hcur|exact Hrun]).
  - destruct (Panel.ph st); try exact Hb;
    try (unfold Panel.export_failed;
    destruct (bounded_set (Fin 0)
                (Panel.setIsExporting false
                   (Panel.add_toast (Panel.ToastError message) (Panel.u st))))
      as [H1 H2]; [reflexivity|exact Hcalls|];
    split; [exact H1|]; split; [exact H2|exact Hrun]).
  - destruct (Panel.ph st); try exact Hb;
    try (destruct (bounded_set (Fin 100) (Panel.u st)) as [H1 H2];
      [reflexivity|exact Hcalls|];
    split; [exact H1|]; split; [exact H2|exact Hrun]).
  - destruct (Panel.ph st); try exact Hb;
    try (unfold Panel.export_failed;
    destruct (bounded_set (Fin 0)
                (Panel.setIsExporting false
                   (Panel.add_toast (Panel.ToastError message) (Panel.u st))))
      as [H1 H2]; [reflexivity|exact Hcalls|];
    split; [exact H1|]; split; [exact H2|exact Hrun]).
  - destruct (Panel.ph st); try exact Hb;
    try (destruct (bounded_set (Fin 0) (Panel.setIsExporting false (Panel.u st)))
      as [H1 H2]; [reflexivity|exact Hcalls|];
    split; [exact H1|]; split; [exact H2|exact Hrun]).
  - destruct (Panel.isExporting (Panel.u st)); [|exact Hb].
    unfold Panel.handleCancel.
    destruct (bounded_set (Fin 0) (Panel.setIsExporting false (Panel.u st)))
      as [H1 H2]; [reflexivity|exact Hcalls|].
    split; [exact H1|]. split; [exact H2|exact Hrun].
Qed.

End BoundedFacts.

(** X10. The progress bar never shows more than 100: for every store,
    format, quality, environment and sequence of events, every argument
    [handleExport] and its callbacks hand to [setExportProgress] (0 at the
    start, the capture values as they are for WebM or rounded at 60 % for
    MP4 and MOV, 65, the transcode values, 100, the resets to 0) is not
    above 100, and so is the value shown at the end. *)
Theorem export_progress_never_above_100
    (store : Store.t) (settings : ExportSettings) (environment : Panel.env)
    (events : list Panel.event) :
  let st :=
    Panel.exec store settings environment
      (Panel.handleExport store settings environment Panel.initial_ui) events in
  Forall (fun p => JS.gtb p (Fin 100) = false)
    (Panel.progress_calls (Panel.u st))
  /\ JS.gtb (Panel.exportProgress (Panel.u st)) (Fin 100) = false.
Proof.
  intros st.
  assert (Hb : Verdict.bounded store settings st).
  { subst st. generalize (bounded_handleExport store settings environment).
    generalize (Panel.handleExport store settings environment Panel.initial_ui).
    induction events as [|e rest IH]; intros st0 H0; [exact H0|].
    simpl. apply IH. apply bounded_step. exact H0. }
  destruct Hb as (H1 & H2 & _). split; [exact H1|exact H2].
Qed.

(** *** Shortcuts *)

Lemma find_block_some (bid : string) (blocks : list TimelineBlock)
    (b : TimelineBlock) :
  Store.find_block bid blocks = Some b -> In b blocks /\ id b = bid.
Proof.
  unfold Store.find_block. intros H. apply find_some in H.
  destruct H as [Hin Heq]. apply String.eqb_eq in Heq. auto.
Qed.



Lemma active_block_some (s : Store.t) (b : TimelineBlock) :
  Keys.active_block s = Some b ->
  Store.find_block (id b) (Store.timelineBlocks s) = Some b
  /\ activeBlockId (Store.playback s) = Some (id b).
Proof.
  unfold Keys.active_block.
  destruct (activeBlockId (Store.playback s)) as [i|]; [|discriminate].
  intros H. destruct (find_block_some _ _ _ H) as [_ <-]. auto.
Qed.

(** X11. The in-point key keeps a block inside its source as long as the
    stored playback time is not negative: if the active block satisfies
    [0 <= startTime < endTime <= sourceDuration], so does the block stored
    under its id after [KeyI]; its end is untouched, and either nothing
    changed or the start is the playback time and [duration] is the new
    length, above 0.1. *)
Theorem keyI_keeps_trim_invariant (s : Store.t) (b : TimelineBlock)
    (sourceDuration : Q) :
  Keys.active_block s = Some b ->
  Trim.trim_invariant b sourceDuration ->
  0 <= currentTime (Store.playback s) ->
  exists b',
    Store.find_block (id b) (Store.timelineBlocks (Keys.keyI s)) = Some b'
    /\ Trim.trim_invariant b' sourceDuration
    /\ endTime b' = endTime b
    /\ (b' = b
        \/ (startTime b' = currentTime (Store.playback s)
            /\ duration b' = endTime b - currentTime (Store.playback s)
            /\ 0.1 < duration b')).
Proof.
  intros Hact (H0 & Hlt & Hle) Hcur.
  destruct (active_block_some s b Hact) as [Hfind Hid].
  unfold Keys.keyI. rewrite Hact.
  destruct (Keys.truthy (activeBlockId (Store.playback s)) && Keys.hasClips s).
  - destruct (JS.Qgtb (endTime b - currentTime (Store.playback s)) 0.1) eqn:Hg.
    + apply Qgtb_true in Hg.
      eexists. split.
      * unfold Store.updateBlock. cbn [Store.timelineBlocks].
        apply updateBlock_find; [reflexivity|exact Hfind].
      * unfold Trim.trim_invariant, Store.spread. cbn.
        split; [split; [exact Hcur|split; [lra|exact Hle]]|].
        split; [reflexivity|]. right.
        split; [reflexivity|]. split; [reflexivity|exact Hg].
    + exists b. split; [exact Hfind|].
      split; [split; [exact H0|split; [exact Hlt|exact Hle]]|]. auto.
  - exists b. split; [exact Hfind|].
    split; [split; [exact H0|split; [exact Hlt|exact Hle]]|]. auto.
Qed.

Lemma keyI_keeps_trim_invariant_witness :
  exists b',
    Store.find_block "B"
      (Store.timelineBlocks (Keys.keyI (Store.setCurrentTime 4 two_block_store)))
    = Some b'
    /\ Trim.trim_invariant b' 10
    /\ startTime b' = 4.
Proof.
  assert (Hact : Keys.active_block (Store.setCurrentTime 4 two_block_store)
                 = Some block_B) by reflexivity.
  assert (Hinv : Trim.trim_invariant block_B 10).
  { unfold Trim.trim_invariant. simpl. repeat split; vm_compute; congruence. }
  assert (Hcur : 0 <= currentTime
                        (Store.playback (Store.setCurrentTime 4 two_block_store)))
    by (vm_compute; congruence).
  destruct (keyI_keeps_trim_invariant _ _ _ Hact Hinv Hcur)
    as (b' & Hfind & Hinv' & _ & Hcase).
  exists b'. split; [exact Hfind|]. split; [exact Hinv'|].
  destruct Hcase as [->|[Hs _]]; [|exact Hs].
  vm_compute in Hfind. discriminate.
Defined.


(** X13. The space bar toggles playback and nothing else: pressing it
    twice gives back the store as it was, clips and timeline are never
    touched, and a key pressed while typing in an input does nothing. *)
Theorem space_twice_restores (s : Store.t) :
  Shortcuts.handleKeyPress false Shortcuts.Space
    (Shortcuts.handleKeyPress false Shortcuts.Space s) = s
  /\ Store.timelineBlocks (Shortcuts.handleKeyPress false Shortcuts.Space s)
     = Store.timelineBlocks s
  /\ Store.clips (Shortcuts.handleKeyPress false Shortcuts.Space s)
     = Store.clips s
  /\ isPlaying (Store.playback (Shortcuts.handleKeyPress false Shortcuts.Space s))
     = (if Keys.hasClips s then negb (isPlaying (Store.playback s))
        else isPlaying (Store.playback s))
  /\ forall k, Shortcuts.handleKeyPress true k s = s.
Proof.
  unfold Shortcuts.handleKeyPress, Shortcuts.keySpace.
  destruct (Keys.hasClips s) eqn:Hc.
  - assert (Hc' : Keys.hasClips
                    (Store.setPlaying (negb (isPlaying (Store.playback s))) s)
                  = true) by exact Hc.
    rewrite Hc'.
    destruct s as [cs bs [p t d a] q]. cbn.
    rewrite negb_involutive. repeat split; reflexivity.
  - rewrite Hc. repeat split; reflexivity.
Qed.

(** *** Dragging a trim handle *)

Lemma updateBlock_find_other (bid other : string) (upd : BlockUpdates)
    (blocks : list TimelineBlock) :
  u_id upd = None ->
  other <> bid ->
  Store.find_block other
    (map (fun x => if String.eqb (id x) bid then Store.spread x upd else x) blocks)
  = Store.find_block other blocks.
Proof.
  intros Hid Hne. unfold Store.find_block.
  induction blocks as [|x rest IH]; [reflexivity|].
  cbn [map find].
  destruct (String.eqb (id x) bid) eqn:E.
  - assert (Hsame : id (Store.spread x upd) = id x).
    { unfold Store.spread. simpl. rewrite Hid. reflexivity. }
    rewrite Hsame.
    apply String.eqb_eq in E.
    assert (Hx : String.eqb (id x) other = false)
      by (apply String.eqb_neq; congruence).
    rewrite Hx. exact IH.
  - destruct (String.eqb (id x) other); [reflexivity|exact IH].
Qed.

Lemma drag_moves (block : TimelineBlock) (clip : VideoClip) (ratios : list Q) :
  forall st,
    Trim.trimming st <> None ->
    let st' := fold_left (fun st r => Trim.handleMouseMove block clip r st)
                 ratios st in
    Trim.trimming st' = Trim.trimming st
    /\ (Trim.trimming st = Some Trim.HStart -> Trim.temp_end st' = Trim.temp_end st)
    /\ (Trim.trimming st = Some Trim.HEnd ->
        Trim.temp_start st' = Trim.temp_start st).
Proof.
  induction ratios as [|r rest IH]; intros st Htr; [cbn; auto|].
  cbn [fold_left].
  assert (Hone : Trim.trimming (Trim.handleMouseMove block clip r st)
                 = Trim.trimming st
                 /\ (Trim.trimming st = Some Trim.HStart ->
                     Trim.temp_end (Trim.handleMouseMove block clip r st)
                     = Trim.temp_end st)
                 /\ (Trim.trimming st = Some Trim.HEnd ->
                     Trim.temp_start (Trim.handleMouseMove block clip r st)
                     = Trim.temp_start st)).
  { unfold Trim.handleMouseMove.
    destruct (Trim.trimming st) as [[|]|] eqn:E; cbn; rewrite ?E;
      (split; [reflexivity|split; intros; solve [reflexivity|discriminate|congruence]]). }
  destruct Hone as (H1 & H2 & H3).
  destruct (IH (Trim.handleMouseMove block clip r st)) as (I1 & I2 & I3);
    [rewrite H1; exact Htr|].
  rewrite H1 in I1, I2, I3.
  split; [exact I1|]. split.
  - intros E. rewrite (I2 E). apply H2. exact E.
  - intros E. rewrite (I3 E). apply H3. exact E.
Qed.

(** X15. What a drag of a trim handle commits: the block stored under the
    id afterwards has [duration = endTime - startTime]; dragging the start
    handle leaves the end where it was and dragging the end handle leaves the
    start; a press and release without a move in between commits the times
    the block had (and recomputes [duration] from them); every block with
    another id is as before. *)
Theorem drag_commits_consistent_block (block : TimelineBlock)
    (clip : VideoClip) (handle : Trim.TrimHandle) (ratios : list Q)
    (s : Store.t) :
  Store.find_block (id block) (Store.timelineBlocks s) = Some block ->
  let s' := snd (Trim.drag block clip handle ratios s) in
  (exists b',
      Store.find_block (id block) (Store.timelineBlocks s') = Some b'
      /\ duration b' = endTime b' - startTime b'
      /\ (handle = Trim.HStart -> endTime b' = endTime block)
      /\ (handle = Trim.HEnd -> startTime b' = startTime block)
      /\ (ratios = [] ->
          startTime b' = startTime block /\ endTime b' = endTime block)
      /\ id b' = id block /\ clipId b' = clipId block
      /\ order b' = order block)
  /\ (forall other, other <> id block ->
        Store.find_block other (Store.timelineBlocks s')
        = Store.find_block other (Store.timelineBlocks s)).
Proof.
  intros Hfind. unfold Trim.drag. cbv zeta.
  destruct (drag_moves block clip ratios (Trim.handleTrimStart block handle))
    as (Htr & Hend & Hstart); [discriminate|].
  set (st := fold_left (fun st r => Trim.handleMouseMove block clip r st)
               ratios (Trim.handleTrimStart block handle)) in *.
  unfold Trim.handleMouseUp. rewrite Htr.
  cbn [Trim.handleTrimStart Trim.trimming snd Trim.temp_start Trim.temp_end]
    in *.
  split.
  - eexists. split.
    + unfold Store.updateBlock. cbn [Store.timelineBlocks].
      apply updateBlock_find; [reflexivity|exact Hfind].
    + unfold Store.spread. cbn.
      split; [reflexivity|].
      split; [intros ->; apply Hend; reflexivity|].
      split; [intros ->; apply Hstart; reflexivity|].
      split; [|auto].
      intros ->. subst st. cbn. auto.
  - intros other Hne. unfold Store.updateBlock. cbn [Store.timelineBlocks].
    apply updateBlock_find_other; [reflexivity|exact Hne].
Qed.

Lemma drag_commits_consistent_block_witness :
  exists b',
    Store.find_block "F"
      (Store.timelineBlocks
         (snd (Trim.drag block_five clip_one Trim.HStart [0.5; 0.2]
                 one_block_store)))
    = Some b'
    /\ duration b' = endTime b' - startTime b'
    /\ endTime b' = 5.
Proof.
  assert (Hfind : Store.find_block (id block_five)
                    (Store.timelineBlocks one_block_store) = Some block_five)
    by reflexivity.
  destruct (proj1 (drag_commits_consistent_block block_five clip_one
                     Trim.HStart [0.5; 0.2] one_block_store Hfind))
    as (b' & H1 & H2 & H3 & _).
  exists b'. split; [exact H1|]. split; [exact H2|]. apply H3. reflexivity.
Defined.

(** *** Seeking in the preview *)

Lemma prefix_time_ge (blocks : list TimelineBlock) :
  forall acc,
    (forall b, In b blocks -> 0 <= duration b) ->
    acc <= prefix_time acc blocks.
Proof.
  induction blocks as [|b rest IH]; intros acc Hpos; cbn; [lra|].
  assert (0 <= duration b) by (apply Hpos; left; reflexivity).
  assert (acc + duration b <= prefix_time (acc + duration b) rest)
    by (apply IH; intros x Hx; apply Hpos; right; exact Hx).
  unfold prefix_time in *. lra.
Qed.

Lemma Qltb_true (a b : Q) : JS.Qltb a b = true <-> a < b.
Proof.
  unfold JS.Qltb. rewrite negb_true_iff.
  split; intro H.
  - apply Qnot_le_lt. intro Hle. apply Qle_bool_iff in Hle. congruence.
  - destruct (Qle_bool b a) eqn:E; [|reflexivity].
    apply Qle_bool_iff in E. lra.
Qed.

Lemma Qltb_false (a b : Q) : JS.Qltb a b = false <-> b <= a.
Proof.
  unfold JS.Qltb. rewrite negb_false_iff. apply Qle_bool_iff.
Qed.

(** What the loop of [handleSeek] returns. *)
Lemma locate_sound (target : Q) (blocks : list TimelineBlock) :
  forall acc i k block a,
    Seek.locate target acc i blocks = Some (k, block, a) ->
    exists j,
      k = (i + j)%nat
      /\ nth_error blocks j = Some block
      /\ a = prefix_time acc (firstn j blocks)
      /\ target < a + duration block
      /\ (j <> 0%nat -> a <= target).
Proof.
  induction blocks as [|b rest IH]; intros acc i k block a H; [discriminate|].
  cbn [Seek.locate] in H.
  destruct (JS.Qltb target (acc + duration b)) eqn:E.
  - injection H as <- <- <-. exists 0%nat.
    apply Qltb_true in E.
    split; [lia|]. split; [reflexivity|]. split; [reflexivity|].
    split; [exact E|]. intros Hj. congruence.
  - apply Qltb_false in E.
    destruct (IH _ _ _ _ _ H) as (j & Hk & Hnth & Ha & Hlt & Hle).
    exists (S j). split; [lia|]. split; [exact Hnth|].
    split; [exact Ha|]. split; [exact Hlt|].
    intros _. destruct j as [|j'].
    + cbn in Ha. subst a. exact E.
    + apply Hle. discriminate.
Qed.

Lemma locate_none (target : Q) (blocks : list TimelineBlock) :
  forall acc i,
    Seek.locate target acc i blocks = None ->
    blocks <> [] -> prefix_time acc blocks <= target.
Proof.
  induction blocks as [|b rest IH]; intros acc i H Hne; [congruence|].
  cbn [Seek.locate] in H.
  destruct (JS.Qltb target (acc + duration b)) eqn:E; [discriminate|].
  apply Qltb_false in E. cbn.
  destruct rest as [|b' rest']; [exact E|].
  apply (IH _ _ H). discriminate.
Qed.

Lemma locate_complete (target : Q) (blocks : list TimelineBlock) :
  forall acc i k block,
    (forall b, In b blocks -> 0 <= duration b) ->
    nth_error blocks k = Some block ->
    prefix_time acc (firstn k blocks) <= target ->
    target < prefix_time acc (firstn k blocks) + duration block ->
    Seek.locate target acc i blocks
    = Some ((i + k)%nat, block, prefix_time acc (firstn k blocks)).
Proof.
  induction blocks as [|b rest IH]; intros acc i k block Hpos Hnth Hle Hlt.
  - destruct k; discriminate.
  - destruct k as [|k'].
    + cbn in Hnth. injection Hnth as ->. cbn in Hle, Hlt |- *.
      assert (E : JS.Qltb target (acc + duration block) = true)
        by (apply Qltb_true; exact Hlt).
      rewrite E. rewrite Nat.add_0_r. reflexivity.
    + cbn [nth_error] in Hnth. cbn [firstn] in Hle, Hlt |- *.
      change (prefix_time acc (b :: firstn k' rest))
        with (prefix_time (acc + duration b) (firstn k' rest)) in *.
      assert (Hge : acc + duration b
                    <= prefix_time (acc + duration b) (firstn k' rest)).
      { apply prefix_time_ge. intros x Hx. apply Hpos. right.
        clear - Hx. revert k' Hx. induction rest as [|y l IHl]; intros k' Hx.
        - destruct k'; destruct Hx.
        - destruct k'; [destruct Hx|]. cbn in Hx.
          destruct Hx as [->|Hx]; [left; reflexivity|right; eauto]. }
      cbn [Seek.locate].
      assert (E : JS.Qltb target (acc + duration b) = false).
      { apply Qltb_false. eapply Qle_trans; [exact Hge|exact Hle]. }
      rewrite E.
      rewrite (IH (acc + duration b) (S i) k' block); auto.
      * replace (S i + k')%nat with (i + S k')%nat by lia. reflexivity.
      * intros x Hx. apply Hpos. right. exact Hx.
Qed.

(** X16. [handleSeek] never leaves the trimmed range of the block it
    picks.  For a target time from 0 up to (not including) the total
    duration, with each block's [duration] equal to its trimmed length, the
    seek picks a block of the sorted timeline, the time accumulated before it
    is not after the target, and the time written to the video element (at
    once for the current block, by the timer when the block changes) lies in
    [startTime, endTime) of that block; the store receives the target time
    itself. *)
Theorem seek_stays_inside_block (target : Q) (st : Player.state)
    (v : Player.video) :
  Player.videoRef st = Some v ->
  (forall b, In b (Player.sortedBlocks st) ->
     duration b = endTime b - startTime b) ->
  0 <= target ->
  target < Store.reduce_duration (Player.sortedBlocks st) ->
  exists i block videoTime,
    nth_error (Player.sortedBlocks st) i = Some block
    /\ Store.reduce_duration (firstn i (Player.sortedBlocks st)) <= target
    /\ videoTime
       = startTime block
         + (target - Store.reduce_duration (firstn i (Player.sortedBlocks st)))
    /\ startTime block <= videoTime /\ videoTime < endTime block
    /\ Seek.handleSeek target st
       = if Nat.eqb i (Player.currentBlockIndex st) then
           (Player.mk (Some (Player.mkVideo videoTime (Player.v_paused v)))
              (Player.currentBlockIndex st) (Player.isTransitioning st)
              (Player.shouldAutoPlay st)
              (Store.setCurrentTime target (Player.store st)),
            None)
         else
           (Player.mk (Player.videoRef st) i true (Player.shouldAutoPlay st)
              (Player.store st),
            Some (Seek.mkTimer videoTime target)).
Proof.
  intros Hv Hdur H0 Hlt.
  unfold Seek.handleSeek. rewrite Hv.
  destruct (Player.sortedBlocks st) as [|b0 rest] eqn:Hs.
  - unfold Store.reduce_duration in Hlt. cbn in Hlt. lra.
  - rewrite <- Hs in *.
    assert (Hlen : Nat.eqb (List.length (Player.sortedBlocks st)) 0 = false)
      by (rewrite Hs; reflexivity).
    rewrite Hlen.
    destruct (Seek.locate target 0 0%nat (Player.sortedBlocks st))
      as [[[i block] a]|] eqn:Hloc.
    + destruct (locate_sound _ _ _ _ _ _ _ Hloc)
        as (j & Hi & Hnth & Ha & Hlt' & Hle).
      cbn in Hi. subst i.
      assert (Hin : In block (Player.sortedBlocks st))
        by (eapply nth_error_In; exact Hnth).
      pose proof (Hdur block Hin) as Hd. rewrite Hd in Hlt'.
      assert (Hage : a <= target).
      { destruct j as [|j']; [|apply Hle; discriminate].
        cbn in Ha. subst a. exact H0. }
      exists j, block, (startTime block + (target - a)).
      unfold Store.reduce_duration. fold (prefix_time 0 (firstn j (Player.sortedBlocks st))).
      rewrite <- Ha.
      split; [exact Hnth|]. split; [exact Hage|]. split; [reflexivity|].
      split; [lra|]. split; [lra|].
      destruct (Nat.eqb j (Player.currentBlockIndex st)); reflexivity.
    + exfalso.
      assert (Hge : prefix_time 0 (Player.sortedBlocks st) <= target).
      { apply (locate_none _ _ _ _ Hloc). rewrite Hs. discriminate. }
      unfold Store.reduce_duration in Hlt. unfold prefix_time in Hge. lra.
Qed.

Lemma seek_stays_inside_block_witness :
  exists i block videoTime,
    nth_error (Player.sortedBlocks seeking_player) i = Some block
    /\ startTime block <= videoTime /\ videoTime < endTime block
    /\ snd (Seek.handleSeek 13 seeking_player)
       = (if Nat.eqb i 0 then None else Some (Seek.mkTimer videoTime 13)).
Proof.
  assert (Hdur : forall b, In b (Player.sortedBlocks seeking_player) ->
                   duration b = endTime b - startTime b).
  { intros b Hb. vm_compute in Hb.
    destruct Hb as [<-|[<-|[]]]; vm_compute; reflexivity. }
  assert (H0 : 0 <= 13) by (vm_compute; congruence).
  assert (Hlt : 13 < Store.reduce_duration (Player.sortedBlocks seeking_player))
    by (vm_compute; reflexivity).
  destruct (seek_stays_inside_block 13 seeking_player _ eq_refl Hdur H0 Hlt)
    as (i & block & videoTime & Hnth & _ & _ & Hlo & Hhi & Hseek).
  exists i, block, videoTime.
  split; [exact Hnth|]. split; [exact Hlo|]. split; [exact Hhi|].
  rewrite Hseek. cbn [Player.currentBlockIndex seeking_player].
  destruct (Nat.eqb i 0); reflexivity.
Defined.

(** X17. Seeking past the end.  A target at or beyond the last block (with
    no block of negative duration) moves nothing: the element, the block
    index and the flags are untouched, no timer is set, and the stored
    playback time becomes the total duration. *)
Theorem seek_past_the_end (target : Q) (st : Player.state) (v : Player.video) :
  Player.videoRef st = Some v ->
  Player.sortedBlocks st <> [] ->
  (forall b, In b (Player.sortedBlocks st) -> 0 <= duration b) ->
  Store.reduce_duration (Player.sortedBlocks st) <= target ->
  Seek.handleSeek target st
  = (Player.mk (Player.videoRef st) (Player.currentBlockIndex st)
       (Player.isTransitioning st) (Player.shouldAutoPlay st)
       (Store.setCurrentTime (Store.reduce_duration (Player.sortedBlocks st))
          (Player.store st)),
     None).
Proof.
  intros Hv Hne Hpos Hge.
  unfold Seek.handleSeek. rewrite Hv.
  assert (Hlen : Nat.eqb (List.length (Player.sortedBlocks st)) 0 = false).
  { destruct (Player.sortedBlocks st); [congruence|reflexivity]. }
  rewrite Hlen.
  destruct (Seek.locate target 0 0%nat (Player.sortedBlocks st))
    as [[[i block] a]|] eqn:Hloc; [|reflexivity].
  exfalso.
  destruct (locate_sound _ _ _ _ _ _ _ Hloc) as (j & _ & Hnth & Ha & Hlt & _).
  assert (Hsplit : Player.sortedBlocks st
                   = firstn j (Player.sortedBlocks st)
                     ++ block :: skipn (S j) (Player.sortedBlocks st)).
  { clear - Hnth. revert j Hnth.
    induction (Player.sortedBlocks st) as [|x l IH]; intros j Hnth.
    - destruct j; discriminate.
    - destruct j as [|j']; cbn in Hnth |- *.
      + injection Hnth as ->. reflexivity.
      + f_equal. apply IH. exact Hnth. }
  assert (Htot : a + duration block
                 <= Store.reduce_duration (Player.sortedBlocks st)).
  { rewrite Hsplit at 1. unfold Store.reduce_duration.
    rewrite fold_left_app. cbn [fold_left].
    fold (prefix_time 0 (firstn j (Player.sortedBlocks st))).
    rewrite <- Ha.
    fold (prefix_time (a + duration block)
            (skipn (S j) (Player.sortedBlocks st))).
    apply prefix_time_ge. intros x Hx. apply Hpos.
    rewrite Hsplit. apply in_or_app. right. right. exact Hx. }
  lra.
Qed.

Lemma seek_past_the_end_witness :
  currentTime (Store.playback (Player.store (fst (Seek.handleSeek 25 seeking_player))))
  = Store.reduce_duration (Player.sortedBlocks seeking_player).
Proof.
  assert (Hpos : forall b, In b (Player.sortedBlocks seeking_player) ->
                   0 <= duration b).
  { intros b Hb. vm_compute in Hb.
    destruct Hb as [<-|[<-|[]]]; vm_compute; congruence. }
  assert (Hge : Store.reduce_duration (Player.sortedBlocks seeking_player) <= 25)
    by (vm_compute; congruence).
  assert (Hne : Player.sortedBlocks seeking_player <> [])
    by (vm_compute; discriminate).
  rewrite (seek_past_the_end 25 seeking_player _ eq_refl Hne Hpos Hge).
  reflexivity.
Defined.

Lemma sortedBlocks_setCurrentTime (t : Q) (st : Player.state) :
  sort_by_order (Store.timelineBlocks (Store.setCurrentTime t (Player.store st)))
  = Player.sortedBlocks st.
Proof. reflexivity. Qed.

(** X18. A seek inside the current block and the next time-update tick
    agree: when the target falls in the current block, at least 0.05 s
    before its end, [handleSeek] moves the element at once, and
    [handleTimeUpdate] on the element so moved computes the target again as
    cumulative time and leaves index, element and flags as the seek left
    them. *)
Theorem seek_then_time_update (target : Q) (st : Player.state)
    (v : Player.video) (block : TimelineBlock) :
  Player.videoRef st = Some v ->
  Player.isTransitioning st = false ->
  (forall b, In b (Player.sortedBlocks st) -> 0 <= duration b) ->
  nth_error (Player.sortedBlocks st) (Player.currentBlockIndex st) = Some block ->
  duration block = endTime block - startTime block ->
  let before :=
    Store.reduce_duration
      (firstn (Player.currentBlockIndex st) (Player.sortedBlocks st)) in
  before <= target ->
  target < before + duration block - Player.tolerance ->
  let sought := fst (Seek.handleSeek target st) in
  let ticked := Player.handleTimeUpdate sought in
  snd (Seek.handleSeek target st) = None
  /\ currentTime (Store.playback (Player.store sought)) = target
  /\ Player.videoRef sought
     = Some (Player.mkVideo (startTime block + (target - before))
               (Player.v_paused v))
  /\ currentTime (Store.playback (Player.store ticked)) == target
  /\ Player.videoRef ticked = Player.videoRef sought
  /\ Player.currentBlockIndex ticked = Player.currentBlockIndex st
  /\ Player.isTransitioning ticked = false.
Proof.
  intros Hv Htr Hpos Hnth Hd before Hle Hlt sought ticked.
  assert (Hne : Nat.eqb (List.length (Player.sortedBlocks st)) 0 = false).
  { destruct (Player.sortedBlocks st);
      [destruct (Player.currentBlockIndex st); discriminate|reflexivity]. }
  assert (Htol : Player.tolerance == 0.05) by reflexivity.
  assert (Hloc : Seek.locate target 0 0%nat (Player.sortedBlocks st)
                 = Some (Player.currentBlockIndex st, block, before)).
  { apply (locate_complete target (Player.sortedBlocks st) 0 0%nat
             (Player.currentBlockIndex st) block Hpos Hnth Hle).
    change (target < before + duration block). lra. }
  assert (Hseek : Seek.handleSeek target st
                  = (Player.mk
                       (Some (Player.mkVideo (startTime block + (target - before))
                                (Player.v_paused v)))
                       (Player.currentBlockIndex st) (Player.isTransitioning st)
                       (Player.shouldAutoPlay st)
                       (Store.setCurrentTime target (Player.store st)),
                     None)).
  { unfold Seek.handleSeek. rewrite Hv, Hne, Hloc.
    rewrite Nat.eqb_refl. reflexivity. }
  subst sought ticked. rewrite Hseek. cbn [fst snd].
  split; [reflexivity|]. split; [reflexivity|]. split; [reflexivity|].
  set (sought := Player.mk
                   (Some (Player.mkVideo (startTime block + (target - before))
                            (Player.v_paused v)))
                   (Player.currentBlockIndex st) (Player.isTransitioning st)
                   (Player.shouldAutoPlay st)
                   (Store.setCurrentTime target (Player.store st))).
  assert (Hsorted : Player.sortedBlocks sought = Player.sortedBlocks st)
    by reflexivity.
  assert (E1 : JS.Qgeb (startTime block + (target - before))
                 (endTime block - Player.tolerance) = false).
  { apply Qgeb_false.
    assert (Hlt' : target < before + (endTime block - startTime block)
                            - Player.tolerance)
      by (rewrite <- Hd; exact Hlt).
    lra. }
  assert (E2 : JS.Qltb (startTime block + (target - before))
                 (startTime block) = false).
  { apply Qltb_false. lra. }
  assert (Htick : Player.handleTimeUpdate sought
                  = Player.mk (Player.videoRef sought)
                      (Player.currentBlockIndex st) (Player.isTransitioning st)
                      (Player.shouldAutoPlay st)
                      (Store.setCurrentTime
                         (before + (startTime block + (target - before)
                                    - startTime block))
                         (Player.store sought))).
  { unfold Player.handleTimeUpdate. rewrite Hsorted.
    cbn [sought Player.videoRef Player.currentBlockIndex
           Player.isTransitioning Player.shouldAutoPlay Player.v_currentTime].
    rewrite Hne, Htr, Hnth. cbn [orb]. rewrite E1, E2. reflexivity. }
  rewrite Htick.
  cbn [Player.videoRef Player.currentBlockIndex Player.isTransitioning
         Player.store Store.setCurrentTime Store.playback currentTime].
  split; [lra|]. split; [reflexivity|]. split; [reflexivity|exact Htr].
Qed.

Lemma seek_then_time_update_witness :
  currentTime
    (Store.playback
       (Player.store
          (Player.handleTimeUpdate (fst (Seek.handleSeek 3 seeking_player)))))
  == 3.
Proof.
  assert (Hpos : forall b, In b (Player.sortedBlocks seeking_player) ->
                   0 <= duration b).
  { intros b Hb. vm_compute in Hb.
    destruct Hb as [<-|[<-|[]]]; vm_compute; congruence. }
  assert (Hnth : nth_error (Player.sortedBlocks seeking_player)
                   (Player.currentBlockIndex seeking_player) = Some block_A)
    by reflexivity.
  assert (Hd : duration block_A = endTime block_A - startTime block_A)
    by (vm_compute; reflexivity).
  assert (Hle : Store.reduce_duration
                  (firstn (Player.currentBlockIndex seeking_player)
                     (Player.sortedBlocks seeking_player)) <= 3)
    by (vm_compute; congruence).
  assert (Hlt : 3 < Store.reduce_duration
                      (firstn (Player.currentBlockIndex seeking_player)
                         (Player.sortedBlocks seeking_player))
                    + duration block_A - Player.tolerance)
    by (vm_compute; reflexivity).
  exact (proj1 (proj2 (proj2 (proj2
           (seek_then_time_update 3 seeking_player _ block_A eq_refl eq_refl
              Hpos Hnth Hd Hle Hlt))))).
Defined.

Lemma findIndex_some (bid : string) (blocks : list TimelineBlock) :
  forall k,
    BlockClick.findIndex bid blocks = Some k ->
    exists b, nth_error blocks k = Some b /\ id b = bid.
Proof.
  induction blocks as [|x rest IH]; intros k H; [discriminate|].
  cbn [BlockClick.findIndex] in H.
  destruct (String.eqb (id x) bid) eqn:E.
  - injection H as <-. exists x. split; [reflexivity|].
    apply String.eqb_eq. exact E.
  - destruct (BlockClick.findIndex bid rest) as [k'|]; [|discriminate].
    injection H as <-. apply (IH k' eq_refl).
Qed.

Lemma nth_error_lt {A : Type} (l : list A) (k : nat) (a : A) :
  nth_error l k = Some a -> (k < List.length l)%nat.
Proof. intros H. apply nth_error_Some. congruence. Qed.

(** X19. The preview player's block index stays a valid index.  With a
    timeline that is not empty and an index inside it, each handler
    ([handleTimeUpdate], [handleEnded], [handleSeek] and its timer, the
    effect following the active block) leaves the timeline blocks as they
    are and an index inside the timeline. *)
Theorem player_index_stays_valid (st : Player.state) :
  Player.sortedBlocks st <> [] ->
  (Player.currentBlockIndex st < List.length (Player.sortedBlocks st))%nat ->
  let valid (st' : Player.state) :=
    Player.sortedBlocks st' = Player.sortedBlocks st
    /\ (Player.currentBlockIndex st'
        < List.length (Player.sortedBlocks st))%nat in
  valid (Player.handleTimeUpdate st)
  /\ valid (Seek.handleEnded st)
  /\ (forall target, valid (fst (Seek.handleSeek target st)))
  /\ (forall t, valid (Seek.timer_fires t st))
  /\ valid (Seek.follow_active_block st).
Proof.
  intros Hne Hidx valid.
  assert (Hpos : (0 < List.length (Player.sortedBlocks st))%nat).
  { destruct (Player.sortedBlocks st); [congruence|simpl; lia]. }
  assert (Hsame : valid st) by (split; [reflexivity|exact Hidx]).
  split; [|split; [|split; [|split]]].
  - unfold Player.handleTimeUpdate.
    destruct (Player.videoRef st) as [v|]; [|exact Hsame].
    destruct (Nat.eqb (List.length (Player.sortedBlocks st)) 0
              || Player.isTransitioning st); [exact Hsame|].
    destruct (nth_error (Player.sortedBlocks st) (Player.currentBlockIndex st))
      as [currentBlock|]; [|exact Hsame].
    destruct (JS.Qgeb (Player.v_currentTime v)
                (endTime currentBlock - Player.tolerance)).
    + destruct (Nat.ltb (Player.currentBlockIndex st)
                  (List.length (Player.sortedBlocks st) - 1)) eqn:E.
      * apply Nat.ltb_lt in E. split; [reflexivity|]. cbn. lia.
      * split; [reflexivity|exact Hpos].
    + destruct (JS.Qltb (Player.v_currentTime v) (startTime currentBlock));
        (split; [reflexivity|exact Hidx]).
  - unfold Seek.handleEnded.
    destruct (Nat.ltb (Player.currentBlockIndex st)
                (List.length (Player.sortedBlocks st) - 1)) eqn:E.
    + apply Nat.ltb_lt in E. split; [reflexivity|]. cbn. lia.
    + split; [reflexivity|exact Hpos].
  - intros target. unfold Seek.handleSeek.
    destruct (Player.videoRef st) as [v|]; [|exact Hsame].
    destruct (Nat.eqb (List.length (Player.sortedBlocks st)) 0);
      [exact Hsame|].
    destruct (Seek.locate target 0 0%nat (Player.sortedBlocks st))
      as [[[i block] a]|] eqn:Hloc.
    + destruct (locate_sound _ _ _ _ _ _ _ Hloc) as (j & Hi & Hnth & _).
      cbn in Hi. subst i.
      destruct (negb (Nat.eqb j (Player.currentBlockIndex st)));
        cbn [fst]; (split; [reflexivity|]); cbn [Player.currentBlockIndex].
      * eapply nth_error_lt. exact Hnth.
      * exact Hidx.
    + split; [reflexivity|exact Hidx].
  - intros t. unfold Seek.timer_fires.
    destruct (Player.videoRef st); [|exact Hsame].
    split; [reflexivity|exact Hidx].
  - unfold Seek.follow_active_block.
    destruct (activeBlockId (Store.playback (Player.store st))) as [i|];
      [|exact Hsame].
    destruct (negb (Keys.truthy (Some i))
              || Nat.eqb (List.length (Player.sortedBlocks st)) 0
              || Player.isTransitioning st); [exact Hsame|].
    destruct (BlockClick.findIndex i (Player.sortedBlocks st)) as [k|] eqn:Hk;
      [|exact Hsame].
    destruct (findIndex_some _ _ _ Hk) as (b & Hnth & _).
    destruct (negb (Nat.eqb k (Player.currentBlockIndex st))); [|exact Hsame].
    split; [reflexivity|]. cbn [Player.currentBlockIndex].
    eapply nth_error_lt. exact Hnth.
Qed.

Lemma player_index_stays_valid_witness :
  (Player.currentBlockIndex
     (fst (Seek.handleSeek 13 seeking_player))
   < List.length (Player.sortedBlocks seeking_player))%nat.
Proof.
  assert (Hne : Player.sortedBlocks seeking_player <> [])
    by (vm_compute; discriminate).
  assert (Hidx : (Player.currentBlockIndex seeking_player
                  < List.length (Player.sortedBlocks seeking_player))%nat)
    by (vm_compute; lia).
  exact (proj2 (proj1 (proj2 (proj2
           (player_index_stays_valid seeking_player Hne Hidx))) 13)).
Defined.

(** X20. Clicking a block and the seek loop agree.  [handleBlockClick]
    makes the block active, leaves clips and timeline alone and stores as
    playback time the durations summed before the block's place in the sorted
    timeline; when no block has a negative duration and the clicked one has a
    positive one, the loop of [handleSeek] finds for that time the clicked
    block's place again, with an offset of 0 into the block. *)
Theorem block_click_seeks_to_block_start (block : TimelineBlock)
    (s : Store.t) (k : nat) :
  let sorted := sort_by_order (Store.timelineBlocks s) in
  BlockClick.findIndex (id block) sorted = Some k ->
  (forall x, In x sorted -> 0 <= duration x) ->
  let s' := BlockClick.handleBlockClick block s in
  activeBlockId (Store.playback s') = Some (id block)
  /\ Store.timelineBlocks s' = Store.timelineBlocks s
  /\ Store.clips s' = Store.clips s
  /\ currentTime (Store.playback s') = Store.reduce_duration (firstn k sorted)
  /\ exists b,
      nth_error sorted k = Some b /\ id b = id block
      /\ (0 < duration b ->
          Seek.locate (currentTime (Store.playback s')) 0 0%nat sorted
          = Some (k, b, currentTime (Store.playback s'))).
Proof.
  intros sorted Hk Hpos s'.
  assert (Hs' : s' = Store.setCurrentTime
                       (Store.reduce_duration (firstn k sorted))
                       (Store.setActiveBlock (Some (id block)) s)).
  { subst s'. unfold BlockClick.handleBlockClick. cbv zeta.
    change (sort_by_order
              (Store.timelineBlocks
                 (Store.setActiveBlock (Some (id block)) s)))
      with sorted.
    rewrite Hk. reflexivity. }
  rewrite Hs'. cbn [Store.setCurrentTime Store.setActiveBlock Store.playback
                      Store.timelineBlocks Store.clips activeBlockId currentTime].
  split; [reflexivity|]. split; [reflexivity|]. split; [reflexivity|].
  split; [reflexivity|].
  destruct (findIndex_some _ _ _ Hk) as (b & Hnth & Hid).
  exists b. split; [exact Hnth|]. split; [exact Hid|].
  intros Hb.
  apply (locate_complete _ sorted 0 0%nat k b Hpos Hnth).
  - unfold Store.reduce_duration, prefix_time. lra.
  - unfold Store.reduce_duration, prefix_time. lra.
Qed.

Lemma block_click_seeks_to_block_start_witness :
  currentTime
    (Store.playback (BlockClick.handleBlockClick block_B two_block_store))
  = Store.reduce_duration
      (firstn 1 (sort_by_order (Store.timelineBlocks two_block_store))).
Proof.
  assert (Hk : BlockClick.findIndex (id block_B)
                 (sort_by_order (Store.timelineBlocks two_block_store))
               = Some 1%nat) by reflexivity.
  assert (Hpos : forall x,
             In x (sort_by_order (Store.timelineBlocks two_block_store)) ->
             0 <= duration x).
  { intros x Hx. vm_compute in Hx.
    destruct Hx as [<-|[<-|[]]]; vm_compute; congruence. }
  exact (proj1 (proj2 (proj2 (proj2
           (block_click_seeks_to_block_start block_B two_block_store 1
              Hk Hpos))))).
Defined.

(** X21. The volume the preview gives the element, the product of master
    and clip volume capped at 1, lies in [0,1] for volumes that are not
    negative; with the master volume at 100 and a clip volume of at most 100
    it is the volume the export gives the same clip, [volume / 100]. *)
Theorem preview_volume_in_range (masterPercent clipPercent : Q) :
  0 <= masterPercent -> 0 <= clipPercent ->
  0 <= Seek.finalVolume masterPercent clipPercent
  /\ Seek.finalVolume masterPercent clipPercent <= 1
  /\ (masterPercent == 100 -> clipPercent <= 100 ->
      Seek.finalVolume masterPercent clipPercent == clipPercent / 100).
Proof.
  intros Hm Hc. unfold Seek.finalVolume.
  assert (Hprod : 0 <= (masterPercent / 100) * (clipPercent / 100)).
  { apply Qmult_le_0_compat; apply Qle_shift_div_l; lra. }
  split; [apply Q.min_glb; lra|]. split; [apply Q.le_min_r|].
  intros Hm100 Hc100.
  assert (Heq : (masterPercent / 100) * (clipPercent / 100) == clipPercent / 100).
  { rewrite Hm100. field. }
  rewrite Heq. apply Q.min_l.
  apply Qle_shift_div_r; lra.
Qed.

Lemma preview_volume_in_range_witness :
  Seek.finalVolume 100 50 == 50 / 100.
Proof.
  assert (Hm : 0 <= 100) by (vm_compute; congruence).
  assert (Hc : 0 <= 50) by (vm_compute; congruence).
  assert (Hm100 : 100 == 100) by reflexivity.
  assert (Hc100 : 50 <= 100) by (vm_compute; congruence).
  exact (proj2 (proj2 (preview_volume_in_range 100 50 Hm Hc)) Hm100 Hc100).
Defined.

(** *** The store *)

Lemma updateClip_find (cid : string) (upd : ClipUpdates)
    (clips : list VideoClip) (c : VideoClip) :
  cu_id upd = None ->
  Store.find_clip cid clips = Some c ->
  Store.find_clip cid
    (map (fun x => if String.eqb (clip_id x) cid then Clips.spread x upd else x)
         clips)
  = Some (Clips.spread c upd).
Proof.
  intros Hid. unfold Store.find_clip.
  induction clips as [|x rest IH]; simpl; [discriminate|].
  destruct (String.eqb (clip_id x) cid) eqn:E.
  - intros H. injection H as <-.
    assert (Hsame : clip_id (Clips.spread x upd) = clip_id x).
    { unfold Clips.spread. simpl. rewrite Hid. reflexivity. }
    cbn [find]. rewrite Hsame, E. reflexivity.
  - simpl. rewrite E. exact IH.
Qed.

Lemma updateClip_find_other (cid other : string) (upd : ClipUpdates)
    (clips : list VideoClip) :
  cu_id upd = None ->
  other <> cid ->
  Store.find_clip other
    (map (fun x => if String.eqb (clip_id x) cid then Clips.spread x upd else x)
         clips)
  = Store.find_clip other clips.
Proof.
  intros Hid Hne. unfold Store.find_clip.
  induction clips as [|x rest IH]; [reflexivity|].
  cbn [map find].
  destruct (String.eqb (clip_id x) cid) eqn:E.
  - assert (Hsame : clip_id (Clips.spread x upd) = clip_id x).
    { unfold Clips.spread. simpl. rewrite Hid. reflexivity. }
    rewrite Hsame.
    apply String.eqb_eq in E.
    assert (Hx : String.eqb (clip_id x) other = false)
      by (apply String.eqb_neq; congruence).
    rewrite Hx. exact IH.
  - destruct (String.eqb (clip_id x) other); [reflexivity|exact IH].
Qed.

(** X22. The stored total duration follows the timeline through every
    sequence of store actions that does not remove a clip: if
    [playback.totalDuration] is the sum [getTotalDuration] computes before
    the actions (adding and updating clips, adding, removing, reordering and
    updating blocks, the playback setters), it is so after them. *)
Theorem total_duration_follows_timeline (actions : list Session.action)
    (s : Store.t) :
  totalDuration (Store.playback s) = Store.getTotalDuration s ->
  forallb (fun a => negb (Session.removes_clip a)) actions = true ->
  totalDuration (Store.playback (Session.run s actions))
  = Store.getTotalDuration (Session.run s actions).
Proof.
  revert s. induction actions as [|a rest IH]; intros s Hs Hall; [exact Hs|].
  cbn [forallb] in Hall. apply andb_true_iff in Hall. destruct Hall as [Ha Hrest].
  cbn [Session.run fold_left]. apply IH; [|exact Hrest].
  destruct a as [c|i|i u|b|f|t|i]; cbn in Ha |- *;
    try discriminate; try exact Hs.
  destruct b; reflexivity.
Qed.

Lemma total_duration_follows_timeline_witness :
  totalDuration
    (Store.playback
       (Session.run Store.initial
          [Session.AddClip clip_one;
           Session.Timeline (Store.AddBlock block_A);
           Session.SetCurrentTime 3;
           Session.Timeline (Store.AddBlock block_B);
           Session.Timeline (Store.RemoveBlock "A")]))
  = Store.getTotalDuration
      (Session.run Store.initial
         [Session.AddClip clip_one;
          Session.Timeline (Store.AddBlock block_A);
          Session.SetCurrentTime 3;
          Session.Timeline (Store.AddBlock block_B);
          Session.Timeline (Store.RemoveBlock "A")]).
Proof.
  apply total_duration_follows_timeline; reflexivity.
Defined.

(** X23. The audio controls of a clip change that clip's audio settings
    and nothing else.  For the clip the store holds under the id: moving the
    slider stores the new volume and keeps the mute flag; the mute button
    flips the flag and keeps the volume, and pressed again on the re-rendered
    clip it gives back the clip as it was; timeline and playback are
    untouched and every other id is looked up as before. *)
Theorem audio_controls_change_one_clip (clip : VideoClip) (value : Z)
    (s : Store.t) :
  Store.getClipById (clip_id clip) s = Some clip ->
  let turned := Clips.handleVolumeChange clip value s in
  let toggled := Clips.handleMuteToggle clip s in
  (exists c,
      Store.getClipById (clip_id clip) turned = Some c
      /\ audioSettings c
         = mkAudio (inject_Z value) (muted (audioSettings clip))
      /\ file c = file clip /\ metadata c = metadata clip
      /\ clip_startTime c = clip_startTime clip
      /\ clip_endTime c = clip_endTime clip
      /\ thumbnailUrl c = thumbnailUrl clip)
  /\ (exists c,
         Store.getClipById (clip_id clip) toggled = Some c
         /\ audioSettings c
            = mkAudio (volume (audioSettings clip))
                      (negb (muted (audioSettings clip)))
         /\ Store.getClipById (clip_id clip) (Clips.handleMuteToggle c toggled)
            = Some clip)
  /\ Store.timelineBlocks turned = Store.timelineBlocks s
  /\ Store.playback turned = Store.playback s
  /\ Store.timelineBlocks toggled = Store.timelineBlocks s
  /\ Store.playback toggled = Store.playback s
  /\ (forall other, other <> clip_id clip ->
        Store.getClipById other turned = Store.getClipById other s
        /\ Store.getClipById other toggled = Store.getClipById other s).
Proof.
  intros Hfind turned toggled.
  unfold Store.getClipById in *.
  split; [|split].
  - eexists. split.
    + subst turned. unfold Clips.handleVolumeChange, Clips.updateClip.
      cbn [Store.clips]. apply updateClip_find; [reflexivity|exact Hfind].
    + cbn. repeat split; reflexivity.
  - set (c1 := Clips.spread clip
                  (Clips.audio_update
                     (mkAudio (volume (audioSettings clip))
                              (negb (muted (audioSettings clip)))))).
    assert (H1 : Store.find_clip (clip_id clip) (Store.clips toggled) = Some c1).
    { subst toggled c1. unfold Clips.handleMuteToggle, Clips.updateClip.
      cbn [Store.clips]. apply updateClip_find; [reflexivity|exact Hfind]. }
    exists c1. split; [exact H1|]. split; [reflexivity|].
    assert (Hid : clip_id c1 = clip_id clip) by reflexivity.
    unfold Clips.handleMuteToggle at 1. rewrite Hid.
    unfold Clips.updateClip at 1. cbn [Store.clips].
    erewrite updateClip_find; [|reflexivity|exact H1].
    subst c1. destruct clip as [i f m st en [vol mu] th]. cbn.
    rewrite negb_involutive. reflexivity.
  - repeat split; try reflexivity.
    + subst turned. unfold Clips.handleVolumeChange, Clips.updateClip.
      cbn [Store.clips]. apply updateClip_find_other; [reflexivity|assumption].
    + subst toggled. unfold Clips.handleMuteToggle, Clips.updateClip.
      cbn [Store.clips]. apply updateClip_find_other; [reflexivity|assumption].
Qed.

Lemma audio_controls_change_one_clip_witness :
  exists c,
    Store.getClipById "c2" (Clips.handleVolumeChange clip_two 80 two_block_store)
    = Some c
    /\ audioSettings c = mkAudio (inject_Z 80) false.
Proof.
  assert (Hfind : Store.getClipById (clip_id clip_two) two_block_store
                  = Some clip_two) by reflexivity.
  destruct (proj1 (audio_controls_change_one_clip clip_two 80 two_block_store
                     Hfind)) as (c & H1 & H2 & _).
  exists c. split; [exact H1|exact H2].
Defined.

(** *** Upload *)

Lemma extractVideoMetadata_positive (env : Upload.meta_env) (md : VideoMetadata) :
  Upload.extractVideoMetadata env = inr md ->
  0 < md_duration md /\ md_codec md = "unknown"%string
  /\ md_frameRate md = 30 /\ md_bitrate md = None.
Proof.
  unfold Upload.extractVideoMetadata.
  destruct env as [| |d sought w h]; try discriminate.
  cbv zeta.
  destruct (if Upload.isFinite d then d
            else match sought with Some t => t | None => d end)
    as [q| | |]; try discriminate.
  destruct (Qle_bool q 0) eqn:E; [discriminate|].
  intros H. injection H as <-. cbn.
  split; [|auto].
  apply Qnot_le_lt. intro Hle. apply Qle_bool_iff in Hle. congruence.
Qed.

Section UploadFacts.

Variable formatBytes : Z -> string.
Variable show_number : Q -> string.

Lemma validate_valid (size : Z) (type : string) :
  Upload.valid (Upload.validateVideoFile formatBytes size type)
  = Z.leb size Upload.MAX_FILE_SIZE
    && existsb (String.eqb type) Upload.SUPPORTED_FORMATS.
Proof.
  unfold Upload.validateVideoFile.
  destruct (Z.ltb Upload.MAX_FILE_SIZE size) eqn:E1.
  - apply Z.ltb_lt in E1.
    assert (E : Z.leb size Upload.MAX_FILE_SIZE = false)
      by (apply Z.leb_gt; exact E1).
    rewrite E. reflexivity.
  - apply Z.ltb_ge in E1.
    assert (E : Z.leb size Upload.MAX_FILE_SIZE = true)
      by (apply Z.leb_le; exact E1).
    rewrite E. cbn [andb].
    destruct (existsb (String.eqb type) Upload.SUPPORTED_FORMATS); cbn [negb].
    + destruct (Z.ltb Upload.WARNING_FILE_SIZE size); reflexivity.
    + reflexivity.
Qed.

Lemma warned_store (f : Upload.incoming) (st : Upload.state) :
  Upload.store (Upload.warned formatBytes f st) = Upload.store st
  /\ Upload.isProcessing (Upload.warned formatBytes f st) = Upload.isProcessing st
  /\ exists notices,
      Upload.toasts (Upload.warned formatBytes f st) = Upload.toasts st ++ notices
      /\ Forall (fun t => Verdict.is_outcome t = false) notices.
Proof.
  unfold Upload.warned.
  destruct (Upload.warning _) as [w|].
  - destruct (String.eqb w EmptyString).
    + split; [reflexivity|]. split; [reflexivity|].
      exists []. rewrite app_nil_r. split; [reflexivity|constructor].
    + split; [reflexivity|]. split; [reflexivity|].
      exists [Panel.ToastPlain w]. split; [reflexivity|].
      constructor; [reflexivity|constructor].
  - split; [reflexivity|]. split; [reflexivity|].
    exists []. rewrite app_nil_r. split; [reflexivity|constructor].
Qed.

(** The effect of one turn of the loop of [handleFiles]. *)
Lemma handleFile_effect (f : Upload.incoming) (st : Upload.state) :
  let st' := Upload.handleFile formatBytes show_number f st in
  if Upload.accepted f then
    exists clip block,
      Store.clips (Upload.store st') = Store.clips (Upload.store st) ++ [clip]
      /\ Store.timelineBlocks (Upload.store st')
         = Store.timelineBlocks (Upload.store st) ++ [block]
      /\ clip_id clip = ("clip-" ++ Upload.f_clipKey f)%string
      /\ clipId block = clip_id clip
      /\ clip_startTime clip = 0
      /\ clip_endTime clip = md_duration (metadata clip)
      /\ audioSettings clip = mkAudio 100 false
      /\ 0 < md_duration (metadata clip)
      /\ md_duration (metadata clip) <= 3600
      /\ startTime block = 0
      /\ endTime block = md_duration (metadata clip)
      /\ duration block = endTime block - startTime block
      /\ order block
         = inject_Z (Z.of_nat (List.length
                                 (Store.timelineBlocks (Upload.store st))))
      /\ Trim.trim_invariant block (md_duration (metadata clip))
      /\ totalDuration (Store.playback (Upload.store st'))
         = Store.getTotalDuration (Upload.store st')
      /\ exists notices message,
          Upload.toasts st'
          = Upload.toasts st ++ notices ++ [Panel.ToastSuccess message]
          /\ Forall (fun t => Verdict.is_outcome t = false) notices
  else
    Upload.store st' = Upload.store st
    /\ exists notices message,
        Upload.toasts st'
        = Upload.toasts st ++ notices ++ [Panel.ToastError message]
        /\ Forall (fun t => Verdict.is_outcome t = false) notices.
Proof.
  intros st'. subst st'.
  unfold Upload.handleFile, Upload.accepted. cbv zeta.
  rewrite validate_valid.
  destruct (Z.leb (Upload.f_size f) Upload.MAX_FILE_SIZE
            && existsb (String.eqb (Upload.f_type f)) Upload.SUPPORTED_FORMATS)
    eqn:Hvalid; cbn [negb andb].
  2:{ split; [reflexivity|].
      exists []. eexists. split; [reflexivity|constructor]. }
  destruct (warned_store f st) as (Hstore & _ & notices & Htoasts & Hnotices).
  destruct (Upload.extractVideoMetadata (Upload.f_meta f)) as [msg|md] eqn:Hmeta.
  { cbn [andb]. split; [cbn; exact Hstore|].
    exists notices. eexists. split; [|exact Hnotices].
    cbn. rewrite Htoasts, <- app_assoc. reflexivity. }
  destruct (extractVideoMetadata_positive _ _ Hmeta) as (Hpos & _).
  assert (E0 : Qle_bool (md_duration md) 0 = false).
  { destruct (Qle_bool (md_duration md) 0) eqn:E; [|reflexivity].
    apply Qle_bool_iff in E. lra. }
  rewrite E0.
  destruct (Qle_bool (md_duration md) 3600) eqn:Hhour; cbn [negb andb].
  2:{ split; [cbn; exact Hstore|].
      exists notices. eexists. split; [|exact Hnotices].
      cbn. rewrite Htoasts, <- app_assoc. reflexivity. }
  apply Qle_bool_iff in Hhour.
  destruct (Upload.supported
              (Upload.probeVideoCodec (Upload.f_type f) (Upload.f_probe f)))
    eqn:Hsup; cbn [negb].
  2:{ split; [cbn; exact Hstore|].
      exists notices. eexists. split; [|exact Hnotices].
      cbn. rewrite Htoasts, <- app_assoc. reflexivity. }
  set (md' := match Upload.codec
                      (Upload.probeVideoCodec (Upload.f_type f)
                         (Upload.f_probe f)) with
              | Some c =>
                  if String.eqb c EmptyString then md
                  else mkMetadata (md_duration md) (md_width md) (md_height md)
                         c (md_frameRate md) (md_bitrate md)
              | None => md
              end).
  assert (Hd : md_duration md' = md_duration md).
  { subst md'. destruct (Upload.codec _) as [c|]; [|reflexivity].
    destruct (String.eqb c EmptyString); reflexivity. }
  rewrite <- Hd in Hpos, Hhour.
  exists (Upload.new_clip f md').
  exists (Upload.new_block f (Upload.new_clip f md')
            (Store.addClip (Upload.new_clip f md')
               (Upload.store (Upload.warned formatBytes f st)))).
  cbn [Upload.store Upload.toast Upload.toasts Store.addBlockToTimeline
         Store.addClip Store.clips Store.timelineBlocks Store.playback
         Store.with_totalDuration totalDuration].
  rewrite Hstore.
  split; [reflexivity|]. split; [reflexivity|].
  cbn [Upload.new_clip Upload.new_block clip_id clipId clip_startTime
         clip_endTime audioSettings metadata startTime endTime duration order
         Store.timelineBlocks Store.addClip].
  rewrite ?Hstore.
  split; [reflexivity|]. split; [reflexivity|]. split; [reflexivity|].
  split; [reflexivity|]. split; [reflexivity|]. split; [exact Hpos|].
  split; [exact Hhour|]. split; [reflexivity|]. split; [reflexivity|].
  split; [reflexivity|]. split; [reflexivity|].
  split; [unfold Trim.trim_invariant; cbn; split; [lra|split; [exact Hpos|lra]]|].
  split; [reflexivity|].
  exists notices. eexists. split; [|exact Hnotices].
  rewrite Htoasts, <- app_assoc. reflexivity.
Qed.

(** X24. What [handleFiles] does with one file.  A file that passes every
    check (size, MIME type, metadata with a duration of at most an hour,
    codec) adds exactly one clip and one block, at the end of their lists:
    the clip is untrimmed (0 to the duration of the source, which is
    positive), at volume 100 and not muted; the block refers to the clip,
    spans the same range, has [duration = endTime - startTime], takes the
    number of blocks there were as its [order] and satisfies
    [0 <= startTime < endTime <= sourceDuration]; the stored total duration is
    the sum over the new timeline; the last toast announces success.  Any
    other file leaves the store as it is and ends with an error toast. *)
Theorem upload_adds_untrimmed_block (f : Upload.incoming) (st : Upload.state) :
  let st' := Upload.handleFile formatBytes show_number f st in
  if Upload.accepted f then
    exists clip block,
      Store.clips (Upload.store st') = Store.clips (Upload.store st) ++ [clip]
      /\ Store.timelineBlocks (Upload.store st')
         = Store.timelineBlocks (Upload.store st) ++ [block]
      /\ clip_id clip = ("clip-" ++ Upload.f_clipKey f)%string
      /\ clipId block = clip_id clip
      /\ clip_startTime clip = 0
      /\ clip_endTime clip = md_duration (metadata clip)
      /\ audioSettings clip = mkAudio 100 false
      /\ 0 < md_duration (metadata clip)
      /\ md_duration (metadata clip) <= 3600
      /\ startTime block = 0
      /\ endTime block = md_duration (metadata clip)
      /\ duration block = endTime block - startTime block
      /\ order block
         = inject_Z (Z.of_nat (List.length
                                 (Store.timelineBlocks (Upload.store st))))
      /\ Trim.trim_invariant block (md_duration (metadata clip))
      /\ totalDuration (Store.playback (Upload.store st'))
         = Store.getTotalDuration (Upload.store st')
      /\ exists notices message,
          Upload.toasts st'
          = Upload.toasts st ++ notices ++ [Panel.ToastSuccess message]
          /\ Forall (fun t => Verdict.is_outcome t = false) notices
  else
    Upload.store st' = Upload.store st
    /\ exists notices message,
        Upload.toasts st'
        = Upload.toasts st ++ notices ++ [Panel.ToastError message]
        /\ Forall (fun t => Verdict.is_outcome t = false) notices.
Proof. exact (handleFile_effect f st). Qed.

End UploadFacts.

Lemma ordered_from_app (blocks : list TimelineBlock) (b : TimelineBlock) :
  forall from,
    Reorder.ordered_from from blocks ->
    order b = inject_Z (Z.of_nat (from + List.length blocks)) ->
    Reorder.ordered_from from (blocks ++ [b]).
Proof.
  induction blocks as [|x rest IH]; intros from Hord Hb.
  - cbn in Hb |- *. rewrite Nat.add_0_r in Hb. auto.
  - cbn in Hord |- *. destruct Hord as [Hx Hrest].
    split; [exact Hx|]. apply IH; [exact Hrest|].
    rewrite Hb. cbn [List.length]. do 2 f_equal. lia.
Qed.

Lemma ordered_from_head_le (blocks : list TimelineBlock) (from : nat)
    (b : TimelineBlock) :
  Reorder.ordered_from (S from) blocks ->
  order b = inject_Z (Z.of_nat from) ->
  insert_by_order b blocks = b :: blocks.
Proof.
  destruct blocks as [|y rest]; [reflexivity|].
  intros [Hy _] Hb. cbn [insert_by_order].
  assert (E : Qle_bool (order b) (order y) = true).
  { apply Qle_bool_iff. rewrite Hb, Hy. rewrite <- Zle_Qle. lia. }
  rewrite E. reflexivity.
Qed.

(** A timeline whose orders count up in list order is its own sorted
    form. *)
Lemma sort_by_order_ordered (blocks : list TimelineBlock) :
  forall from,
    Reorder.ordered_from from blocks -> sort_by_order blocks = blocks.
Proof.
  unfold sort_by_order.
  induction blocks as [|b rest IH]; intros from Hord; [reflexivity|].
  destruct Hord as [Hb Hrest]. cbn [fold_right].
  rewrite (IH (S from) Hrest).
  apply (ordered_from_head_le rest from b Hrest Hb).
Qed.

Section UploadRuns.

Variable formatBytes : Z -> string.
Variable show_number : Q -> string.

Lemma handleFile_ordered (f : Upload.incoming) (st : Upload.state) :
  Reorder.ordered_from 0 (Store.timelineBlocks (Upload.store st)) ->
  Reorder.ordered_from 0
    (Store.timelineBlocks
       (Upload.store (Upload.handleFile formatBytes show_number f st)))
  /\ List.length
       (Store.timelineBlocks
          (Upload.store (Upload.handleFile formatBytes show_number f st)))
     = (List.length (Store.timelineBlocks (Upload.store st))
        + (if Upload.accepted f then 1 else 0))%nat
  /\ List.length
       (Store.clips
          (Upload.store (Upload.handleFile formatBytes show_number f st)))
     = (List.length (Store.clips (Upload.store st))
        + (if Upload.accepted f then 1 else 0))%nat
  /\ Upload.isProcessing (Upload.handleFile formatBytes show_number f st)
     = Upload.isProcessing st.
Proof.
  intros Hord.
  pose proof (handleFile_effect formatBytes show_number f st) as H.
  cbv zeta in H.
  assert (Hproc : Upload.isProcessing
                    (Upload.handleFile formatBytes show_number f st)
                  = Upload.isProcessing st).
  { unfold Upload.handleFile. cbv zeta.
    assert (Hw : Upload.isProcessing (Upload.warned formatBytes f st)
                 = Upload.isProcessing st).
    { unfold Upload.warned. destruct (Upload.warning _) as [w|]; [|reflexivity].
      destruct (String.eqb w EmptyString); reflexivity. }
    destruct (negb (Upload.valid _)); [reflexivity|].
    destruct (Upload.extractVideoMetadata (Upload.f_meta f)); [exact Hw|].
    destruct (Qle_bool (md_duration v) 0); [exact Hw|].
    destruct (negb (Qle_bool (md_duration v) 3600)); [exact Hw|].
    destruct (negb (Upload.supported _)); exact Hw. }
  destruct (Upload.accepted f).
  - destruct H as (clip & block & Hc & Hb & _ & _ & _ & _ & _ & _ & _ & _ & _
                   & _ & Ho & _).
    rewrite Hc, Hb, !length_app. cbn [List.length].
    split; [|auto].
    apply ordered_from_app; [exact Hord|]. rewrite Ho. reflexivity.
  - destruct H as (Hs & _). rewrite Hs, !Nat.add_0_r. auto.
Qed.

(** X25. A timeline filled by uploads alone is in order.  If the blocks
    carry the orders 0, 1, 2, ... in list order before [handleFiles] (as in
    the empty store), they do so after it, for any list of files and whatever
    the browser delivers for them; the timeline and the clip list grow by the
    number of files that pass the checks; sorting by [order], as preview and
    export do, leaves such a timeline as it is; and the processing flag is
    off at the end. *)
Theorem uploads_keep_timeline_in_order (files : list Upload.incoming)
    (st : Upload.state) :
  Reorder.ordered_from 0 (Store.timelineBlocks (Upload.store st)) ->
  Upload.isProcessing st = false ->
  let st' := Upload.handleFiles formatBytes show_number (Some files) st in
  Reorder.ordered_from 0 (Store.timelineBlocks (Upload.store st'))
  /\ List.length (Store.timelineBlocks (Upload.store st'))
     = (List.length (Store.timelineBlocks (Upload.store st))
        + List.length (filter Upload.accepted files))%nat
  /\ List.length (Store.clips (Upload.store st'))
     = (List.length (Store.clips (Upload.store st))
        + List.length (filter Upload.accepted files))%nat
  /\ sort_by_order (Store.timelineBlocks (Upload.store st'))
     = Store.timelineBlocks (Upload.store st')
  /\ Upload.isProcessing st' = false.
Proof.
  intros Hord Hproc st'.
  assert (Hfold : forall fs acc,
             Reorder.ordered_from 0 (Store.timelineBlocks (Upload.store acc)) ->
             let out := fold_left
                          (fun acc f => Upload.handleFile formatBytes
                                          show_number f acc) fs acc in
             Reorder.ordered_from 0 (Store.timelineBlocks (Upload.store out))
             /\ List.length (Store.timelineBlocks (Upload.store out))
                = (List.length (Store.timelineBlocks (Upload.store acc))
                   + List.length (filter Upload.accepted fs))%nat
             /\ List.length (Store.clips (Upload.store out))
                = (List.length (Store.clips (Upload.store acc))
                   + List.length (filter Upload.accepted fs))%nat).
  { induction fs as [|f rest IH]; intros acc Hacc.
    - cbn. rewrite !Nat.add_0_r. auto.
    - cbn [fold_left filter].
      destruct (handleFile_ordered f acc Hacc) as (H1 & H2 & H3 & _).
      destruct (IH _ H1) as (I1 & I2 & I3). cbv zeta.
      split; [exact I1|].
      rewrite I2, I3, H2, H3.
      destruct (Upload.accepted f); cbn [List.length]; lia. }
  assert (Hgoal : Reorder.ordered_from 0
                    (Store.timelineBlocks (Upload.store st'))
                  /\ List.length (Store.timelineBlocks (Upload.store st'))
                     = (List.length (Store.timelineBlocks (Upload.store st))
                        + List.length (filter Upload.accepted files))%nat
                  /\ List.length (Store.clips (Upload.store st'))
                     = (List.length (Store.clips (Upload.store st))
                        + List.length (filter Upload.accepted files))%nat
                  /\ Upload.isProcessing st' = false).
  { subst st'. unfold Upload.handleFiles.
    destruct files as [|f rest].
    - cbn. rewrite !Nat.add_0_r. auto.
    - cbv zeta. cbn [Upload.store Upload.isProcessing].
      destruct (Hfold (f :: rest)
                  (Upload.mk (Upload.store st) (Upload.toasts st) true) Hord)
        as (F1 & F2 & F3).
      auto. }
  destruct Hgoal as (G1 & G2 & G3 & G4).
  split; [exact G1|]. split; [exact G2|]. split; [exact G3|].
  split; [|exact G4].
  apply (sort_by_order_ordered _ 0%nat G1).
Qed.

End UploadRuns.

Lemma uploads_keep_timeline_in_order_witness :
  List.length
    (Store.timelineBlocks
       (Upload.store
          (Upload.handleFiles (fun _ => "2 KB"%string) (fun _ => "?"%string)
             (Some [good_file; text_file; good_file]) empty_upload)))
  = 2%nat.
Proof.
  assert (Hord : Reorder.ordered_from 0
                   (Store.timelineBlocks (Upload.store empty_upload)))
    by exact I.
  exact (proj1 (proj2
           (uploads_keep_timeline_in_order (fun _ => "2 KB"%string)
              (fun _ => "?"%string) [good_file; text_file; good_file]
              empty_upload Hord eq_refl))).
Defined.

(** X26. [validateVideoFile] decides by size and MIME type alone, in that
    order: a file is valid exactly when it is at most 1 GiB and of one of the
    three supported types; an error is given exactly for the invalid files
    and a warning exactly for the valid ones above 500 MiB, never both; a
    file above 1 GiB is reported for its size whatever its type. *)
Theorem validateVideoFile_decides (formatBytes : Z -> string) (size : Z)
    (type : string) :
  let v := Upload.validateVideoFile formatBytes size type in
  (Upload.valid v = true
   <-> (size <= 1073741824)%Z
       /\ (type = "video/mp4" \/ type = "video/webm"
           \/ type = "video/quicktime")%string)
  /\ (Upload.error v = None <-> Upload.valid v = true)
  /\ (Upload.warning v <> None
      <-> Upload.valid v = true /\ (524288000 < size)%Z)
  /\ ((1073741824 < size)%Z ->
      Upload.error v
      = Some ("File size exceeds maximum limit of "
              ++ formatBytes 1073741824%Z ++ ". Selected file is "
              ++ formatBytes size ++ ".")%string).
Proof.
  intros v. subst v.
  assert (Hmax : Upload.MAX_FILE_SIZE = 1073741824%Z) by reflexivity.
  assert (Hwarn : Upload.WARNING_FILE_SIZE = 524288000%Z) by reflexivity.
  assert (Hinc : existsb (String.eqb type) Upload.SUPPORTED_FORMATS = true
                 <-> (type = "video/mp4" \/ type = "video/webm"
                      \/ type = "video/quicktime")%string).
  { unfold Upload.SUPPORTED_FORMATS. cbn [existsb].
    rewrite !orb_true_iff, !String.eqb_eq. intuition congruence. }
  unfold Upload.validateVideoFile. rewrite Hmax, Hwarn.
  destruct (Z.ltb 1073741824 size) eqn:E1.
  - apply Z.ltb_lt in E1. cbn.
    split; [split; [discriminate|intros [H _]; lia]|].
    split; [split; discriminate|].
    split; [split; [congruence|intros [H _]; discriminate]|].
    intros _. reflexivity.
  - apply Z.ltb_ge in E1.
    destruct (existsb (String.eqb type) Upload.SUPPORTED_FORMATS) eqn:E2;
      cbn [negb].
    + destruct (Z.ltb 524288000 size) eqn:E3; cbn.
      * apply Z.ltb_lt in E3.
        split; [split; [intros _; split; [exact E1|apply Hinc; reflexivity]
                       |reflexivity]|].
        split; [split; reflexivity|].
        split; [split; [intros _; split; [reflexivity|exact E3]|discriminate]|].
        intros H. lia.
      * apply Z.ltb_ge in E3.
        split; [split; [intros _; split; [exact E1|apply Hinc; reflexivity]
                       |reflexivity]|].
        split; [split; reflexivity|].
        split; [split; [congruence|intros [_ H]; lia]|].
        intros H. lia.
    + cbn.
      split; [split; [discriminate|]|].
      { intros [_ H]. apply Hinc in H. discriminate. }
      split; [split; discriminate|].
      split; [split; [congruence|intros [H _]; discriminate]|].
      intros H. lia.
Qed.

(** X27. What [extractVideoMetadata] and [probeVideoCodec] can return.
    Metadata is only ever resolved with a positive, finite duration (a
    duration the element reports as infinite is replaced by the position
    reached by seeking to the end), codec "unknown" and 30 frames per second,
    so the first duration check of [handleFiles] never rejects it; a probe
    reports support only if the element loaded the file, the MIME type has a
    known codec and the decoder said yes, and then it names that codec. *)
Theorem metadata_and_probe_results (env : Upload.meta_env)
    (type : string) (penv : Upload.probe_env) :
  (forall md, Upload.extractVideoMetadata env = inr md ->
     0 < md_duration md /\ md_codec md = "unknown"%string
     /\ md_frameRate md = 30
     /\ Qle_bool (md_duration md) 0 = false)
  /\ (forall t w h, 0 < t ->
        Upload.extractVideoMetadata (Upload.MetaLoaded PInf (Some (Fin t)) w h)
        = inr (mkMetadata t w h "unknown" 30 None))
  /\ (Upload.supported (Upload.probeVideoCodec type penv) = true ->
      Upload.pe_loads penv = true
      /\ Upload.pe_decoder penv = Upload.DecoderSays (Some true)
      /\ exists c, Upload.detectCodec type = Some c
                   /\ Upload.codec (Upload.probeVideoCodec type penv) = Some c
                   /\ (c = "vp8" \/ c = "avc1.42E01E")%string).
Proof.
  split; [|split].
  - intros md H. destruct (extractVideoMetadata_positive _ _ H) as (H1 & H2 & H3 & _).
    split; [exact H1|]. split; [exact H2|]. split; [exact H3|].
    destruct (Qle_bool (md_duration md) 0) eqn:E; [|reflexivity].
    apply Qle_bool_iff in E. lra.
  - intros t w h Ht. cbn.
    destruct (Qle_bool t 0) eqn:E; [|reflexivity].
    apply Qle_bool_iff in E. lra.
  - unfold Upload.probeVideoCodec, Upload.detectCodec.
    destruct (Upload.pe_loads penv); [|discriminate].
    destruct (String.eqb type "video/mp4");
      [|destruct (String.eqb type "video/webm");
        [|destruct (String.eqb type "video/quicktime"); [|discriminate]]];
      (destruct (Upload.pe_decoder penv) as [|[[|]|]]; try discriminate;
       intros _; split; [reflexivity|]; split; [reflexivity|];
       eexists; split; [reflexivity|]; split; [reflexivity|]; auto).
Qed.

Lemma metadata_and_probe_results_witness :
  Upload.codec
    (Upload.probeVideoCodec "video/webm"
       (Upload.mkProbe true (Upload.DecoderSays (Some true))))
  = Some "vp8"%string.
Proof.
  destruct (proj2 (proj2 (metadata_and_probe_results Upload.MetaTimeout
                            "video/webm"
                            (Upload.mkProbe true (Upload.DecoderSays (Some true)))))
              eq_refl) as (_ & _ & c & Hc & Hcodec & _).
  rewrite Hcodec, <- Hc. reflexivity.
Defined.

(** *** Reordering *)

Lemma sum_durations_permutation (l l' : list TimelineBlock) :
  Permutation l l' -> Store.sum_durations l == Store.sum_durations l'.
Proof.
  induction 1; cbn.
  - reflexivity.
  - rewrite IHPermutation. reflexivity.
  - ring.
  - rewrite IHPermutation1. exact IHPermutation2.
Qed.

Lemma reindex_from_spec (blocks : list TimelineBlock) :
  forall from,
    Reorder.ordered_from from (Reorder.reindex_from from blocks)
    /\ map (fun b => (id b, clipId b, startTime b, endTime b, duration b))
           (Reorder.reindex_from from blocks)
       = map (fun b => (id b, clipId b, startTime b, endTime b, duration b))
             blocks
    /\ Store.sum_durations (Reorder.reindex_from from blocks)
       = Store.sum_durations blocks.
Proof.
  induction blocks as [|b rest IH]; intros from; cbn; [auto|].
  destruct (IH (S from)) as (H1 & H2 & H3).
  rewrite H2, H3. auto.
Qed.

(** X28. Dropping a block on another one renumbers the timeline.
    Whatever list [arrayMove] returns, [handleDragEnd] stores it with the
    orders 0, 1, 2, ... in list order and every other field untouched, so the
    stored list is its own sorted form; the stored total duration is the sum
    over it; and if [arrayMove] returned a rearrangement of the timeline, the
    total duration is what it was. *)
Theorem drag_end_renumbers
    (arrayMove : list TimelineBlock -> Z -> Z -> list TimelineBlock)
    (active overId : string) (s : Store.t) :
  active <> overId ->
  let moved :=
    arrayMove (Store.timelineBlocks s)
      (Reorder.findIndexZ active (Store.timelineBlocks s))
      (Reorder.findIndexZ overId (Store.timelineBlocks s)) in
  let s' := Reorder.handleDragEnd arrayMove active (Some overId) s in
  Reorder.ordered_from 0 (Store.timelineBlocks s')
  /\ map (fun b => (id b, clipId b, startTime b, endTime b, duration b))
         (Store.timelineBlocks s')
     = map (fun b => (id b, clipId b, startTime b, endTime b, duration b)) moved
  /\ sort_by_order (Store.timelineBlocks s') = Store.timelineBlocks s'
  /\ totalDuration (Store.playback s') = Store.getTotalDuration s'
  /\ Store.clips s' = Store.clips s
  /\ (Permutation moved (Store.timelineBlocks s) ->
      totalDuration (Store.playback s') == Store.getTotalDuration s).
Proof.
  intros Hne moved s'.
  assert (Hs' : s' = Store.updateBlockOrder (Reorder.reindex moved) s).
  { subst s'. unfold Reorder.handleDragEnd.
    apply String.eqb_neq in Hne. rewrite Hne. reflexivity. }
  rewrite Hs'. cbn [Store.updateBlockOrder Store.timelineBlocks Store.playback
                      Store.with_totalDuration totalDuration Store.clips].
  destruct (reindex_from_spec moved 0) as (H1 & H2 & H3).
  split; [exact H1|]. split; [exact H2|].
  split; [apply (sort_by_order_ordered _ 0%nat H1)|].
  split; [reflexivity|]. split; [reflexivity|].
  intros Hperm. unfold Store.getTotalDuration.
  rewrite !reduce_duration_sum. unfold Reorder.reindex. rewrite H3.
  apply sum_durations_permutation. exact Hperm.
Qed.

Lemma drag_end_renumbers_witness :
  map id
    (Store.timelineBlocks
       (Reorder.handleDragEnd example_arrayMove "A" (Some "B"%string)
          two_block_store))
  = ["B"; "A"]%string
  /\ Reorder.ordered_from 0
       (Store.timelineBlocks
          (Reorder.handleDragEnd example_arrayMove "A" (Some "B"%string)
             two_block_store)).
Proof.
  assert (Hne : "A"%string <> "B"%string) by discriminate.
  split; [reflexivity|].
  exact (proj1 (drag_end_renumbers example_arrayMove "A" "B" two_block_store
                  Hne)).
Defined.

(** *** Time display *)

Lemma Qfloor_unique (x : Q) (n : Z) :
  inject_Z n <= x -> x < inject_Z (n + 1) -> Qfloor x = n.
Proof.
  intros Hlo Hhi.
  assert (H1 : (n <= Qfloor x)%Z).
  { rewrite <- (Qfloor_Z n). apply Qfloor_resp_le. exact Hlo. }
  assert (H2 : (Qfloor x < n + 1)%Z).
  { rewrite Zlt_Qlt. eapply Qle_lt_trans; [apply Qfloor_le|exact Hhi]. }
  lia.
Qed.

Lemma two_digits (secs : Z) :
  (0 <= secs < 60)%Z ->
  String.length (Display.padStart2 (Display.show_Z secs)) = 2%nat.
Proof.
  intros H.
  assert (Hn : secs = Z.of_nat (Z.to_nat secs)) by lia.
  assert (Hlt : (Z.to_nat secs < 60)%nat) by lia.
  rewrite Hn. generalize dependent (Z.to_nat secs). intros n _ Hlt.
  do 60 (destruct n as [|n]; [reflexivity|]). lia.
Qed.

(** X29. [formatDuration] splits a time that is finite and not negative
    into whole minutes and seconds: the seconds lie between 0 and 59, sixty
    times the minutes plus the seconds is the time rounded down, and the text
    is the minutes, a colon and exactly two characters for the seconds; for a
    negative time, NaN or an infinity the text is "0:00". *)
Theorem formatDuration_minutes_seconds (seconds : Q) :
  (0 <= seconds ->
   exists mins secs,
     Display.duration_parts (Fin seconds) = Some (mins, secs)
     /\ (0 <= mins)%Z /\ (0 <= secs < 60)%Z
     /\ (60 * mins + secs = Qfloor seconds)%Z
     /\ Display.formatDuration (Fin seconds)
        = (Display.show_Z mins ++ ":"
           ++ Display.padStart2 (Display.show_Z secs))%string
     /\ String.length (Display.padStart2 (Display.show_Z secs)) = 2%nat)
  /\ (seconds < 0 -> Display.formatDuration (Fin seconds) = "0:00"%string)
  /\ Display.formatDuration NaN = "0:00"%string
  /\ Display.formatDuration PInf = "0:00"%string
  /\ Display.formatDuration NInf = "0:00"%string.
Proof.
  split; [|split; [|repeat split]].
  - intros H0.
    assert (E : JS.Qltb seconds 0 = false).
    { unfold JS.Qltb. apply negb_false_iff. apply Qle_bool_iff. exact H0. }
    set (mins := Qfloor (seconds / 60)).
    set (secs := Qfloor (seconds - 60 * inject_Z mins)).
    assert (Hparts : Display.duration_parts (Fin seconds) = Some (mins, secs)).
    { unfold Display.duration_parts. rewrite E. reflexivity. }
    assert (Hlo : inject_Z mins <= seconds / 60) by apply Qfloor_le.
    assert (Hhi : seconds / 60 < inject_Z (mins + 1)) by apply Qlt_floor.
    rewrite inject_Z_plus in Hhi.
    assert (Hdiv : seconds == 60 * (seconds / 60)) by (field).
    assert (Hm : (0 <= mins)%Z).
    { assert (Hq : inject_Z 0 <= seconds / 60).
      { change (inject_Z 0) with 0. lra. }
      apply Qfloor_resp_le in Hq. rewrite Qfloor_Z in Hq. exact Hq. }
    assert (Hr0 : 0 <= seconds - 60 * inject_Z mins) by lra.
    assert (Hr60 : seconds - 60 * inject_Z mins < 60).
    { change (inject_Z 1) with 1 in Hhi. lra. }
    assert (Hs : (0 <= secs < 60)%Z).
    { subst secs. split.
      - assert (Hq : inject_Z 0 <= seconds - 60 * inject_Z mins) by exact Hr0.
        apply Qfloor_resp_le in Hq. rewrite Qfloor_Z in Hq. exact Hq.
      - rewrite Zlt_Qlt. eapply Qle_lt_trans; [apply Qfloor_le|exact Hr60]. }
    assert (Hsum : (60 * mins + secs = Qfloor seconds)%Z).
    { symmetry. apply Qfloor_unique.
      - rewrite inject_Z_plus, inject_Z_mult.
        assert (inject_Z secs <= seconds - 60 * inject_Z mins)
          by apply Qfloor_le.
        change (inject_Z 60) with 60. lra.
      - rewrite !inject_Z_plus, inject_Z_mult.
        assert (seconds - 60 * inject_Z mins < inject_Z (secs + 1))
          by apply Qlt_floor.
        rewrite inject_Z_plus in H.
        change (inject_Z 60) with 60. lra. }
    exists mins, secs.
    split; [exact Hparts|]. split; [exact Hm|]. split; [exact Hs|].
    split; [exact Hsum|].
    split; [unfold Display.formatDuration; rewrite Hparts; reflexivity|].
    apply two_digits. exact Hs.
  - intros Hneg. unfold Display.formatDuration, Display.duration_parts.
    assert (E : JS.Qltb seconds 0 = true) by (apply Qltb_true; exact Hneg).
    rewrite E. reflexivity.
Qed.

Lemma formatDuration_minutes_seconds_witness :
  Display.formatDuration (Fin 125.7) = "2:05"%string
  /\ exists mins secs,
      Display.duration_parts (Fin 125.7) = Some (mins, secs)
      /\ (60 * mins + secs = Qfloor 125.7)%Z.
Proof.
  assert (H0 : 0 <= 125.7) by (vm_compute; congruence).
  split; [reflexivity|].
  destruct (proj1 (formatDuration_minutes_seconds 125.7) H0)
    as (mins & secs & H1 & _ & _ & H2 & _).
  exists mins, secs. split; [exact H1|exact H2].
Defined.

(** *** Writing the file *)

Section WriteFacts.

Variable byte : Type.

Lemma write_loop_spec (totalSize : Q) (chunks : list (list byte)) :
  0 < totalSize ->
  forall file written,
    0 <= written ->
    written + inject_Z (Z.of_nat (List.length (List.concat chunks)))
    == totalSize ->
    let '(final, total, reports) :=
      Download.write_loop byte totalSize chunks file written in
    final = file ++ List.concat chunks
    /\ total == totalSize
    /\ List.length reports = List.length chunks
    /\ Forall (fun p => exists q, p = Fin q
                                  /\ written / totalSize * 100 <= q
                                  /\ q <= 100) reports
    /\ nondecreasing reports = true
    /\ (chunks <> [] -> exists q, last reports NaN = Fin q /\ q == 100).
Proof.
  intros Htotal.
  induction chunks as [|value rest IH]; intros file written Hw Hsum.
  - assert (Hz : inject_Z (Z.of_nat (List.length (@List.concat byte []))) == 0)
      by reflexivity.
    rewrite Hz in Hsum. cbn. rewrite app_nil_r.
    split; [reflexivity|]. split; [lra|]. split; [reflexivity|].
    split; [constructor|]. split; [reflexivity|]. congruence.
  - cbn [Download.write_loop].
    set (written' := written + inject_Z (Z.of_nat (List.length value))).
    assert (Hlen : 0 <= inject_Z (Z.of_nat (List.length value))).
    { change 0 with (inject_Z 0). rewrite <- Zle_Qle. lia. }
    assert (Hrest : 0 <= inject_Z (Z.of_nat (List.length (List.concat rest)))).
    { change 0 with (inject_Z 0). rewrite <- Zle_Qle. lia. }
    assert (Hw' : 0 <= written') by (subst written'; lra).
    assert (Hsum' : written'
                    + inject_Z (Z.of_nat (List.length (List.concat rest)))
                    == totalSize).
    { subst written'. rewrite <- Hsum. cbn [List.concat].
      rewrite length_app, Nat2Z.inj_add, inject_Z_plus. ring. }
    specialize (IH (file ++ value) written' Hw' Hsum').
    destruct (Download.write_loop byte totalSize rest (file ++ value) written')
      as [[final total] reports].
    destruct IH as (Hfinal & Htot & Hcount & Hall & Hmono & Hlast).
    assert (Hdiv : JS.scale (JS.div written' totalSize) 100
                   = Fin (written' / totalSize * 100)).
    { unfold JS.div.
      assert (E : Qeq_bool totalSize 0 = false).
      { destruct (Qeq_bool totalSize 0) eqn:E; [|reflexivity].
        apply Qeq_bool_iff in E. lra. }
      rewrite E. reflexivity. }
    rewrite Hdiv.
    assert (Hle : written' <= totalSize) by lra.
    assert (Hq100 : written' / totalSize * 100 <= 100).
    { assert (written' / totalSize <= 1)
        by (apply Qle_shift_div_r; lra).
      lra. }
    assert (Hstep : written / totalSize * 100 <= written' / totalSize * 100).
    { assert (written / totalSize <= written' / totalSize).
      { unfold Qdiv. apply Qmult_le_compat_r; [subst written'; lra|].
        apply Qinv_le_0_compat. lra. }
      lra. }
    split; [rewrite Hfinal, <- app_assoc; reflexivity|].
    split; [exact Htot|].
    split; [cbn; rewrite Hcount; reflexivity|].
    split.
    { constructor.
      - eexists. split; [reflexivity|]. split; [exact Hstep|exact Hq100].
      - eapply Forall_impl; [|exact Hall].
        intros p (q & -> & H1 & H2). exists q.
        split; [reflexivity|]. split; [lra|exact H2]. }
    split.
    { cbn [nondecreasing]. destruct reports as [|y more]; [reflexivity|].
      rewrite Hmono, andb_true_r.
      inversion Hall as [|? ? (q & -> & H1 & H2) ?]; subst.
      cbn. apply Qle_bool_iff. exact H1. }
    intros _.
    destruct rest as [|value' rest'].
    + cbn in Hcount. destruct reports; [|discriminate].
      cbn. eexists. split; [reflexivity|].
      assert (Hz : inject_Z (Z.of_nat (List.length (@List.concat byte []))) == 0)
        by reflexivity.
      rewrite Hz in Hsum'.
      assert (Heq : written' == totalSize) by lra.
      rewrite Heq. field. lra.
    + destruct (Hlast ltac:(discriminate)) as (q & Hq & Hq100').
      cbn in Hcount. destruct reports as [|y more]; [discriminate|].
      exists q. split; [exact Hq|exact Hq100'].
Qed.

(** X30. Writing a blob that is not empty through [writeToFileHandle]:
    when the chunks of the stream add up to the blob's size, the file
    receives the chunks in order, one progress value is reported per chunk,
    every value is a finite percentage between 0 and 100, the values never
    go down, and the last one is 100. *)
Theorem write_progress_reaches_100 (totalSize : Q)
    (chunks : list (list byte)) :
  0 < totalSize ->
  inject_Z (Z.of_nat (List.length (List.concat chunks))) == totalSize ->
  let '(file, written, reports) :=
    Download.writeToFileHandle byte totalSize chunks in
  file = List.concat chunks
  /\ written == totalSize
  /\ List.length reports = List.length chunks
  /\ Forall (fun p => exists q, p = Fin q /\ 0 <= q /\ q <= 100) reports
  /\ nondecreasing reports = true
  /\ exists q, last reports NaN = Fin q /\ q == 100.
Proof.
  intros Htotal Hsum. unfold Download.writeToFileHandle.
  assert (Hsum0 : 0 + inject_Z (Z.of_nat (List.length (List.concat chunks)))
                  == totalSize) by lra.
  pose proof (write_loop_spec totalSize chunks Htotal [] 0
                ltac:(lra) Hsum0) as H.
  destruct (Download.write_loop byte totalSize chunks [] 0)
    as [[file written] reports].
  destruct H as (H1 & H2 & H3 & H4 & H5 & H6).
  split; [exact H1|]. split; [exact H2|]. split; [exact H3|].
  split.
  { eapply Forall_impl; [|exact H4].
    intros p (q & -> & Hlo & Hhi). exists q.
    split; [reflexivity|]. split; [|exact Hhi].
    assert (0 / totalSize * 100 == 0) by (field; lra). lra. }
  split; [exact H5|].
  apply H6. intros ->.
  assert (Hz : inject_Z (Z.of_nat (List.length (@List.concat byte []))) == 0)
    by reflexivity.
  rewrite Hz in Hsum. lra.
Qed.

End WriteFacts.

Lemma write_progress_reaches_100_witness :
  snd (Download.writeToFileHandle nat 4 [[1; 2]; [3]; [4]]%nat)
  = [Fin (2 / 4 * 100); Fin (3 / 4 * 100); Fin (4 / 4 * 100)]
  /\ exists q,
      last (snd (Download.writeToFileHandle nat 4 [[1; 2]; [3]; [4]]%nat)) NaN
      = Fin q /\ q == 100.
Proof.
  assert (Htotal : 0 < 4) by reflexivity.
  assert (Hsum : inject_Z (Z.of_nat
                             (List.length (List.concat [[1; 2]; [3]; [4]]%nat)))
                 == 4) by reflexivity.
  pose proof (write_progress_reaches_100 nat 4 [[1; 2]; [3]; [4]]%nat
                Htotal Hsum) as H.
  destruct (Download.writeToFileHandle nat 4 [[1; 2]; [3]; [4]]%nat)
    as [[file written] reports] eqn:E.
  destruct H as (_ & _ & _ & _ & _ & Hlast).
  split; [|exact Hlast].
  vm_compute in E. injection E as _ _ <-. 
  vm_compute. reflexivity.
Defined.
